(** * OpenRouter-CLI: the file transaction engine and the tool dispatcher

    A shallow embedding of [openrouter_cli/core/agent.py] (class [AIAgent]:
    backups, operation history, read / write / remove / search / undo) and
    of the dispatch part of [openrouter_cli/core/tools.py] (class
    [ToolsManager]: [execute_tool], the file-operation handlers and the
    security check of [_shell_exec]), with the in-memory part of
    [openrouter_cli/config.py] (class [ConfigManager]: [get], [set],
    [get_model], [_merge_configs]).

    Modelling conventions.

    - A Python [str] is a Rocq [string] holding the UTF-8 encoding of the
      text.  A file is its bytes, again a [string].  Hence
      [str.encode('utf-8')] is the identity, and decoding a file as UTF-8
      is a validity check ([utf8_valid]).
    - [Path.read_text] opens the file in text mode with universal newlines:
      CR LF and a lone CR are read as LF ([universal_newlines]).
      [Path.write_text] is modelled for a POSIX platform, where a line feed
      is written as it is.
    - The file system tracks regular files only, by path; paths are opaque
      strings, so [str(Path(p))] is [p].  Whether a system call fails
      (permissions, a missing directory, a full disk) is decided by the
      world's [os_fault] table, which names the exception that the call
      raises.
    - A path handed to the agent names a regular file or nothing: the
      existence test of the model does not see directories, on which
      [Path.exists()] is true and the read or the removal then fails with
      [IsADirectoryError].
    - A system call that the fault table refuses fails before it has any
      effect.  [Path.write_text] can also fail after it has opened, and so
      emptied, the file (a full disk); the statements below are about
      writes that are not refused, or about failures that come before the
      write.
    - The configuration is the typed one that the defaults give:
      [preferences.backup_enabled] a boolean and [preferences.max_history]
      an integer.  [config set] stores the text of its argument; with a
      [str] for [max_history] the comparison in [_add_to_history] raises
      [TypeError], a case that lies outside the model.
    - The wall clock is a field of the world, read by [datetime.now()].
    - Python exceptions of class [Exception] are the [Raised] outcome of a
      small state-and-exception monad; [try ... except Exception] is
      [try_except].  Logging is not modelled. *)

From Stdlib Require Import ZArith NArith Lia Ascii String.
From stdpp Require Import gmap strings list pretty.

Open Scope string_scope.

(** ** Python values, exceptions and the monad *)

#[warnings="-register-all"]
Inductive pyval : Type :=
| PNone
| PBool (b : bool)
| PInt (z : Z)
| PStr (s : string)
| PList (l : list pyval)
| PDict (d : list (string * pyval)).

(** [d[k]] / [d.get(k)] on a dict literal, kept in insertion order. *)
Fixpoint dict_get (k : string) (d : list (string * pyval)) : option pyval :=
  match d with
  | [] => None
  | (k', v) :: d' => if String.eqb k k' then Some v else dict_get k d'
  end.

Definition pyval_get (k : string) (v : pyval) : option pyval :=
  match v with
  | PDict d => dict_get k d
  | _ => None
  end.

Inductive exn_class : Type :=
| FileOperationError
| FileNotFoundError
| PermissionError
| OSError
| SameFileError
| UnicodeDecodeError
| TypeError
| ReError
| RuntimeError.

#[global] Instance exn_class_eq_dec : EqDecision exn_class.
Proof. solve_decision. Defined.

Record exn : Type := Exn { exn_cls : exn_class; exn_msg : string }.

Inductive outcome (A : Type) : Type :=
| Returned (a : A)
| Raised (e : exn).
Arguments Returned {A} a.
Arguments Raised {A} e.

(** A computation over a state [St] that returns or raises. *)
Definition M (St A : Type) : Type := St -> St * outcome A.

Definition ret {St A} (a : A) : M St A := fun s => (s, Returned a).

Definition raise {St A} (e : exn) : M St A := fun s => (s, Raised e).

Definition bind {St A B} (m : M St A) (k : A -> M St B) : M St B :=
  fun s =>
    match m s with
    | (s', Returned a) => k a s'
    | (s', Raised e) => (s', Raised e)
    end.

(** [try: body except Exception as e: handler(e)].  The state reached when
    the exception was raised is kept: Python does not roll anything back. *)
Definition try_except {St A} (body : M St A) (handler : exn -> M St A) : M St A :=
  fun s =>
    match body s with
    | (s', Returned a) => (s', Returned a)
    | (s', Raised e) => handler e s'
    end.

Definition gets {St A} (f : St -> A) : M St A := fun s => (s, Returned (f s)).

Definition modify {St} (f : St -> St) : M St unit := fun s => (f s, Returned tt).

Declare Scope py_scope.
Delimit Scope py_scope with py.
Notation "x <- c1 ;; c2" := (bind c1 (fun x => c2))
  (at level 100, c1 at next level, right associativity) : py_scope.
Notation "c1 ;; c2" := (bind c1 (fun _ => c2))
  (at level 100, right associativity) : py_scope.
Open Scope py_scope.

(** ** Text: UTF-8, newlines, paths *)

Definition LF : ascii := "010"%char.
Definition CR : ascii := "013"%char.
Definition SLASH : ascii := "/"%char.
Definition DQUOTE : string := String "034"%char EmptyString.

(** Strict UTF-8 validity of a byte string: [pending] continuation bytes
    are still expected and the next one must lie in [lo, hi]. *)
Fixpoint utf8_scan (pending : nat) (lo hi : N) (s : string) : bool :=
  match s with
  | EmptyString => Nat.eqb pending 0
  | String a rest =>
      let b := N_of_ascii a in
      match pending with
      | O =>
          if (b <? 0x80)%N then utf8_scan 0 0x80 0xBF rest
          else if ((0xC2 <=? b) && (b <=? 0xDF))%N then utf8_scan 1 0x80 0xBF rest
          else if (b =? 0xE0)%N then utf8_scan 2 0xA0 0xBF rest
          else if ((0xE1 <=? b) && (b <=? 0xEC))%N then utf8_scan 2 0x80 0xBF rest
          else if (b =? 0xED)%N then utf8_scan 2 0x80 0x9F rest
          else if ((0xEE <=? b) && (b <=? 0xEF))%N then utf8_scan 2 0x80 0xBF rest
          else if (b =? 0xF0)%N then utf8_scan 3 0x90 0xBF rest
          else if ((0xF1 <=? b) && (b <=? 0xF3))%N then utf8_scan 3 0x80 0xBF rest
          else if (b =? 0xF4)%N then utf8_scan 3 0x80 0x8F rest
          else false
      | S k =>
          if ((lo <=? b) && (b <=? hi))%N then utf8_scan k 0x80 0xBF rest else false
      end
  end.

Definition utf8_valid (bytes : string) : bool := utf8_scan 0 0x80 0xBF bytes.

(** Text-mode input translation ([newline=None]). *)
Fixpoint universal_newlines (s : string) : string :=
  match s with
  | EmptyString => EmptyString
  | String c rest =>
      if Ascii.eqb c CR then
        match rest with
        | String c' rest' =>
            if Ascii.eqb c' LF then String LF (universal_newlines rest')
            else String LF (universal_newlines rest)
        | EmptyString => String LF EmptyString
        end
      else String c (universal_newlines rest)
  end.

Fixpoint has_slash (p : string) : bool :=
  match p with
  | EmptyString => false
  | String c rest => Ascii.eqb c SLASH || has_slash rest
  end.

(** [os.path.basename]: what follows the last slash. *)
Fixpoint basename (p : string) : string :=
  match p with
  | EmptyString => EmptyString
  | String c rest =>
      if has_slash rest then basename rest
      else if Ascii.eqb c SLASH then rest
      else p
  end.

(** [Path(d) / name] for a relative [name]. *)
Definition path_join (d name : string) : string := d +:+ "/" +:+ name.

(** Truthiness of a Python [str]. *)
Definition truthy (s : string) : bool := negb (String.eqb s EmptyString).

(** [x or ''] for [x] that is [None] or a [str]. *)
Definition or_empty (x : option string) : string := from_option id EmptyString x.

Definition opt_str (x : option string) : pyval :=
  match x with
  | None => PNone
  | Some s => PStr s
  end.

(** ** The world: files, faults, clock *)

Inductive syscall : Type :=
| SysCopy (src dst : string)
| SysReadText (p : string)
| SysWriteText (p : string)
| SysUnlink (p : string)
| SysMkdirParents (p : string)
| SysStat (p : string).

Record World : Type := mkWorld {
  files : gmap string string;
  os_fault : syscall -> option exn;
  now_stamp : string;   (* datetime.now().strftime of %Y%m%d_%H%M%S *)
  now_iso : string;     (* datetime.now().isoformat() *)
  file_times : string -> string * string   (* st_mtime, st_ctime as isoformat *)
}.

Definition set_files (f : gmap string string -> gmap string string) (w : World) : World :=
  mkWorld (f (files w)) (os_fault w) (now_stamp w) (now_iso w) (file_times w).

(** Time passes between two calls. *)
Definition set_clock (stamp iso : string) (w : World) : World :=
  mkWorld (files w) (os_fault w) stamp iso (file_times w).

Definition no_fault : syscall -> option exn := fun _ => None.

Definition no_times : string -> string * string := fun _ => (EmptyString, EmptyString).

(** ** The agent *)

Record OpRecord : Type := mkOp {
  op_operation : string;
  op_file_path : string;
  op_backup_path : string;
  op_original_content : string;
  op_timestamp : string
}.

Record Config : Type := mkConfig {
  backup_enabled : bool;   (* preferences.backup_enabled *)
  max_history : Z          (* preferences.max_history *)
}.

Definition default_config : Config := mkConfig true 100.

Record State : Type := mkState {
  world : World;
  config : Config;
  backup_dir : string;
  operation_history : list OpRecord
}.

Definition set_world (f : World -> World) (s : State) : State :=
  mkState (f (world s)) (config s) (backup_dir s) (operation_history s).

Definition set_history (f : list OpRecord -> list OpRecord) (s : State) : State :=
  mkState (world s) (config s) (backup_dir s) (f (operation_history s)).

Definition no_such_file (p : string) : exn :=
  Exn FileNotFoundError ("[Errno 2] No such file or directory: '" +:+ p +:+ "'").

(** One system call: the fault table is asked first. *)
Definition syscall_guard (c : syscall) : M State unit :=
  fun s =>
    match os_fault (world s) c with
    | Some e => (s, Raised e)
    | None => (s, Returned tt)
    end.

(** [Path(p).exists()] and [os.path.exists(p)], for a path that is not a
    directory. *)
Definition path_exists (p : string) : M State bool :=
  gets (fun s => bool_decide (is_Some (files (world s) !! p))).

Definition read_bytes (p : string) : M State string :=
  fun s =>
    match files (world s) !! p with
    | Some b => (s, Returned b)
    | None => (s, Raised (no_such_file p))
    end.

(** [Path(p).read_text(encoding='utf-8')] *)
Definition read_text (p : string) : M State string :=
  syscall_guard (SysReadText p) ;;
  b <- read_bytes p ;;
  if utf8_valid b then ret (universal_newlines b)
  else raise (Exn UnicodeDecodeError "'utf-8' codec can't decode bytes").

(** [Path(p).write_text(content, encoding='utf-8')], refused before the
    file is opened or carried out in full. *)
Definition write_text (p content : string) : M State unit :=
  syscall_guard (SysWriteText p) ;;
  modify (set_world (set_files (insert p content))).

(** [Path(p).unlink()] *)
Definition unlink (p : string) : M State unit :=
  syscall_guard (SysUnlink p) ;;
  _ <- read_bytes p ;;
  modify (set_world (set_files (delete p))).

(** [shutil.copy2(src, dst)] *)
Definition copy2 (src dst : string) : M State unit :=
  syscall_guard (SysCopy src dst) ;;
  b <- read_bytes src ;;
  if String.eqb src dst
  then raise (Exn SameFileError ("'" +:+ src +:+ "' and '" +:+ dst +:+ "' are the same file"))
  else modify (set_world (set_files (insert dst b))).

(** [Path(p).parent.mkdir(parents=True, exist_ok=True)]: directories are
    not tracked, so only a failure is visible. *)
Definition mkdir_parents (p : string) : M State unit :=
  syscall_guard (SysMkdirParents p).

(** [list[start:]] with Python's treatment of a negative or oversized
    start. *)
Definition py_slice_from {A} (start : Z) (l : list A) : list A :=
  let n := Z.of_nat (List.length l) in
  let i := if (start <? 0)%Z then Z.max (n + start) 0 else Z.min start n in
  drop (Z.to_nat i) l.

(** [AIAgent._backup_file] *)
Definition _backup_file (file_path : string) : M State string :=
  ex <- path_exists file_path ;;
  if negb ex then ret EmptyString
  else
    timestamp <- gets (fun s => now_stamp (world s)) ;;
    let filename := basename file_path in
    let backup_filename := filename +:+ ".backup_" +:+ timestamp in
    bdir <- gets backup_dir ;;
    let backup_path := path_join bdir backup_filename in
    try_except
      (copy2 file_path backup_path ;; ret backup_path)
      (fun _ => ret EmptyString).

(** The trimming at the end of [_add_to_history]:
    [if len(h) > max_history: h = h[-max_history:]]. *)
Definition limit_history (max_hist : Z) (h : list OpRecord) : list OpRecord :=
  if (max_hist <? Z.of_nat (List.length h))%Z
  then py_slice_from (- max_hist) h
  else h.

(** [AIAgent._add_to_history] *)
Definition _add_to_history (operation file_path backup_path original_content : string)
  : M State unit :=
  max_hist <- gets (fun s => max_history (config s)) ;;
  ts <- gets (fun s => now_iso (world s)) ;;
  modify (set_history (fun h =>
    (h ++ [mkOp operation file_path backup_path original_content ts])%list)) ;;
  (* Limit history size *)
  modify (set_history (limit_history max_hist)).

(** [AIAgent.write_file] *)
Definition write_file (file_path content : string) (create_backup : option bool)
  : M State pyval :=
  try_except
    (let path := file_path in
     cfg <- gets (fun s => backup_enabled (config s)) ;;
     let create_backup := default cfg create_backup in
     ex <- path_exists path ;;
     saved <-
        (if ex && create_backup
         then bp <- _backup_file path ;;
              oc <- read_text path ;;
              ret (Some bp, Some oc)
         else ret (None, None)) ;;
     let backup_path := fst saved in
     let original_content := snd saved in
     mkdir_parents path ;;
     write_text path content ;;
     ex' <- path_exists path ;;
     let operation := if ex' then "modify" else "create" in
     _add_to_history operation path (or_empty backup_path) (or_empty original_content) ;;
     ret (PDict [("success", PBool true);
                 ("file_path", PStr path);
                 ("operation", PStr operation);
                 ("backup_path", opt_str backup_path);
                 ("bytes_written", PInt (Z.of_nat (String.length content)))]))
    (fun e => raise (Exn FileOperationError
                       ("Error writing file " +:+ file_path +:+ ": " +:+ exn_msg e))).

(** [AIAgent.remove_file] *)
Definition remove_file (file_path : string) (create_backup : option bool)
  : M State pyval :=
  try_except
    (let path := file_path in
     ex <- path_exists path ;;
     if negb ex
     then raise (Exn FileOperationError ("File not found: " +:+ file_path))
     else
       cfg <- gets (fun s => backup_enabled (config s)) ;;
       let create_backup := default cfg create_backup in
       saved <-
         (if create_backup
          then bp <- _backup_file path ;;
               oc <- read_text path ;;
               ret (Some bp, Some oc)
          else ret (None, None)) ;;
       let backup_path := fst saved in
       let original_content := snd saved in
       unlink path ;;
       _add_to_history "remove" path (or_empty backup_path) (or_empty original_content) ;;
       ret (PDict [("success", PBool true);
                   ("file_path", PStr path);
                   ("operation", PStr "remove");
                   ("backup_path", opt_str backup_path)]))
    (fun e => raise (Exn FileOperationError
                       ("Error removing file " +:+ file_path +:+ ": " +:+ exn_msg e))).

(** [list.pop()] on a non-empty list: the list without its last element,
    and that element. *)
Fixpoint list_pop {A} (l : list A) : option (list A * A) :=
  match l with
  | [] => None
  | x :: l' =>
      match list_pop l' with
      | None => Some ([], x)
      | Some (front, y) => Some (x :: front, y)
      end
  end.

(** The two identical branches of [undo_last_operation] for ['modify'] and
    ['remove']: restore from the backup, or else from the saved content. *)
Definition restore_saved (path backup_path original_content : string) : M State unit :=
  bex <- path_exists backup_path ;;
  if truthy backup_path && bex then copy2 backup_path path
  else if truthy original_content then write_text path original_content
  else ret tt.

(** The [if / elif] chain of [undo_last_operation] that reverses the
    popped record. *)
Definition reverse_op (last_op : OpRecord) : M State unit :=
  let operation := op_operation last_op in
  let file_path := op_file_path last_op in
  let backup_path := op_backup_path last_op in
  let original_content := op_original_content last_op in
  let path := file_path in
  if String.eqb operation "create" then
    ex <- path_exists path ;;
    if ex then unlink path else ret tt
  else if String.eqb operation "modify" then
    restore_saved path backup_path original_content
  else if String.eqb operation "remove" then
    restore_saved path backup_path original_content
  else ret tt.

(** [AIAgent.undo_last_operation] *)
Definition undo_last_operation : M State pyval :=
  try_except
    (h <- gets operation_history ;;
     match list_pop h with
     | None => raise (Exn FileOperationError "No operations to undo")
     | Some (front, last_op) =>
         modify (set_history (fun _ => front)) ;;
         reverse_op last_op ;;
         ret (PDict [("success", PBool true);
                     ("undone_operation", PStr (op_operation last_op));
                     ("file_path", PStr (op_file_path last_op));
                     ("timestamp", PStr (op_timestamp last_op))])
     end)
    (fun e => raise (Exn FileOperationError
                       ("Error undoing operation: " +:+ exn_msg e))).

Definition op_to_dict (r : OpRecord) : pyval :=
  PDict [("operation", PStr (op_operation r));
         ("file_path", PStr (op_file_path r));
         ("backup_path", PStr (op_backup_path r));
         ("original_content", PStr (op_original_content r));
         ("timestamp", PStr (op_timestamp r))].

(** [AIAgent.get_operation_history] *)
Definition get_operation_history : M State pyval :=
  h <- gets operation_history ;;
  ret (PList (map op_to_dict h)).

(** [AIAgent.clear_operation_history] *)
Definition clear_operation_history : M State pyval :=
  h <- gets operation_history ;;
  let count := List.length h in
  modify (set_history (fun _ => [])) ;;
  ret (PDict [("success", PBool true); ("cleared_operations", PInt (Z.of_nat count))]).

(** ** Reading and searching *)

Definition DOT : ascii := "."%char.

Fixpoint has_dot (s : string) : bool :=
  match s with
  | EmptyString => false
  | String c rest => Ascii.eqb c DOT || has_dot rest
  end.

(** The part of [s] from its last dot on, when something follows that dot. *)
Fixpoint suffix_from (s : string) : string :=
  match s with
  | EmptyString => EmptyString
  | String c rest =>
      if has_dot rest then suffix_from rest
      else if Ascii.eqb c DOT
           then match rest with EmptyString => EmptyString | _ => s end
           else EmptyString
  end.

(** [Path(p).suffix]: a dot that starts the name opens no suffix. *)
Definition suffix (p : string) : string :=
  match basename p with
  | EmptyString => EmptyString
  | String _ rest => suffix_from rest
  end.

Definition lower_ascii (c : ascii) : ascii :=
  let n := N_of_ascii c in
  if ((65 <=? n) && (n <=? 90))%N then ascii_of_N (n + 32) else c.

(** [str.lower()] on the ASCII letters. *)
Fixpoint lower (s : string) : string :=
  match s with
  | EmptyString => EmptyString
  | String c rest => String (lower_ascii c) (lower rest)
  end.

Definition supported_extensions : list (string * list string) :=
  [("python", [".py"; ".pyw"]);
   ("javascript", [".js"; ".jsx"; ".mjs"]);
   ("typescript", [".ts"; ".tsx"]);
   ("html", [".html"; ".htm"]);
   ("css", [".css"; ".scss"; ".sass"]);
   ("java", [".java"]);
   ("cpp", [".cpp"; ".cc"; ".cxx"; ".c++"]);
   ("c", [".c"; ".h"]);
   ("csharp", [".cs"]);
   ("php", [".php"]);
   ("ruby", [".rb"]);
   ("go", [".go"]);
   ("rust", [".rs"]);
   ("swift", [".swift"]);
   ("kotlin", [".kt"]);
   ("scala", [".scala"]);
   ("r", [".r"; ".R"]);
   ("sql", [".sql"]);
   ("shell", [".sh"; ".bash"; ".zsh"]);
   ("powershell", [".ps1"]);
   ("yaml", [".yml"; ".yaml"]);
   ("json", [".json"]);
   ("xml", [".xml"]);
   ("markdown", [".md"; ".markdown"]);
   ("text", [".txt"]);
   ("config", [".conf"; ".cfg"; ".ini"])].

Definition str_in (x : string) (l : list string) : bool := existsb (String.eqb x) l.

(** The loop over [supported_extensions] with its [break]. *)
Fixpoint language_of (table : list (string * list string)) (file_ext : string) : string :=
  match table with
  | [] => "unknown"
  | (lang, extensions) :: table' =>
      if str_in file_ext extensions then lang else language_of table' file_ext
  end.

(** [s.split('\n')], with the line being read in [cur]. *)
Fixpoint split_lines_from (cur : string) (s : string) : list string :=
  match s with
  | EmptyString => [cur]
  | String c rest =>
      if Ascii.eqb c LF then cur :: split_lines_from EmptyString rest
      else split_lines_from (cur +:+ String c EmptyString) rest
  end.

Definition split_lines (s : string) : list string := split_lines_from EmptyString s.

(** [s.count('\n')] *)
Fixpoint count_lf (s : string) : nat :=
  match s with
  | EmptyString => 0
  | String c rest => (if Ascii.eqb c LF then 1 else 0) + count_lf rest
  end.

(** [s[:n]] and [s[a:b]] for non-negative indices. *)
Fixpoint str_take (n : nat) (s : string) : string :=
  match n, s with
  | S n', String c rest => String c (str_take n' rest)
  | _, _ => EmptyString
  end.

Fixpoint str_drop (n : nat) (s : string) : string :=
  match n, s with
  | S n', String _ rest => str_drop n' rest
  | _, _ => s
  end.

Definition str_slice (a b : nat) (s : string) : string := str_take (b - a) (str_drop a s).

(** White space in the sense of [str.isspace], which is what
    [str.strip()] removes.  The ASCII part: *)
Definition is_space (c : ascii) : bool :=
  let n := N_of_ascii c in
  (((9 <=? n) && (n <=? 13)) || ((28 <=? n) && (n <=? 32)))%N.

(** The width in bytes of the white-space character that the text begins
    with, 0 when it begins with none.  Beyond ASCII these are U+0085,
    U+00A0, U+1680, U+2000 to U+200A, U+2028, U+2029, U+202F, U+205F and
    U+3000, in their UTF-8 encoding. *)
Definition space_width (s : string) : nat :=
  match s with
  | EmptyString => 0
  | String c0 rest =>
      if is_space c0 then 1
      else
        match rest with
        | EmptyString => 0
        | String c1 rest1 =>
            let b0 := N_of_ascii c0 in
            let b1 := N_of_ascii c1 in
            if ((b0 =? 0xC2) && ((b1 =? 0x85) || (b1 =? 0xA0)))%N then 2
            else
              match rest1 with
              | EmptyString => 0
              | String c2 _ =>
                  let b2 := N_of_ascii c2 in
                  if (((b0 =? 0xE1) && (b1 =? 0x9A) && (b2 =? 0x80))
                      || ((b0 =? 0xE2) && (b1 =? 0x80)
                          && (((0x80 <=? b2) && (b2 <=? 0x8A))
                              || (b2 =? 0xA8) || (b2 =? 0xA9) || (b2 =? 0xAF)))
                      || ((b0 =? 0xE2) && (b1 =? 0x81) && (b2 =? 0x9F))
                      || ((b0 =? 0xE3) && (b1 =? 0x80) && (b2 =? 0x80)))%N
                  then 3 else 0
              end
        end
  end.

(** [s.lstrip()]; [skip] counts the bytes still to drop of the white-space
    character being removed. *)
Fixpoint lstrip_from (skip : nat) (s : string) : string :=
  match s with
  | EmptyString => EmptyString
  | String _ rest =>
      match skip with
      | S k => lstrip_from k rest
      | O =>
          match space_width s with
          | O => s
          | S k => lstrip_from k rest
          end
      end
  end.

Definition lstrip (s : string) : string := lstrip_from 0 s.

(** The text consists of white space only. *)
Fixpoint all_space_from (skip : nat) (s : string) : bool :=
  match s with
  | EmptyString => true
  | String _ rest =>
      match skip with
      | S k => all_space_from k rest
      | O =>
          match space_width s with
          | O => false
          | S k => all_space_from k rest
          end
      end
  end.

(** [s.rstrip()] *)
Fixpoint rstrip (s : string) : string :=
  match s with
  | EmptyString => EmptyString
  | String c rest => if all_space_from 0 s then EmptyString else String c (rstrip rest)
  end.

Definition strip (s : string) : string := rstrip (lstrip s).

(** Latin-1 decoding: every byte is a code point, written here in UTF-8. *)
Fixpoint latin1_decode (bytes : string) : string :=
  match bytes with
  | EmptyString => EmptyString
  | String c rest =>
      let n := N_of_ascii c in
      if (n <? 0x80)%N then String c (latin1_decode rest)
      else String (ascii_of_N (0xC0 + n / 64))
             (String (ascii_of_N (0x80 + n mod 64)) (latin1_decode rest))
  end.

(** [Path(p).read_text(encoding='latin-1')] *)
Definition read_text_latin1 (p : string) : M State string :=
  syscall_guard (SysReadText p) ;;
  b <- read_bytes p ;;
  ret (universal_newlines (latin1_decode b)).

(** [try: body except C1, C2, ...: handler]: other classes pass through. *)
Definition try_except_only {St A} (classes : list exn_class)
  (body : M St A) (handler : exn -> M St A) : M St A :=
  fun s =>
    match body s with
    | (s', Returned a) => (s', Returned a)
    | (s', Raised e) =>
        if existsb (fun c => bool_decide (c = exn_cls e)) classes
        then handler e s'
        else (s', Raised e)
    end.

Definition lift_outcome {St A} (o : outcome A) : M St A := fun s => (s, o).

(** [Path(p).stat()]: size and the two time stamps. *)
Definition stat (p : string) : M State (nat * (string * string)) :=
  syscall_guard (SysStat p) ;;
  b <- read_bytes p ;;
  times <- gets (fun s => file_times (world s) p) ;;
  ret (String.length b, times).

(** [AIAgent.read_file] *)
Definition read_file (file_path : string) : M State pyval :=
  try_except
    (let path := file_path in
     ex <- path_exists path ;;
     if negb ex
     then raise (Exn FileOperationError ("File not found: " +:+ file_path))
     else
       file_info <- stat path ;;
       let file_ext := lower (suffix path) in
       let language := language_of supported_extensions file_ext in
       let file_type := language in
       content <- try_except_only [UnicodeDecodeError]
                    (read_text path)
                    (fun _ => read_text_latin1 path) ;;
       let lines := split_lines content in
       ret (PDict [("success", PBool true);
                   ("file_path", PStr path);
                   ("content", PStr content);
                   ("metadata",
                    PDict [("size", PInt (Z.of_nat (fst file_info)));
                           ("lines", PInt (Z.of_nat (List.length lines)));
                           ("extension", PStr file_ext);
                           ("file_type", PStr file_type);
                           ("language", PStr language);
                           ("modified_time", PStr (fst (snd file_info)));
                           ("created_time", PStr (snd (snd file_info)))])]))
    (fun e => raise (Exn FileOperationError
                       ("Error reading file " +:+ file_path +:+ ": " +:+ exn_msg e))).

(** Python's [re] module as the search uses it, always with
    [re.IGNORECASE]: [re_search p s] tells whether [re.search] finds a
    match, [re_finditer p s] lists the (start, end) spans of
    [re.finditer]; both raise [re.error] on a malformed pattern. *)
Record re_module : Type := mkRe {
  re_search : string -> string -> outcome bool;
  re_finditer : string -> string -> outcome (list (nat * nat))
}.

(** One element of [match_lines]. *)
Definition match_line (content : string) (lines : list string) (m : nat * nat)
  : option pyval :=
  let line_num := count_lf (str_take (fst m) content) + 1 in
  if (line_num <=? List.length lines)%nat
  then Some (PDict [("line_number", PInt (Z.of_nat line_num));
                    ("line_content", PStr (strip (nth (line_num - 1) lines EmptyString)));
                    ("match_text", PStr (str_slice (fst m) (snd m) content))])
  else None.

(** [for x in l: ...] whose body either appends one result or continues. *)
Fixpoint for_collect {St A B} (body : A -> M St (option B)) (l : list A) : M St (list B) :=
  match l with
  | [] => ret []
  | x :: l' =>
      r <- body x ;;
      rest <- for_collect body l' ;;
      ret (match r with Some b => b :: rest | None => rest end)
  end.

(** [search_dir.rglob('*')]: the tracked files below the directory. *)
Definition rglob (d : string) : M State (list string) :=
  gets (fun s => List.filter (String.prefix (d +:+ "/"))
                   (map fst (map_to_list (files (world s))))).

Definition is_file (p : string) : M State bool := path_exists p.

(** A directory exists when a tracked file lies below it. *)
Definition dir_exists (d : string) : M State bool :=
  ex <- path_exists d ;;
  below <- rglob d ;;
  ret (ex || negb (bool_decide (below = []))).

Section Search.

Variable re : re_module.

(** The body of the loop of [search_files]: [None] is [continue]. *)
Definition search_one (pattern file_extension content_pattern : string)
  (file_path : string) : M State (option pyval) :=
  isf <- is_file file_path ;;
  if negb isf then ret None
  else
    let file_ext := lower (suffix file_path) in
    if truthy file_extension && negb (String.eqb file_ext file_extension) then ret None
    else
      name_ok <- (if truthy pattern
                  then lift_outcome (re_search re pattern (basename file_path))
                  else ret true) ;;
      if negb name_ok then ret None
      else
        st <- stat file_path ;;
        let file_info :=
          [("file_path", PStr file_path);
           ("filename", PStr (basename file_path));
           ("extension", PStr file_ext);
           ("size", PInt (Z.of_nat (fst st)))] in
        if truthy content_pattern then
          try_except_only [UnicodeDecodeError; PermissionError]
            (content <- read_text file_path ;;
             matches <- lift_outcome (re_finditer re content_pattern content) ;;
             match matches with
             | [] => ret None
             | _ =>
                 let lines := split_lines content in
                 ret (Some (PDict (file_info ++
                   [("content_matches", PInt (Z.of_nat (List.length matches)));
                    ("match_lines",
                     PList (omap (match_line content lines) (take 5 matches)))])%list))
             end)
            (fun _ => ret None)
        else ret (Some (PDict file_info)).

(** [AIAgent.search_files] *)
Definition search_files (directory pattern file_extension content_pattern : string)
  : M State pyval :=
  try_except
    (let search_dir := directory in
     ex <- dir_exists search_dir ;;
     if negb ex
     then raise (Exn FileOperationError ("Directory not found: " +:+ directory))
     else
       walk <- rglob search_dir ;;
       results <- for_collect (search_one pattern file_extension content_pattern) walk ;;
       ret (PDict [("success", PBool true);
                   ("results", PList results);
                   ("total_files", PInt (Z.of_nat (List.length results)))]))
    (fun e => raise (Exn FileOperationError
                       ("Error searching files: " +:+ exn_msg e))).

End Search.

(** A regular-expression engine for literal patterns, ignoring case: the
    non-overlapping occurrences from left to right. *)
Fixpoint literal_spans (pat : string) (skip pos : nat) (s : string) : list (nat * nat) :=
  match s with
  | EmptyString =>
      match pat with EmptyString => [(pos, pos)] | _ => [] end
  | String _ rest =>
      match skip with
      | S k => literal_spans pat k (S pos) rest
      | O =>
          if String.prefix (lower pat) (lower s)
          then (pos, pos + String.length pat)
                 :: literal_spans pat (String.length pat - 1) (S pos) rest
          else literal_spans pat 0 (S pos) rest
      end
  end.

Definition literal_re : re_module :=
  mkRe (fun p s => Returned (negb (bool_decide (literal_spans p 0 0 s = []))))
       (fun p s => Returned (literal_spans p 0 0 s)).

(** ** The tool registry *)

Record ParamInfo : Type := mkParam {
  p_type : string;
  p_required : bool;
  p_description : string
}.

Record Tool (St : Type) : Type := mkTool {
  t_name : string;
  t_description : string;
  t_category : string;
  t_parameters : list (string * ParamInfo);
  t_function : gmap string pyval -> M St pyval
}.
Arguments mkTool {St}.
Arguments t_name {St}.
Arguments t_description {St}.
Arguments t_category {St}.
Arguments t_parameters {St}.
Arguments t_function {St}.

Definition error_dict (msg : string) : pyval := PDict [("error", PStr msg)].

(** The validation loop of [execute_tool]: the first parameter, in the
    order of the schema, that is required and not among the arguments. *)
Fixpoint first_missing (params : list (string * ParamInfo)) (kwargs : gmap string pyval)
  : option string :=
  match params with
  | [] => None
  | (param_name, param_info) :: rest =>
      if p_required param_info && negb (bool_decide (is_Some (kwargs !! param_name)))
      then Some param_name
      else first_missing rest kwargs
  end.

(** The body of [ToolsManager.execute_tool], run on the keyword arguments
    that the call has bound to [kwargs]; the call itself, with the binding
    of the arguments, is [call_execute_tool] below. *)
Definition execute_tool {St} (tools : gmap string (Tool St)) (tool_name : string)
  (kwargs : gmap string pyval) : M St pyval :=
  match tools !! tool_name with
  | None => ret (error_dict ("Tool " +:+ DQUOTE +:+ tool_name +:+ DQUOTE +:+ " not found"))
  | Some tool =>
      match first_missing (t_parameters tool) kwargs with
      | Some param_name =>
          ret (error_dict ("Required parameter " +:+ DQUOTE +:+ param_name +:+ DQUOTE
                           +:+ " missing"))
      | None =>
          try_except
            (t_function tool kwargs)
            (fun e => ret (error_dict ("Tool execution failed: " +:+ exn_msg e)))
      end
  end.

(** [ToolsManager.get_tool_help], without the usage example. *)
Definition get_tool_help {St} (tools : gmap string (Tool St)) (tool_name : string) : pyval :=
  match tools !! tool_name with
  | None => error_dict ("Tool " +:+ DQUOTE +:+ tool_name +:+ DQUOTE +:+ " not found")
  | Some tool =>
      PDict [("name", PStr (t_name tool));
             ("description", PStr (t_description tool));
             ("category", PStr (t_category tool))]
  end.

(** *** Binding keyword arguments to a handler's parameters *)

Definition py_truthy (v : pyval) : bool :=
  match v with
  | PNone => false
  | PBool b => b
  | PInt z => negb (z =? 0)%Z
  | PStr s => truthy s
  | PList l => negb (bool_decide (List.length l = 0))
  | PDict d => negb (bool_decide (List.length d = 0))
  end.

(** Calling a handler with the keyword arguments unpacked raises
    [TypeError] on a keyword that the handler does not have and on a
    parameter without default that is not given. *)
Definition bind_call {St} (required optional : list string) (kwargs : gmap string pyval)
  : M St unit :=
  if forallb (fun k => str_in k (required ++ optional)%list) (map fst (map_to_list kwargs))
     && forallb (fun k => bool_decide (is_Some (kwargs !! k))) required
  then ret tt
  else raise (Exn TypeError "got an unexpected keyword argument or a required argument is missing").

(** The call [tools_manager.execute_tool(tool_name, **kwargs)], as
    [commands/chat.py] makes it with the parameters typed by the user.
    Python binds [self] and [tool_name] first; a keyword argument of one
    of these names makes the call raise [TypeError] before the body runs,
    outside its [try].  The message names the colliding argument, here
    [tool_name] when both are given. *)
Definition call_execute_tool {St} (tools : gmap string (Tool St)) (tool_name : string)
  (kwargs : gmap string pyval) : M St pyval :=
  if bool_decide (is_Some (kwargs !! "tool_name"))
  then raise (Exn TypeError
                "ToolsManager.execute_tool() got multiple values for argument 'tool_name'")
  else if bool_decide (is_Some (kwargs !! "self"))
  then raise (Exn TypeError
                "ToolsManager.execute_tool() got multiple values for argument 'self'")
  else execute_tool tools tool_name kwargs.

Definition arg_str {St} (kwargs : gmap string pyval) (k : string) (dflt : string) : M St string :=
  match kwargs !! k with
  | None => ret dflt
  | Some (PStr s) => ret s
  | Some _ => raise (Exn TypeError ("argument " +:+ k +:+ " must be str"))
  end.

(** The [backup] parameter, default [True]; [None] lets the agent take the
    configured default. *)
Definition arg_backup (kwargs : gmap string pyval) : option bool :=
  match kwargs !! "backup" with
  | None => Some true
  | Some PNone => None
  | Some v => Some (py_truthy v)
  end.

Definition handler_guard {St} (body : M St pyval) : M St pyval :=
  try_except body (fun e => ret (error_dict (exn_msg e))).

(** [ToolsManager._fs_write] *)
Definition _fs_write (kwargs : gmap string pyval) : M State pyval :=
  bind_call ["path"; "content"] ["backup"] kwargs ;;
  handler_guard
    (path <- arg_str kwargs "path" EmptyString ;;
     content <- arg_str kwargs "content" EmptyString ;;
     write_file path content (arg_backup kwargs)).

(** [ToolsManager._fs_remove] *)
Definition _fs_remove (kwargs : gmap string pyval) : M State pyval :=
  bind_call ["path"] ["backup"] kwargs ;;
  handler_guard
    (path <- arg_str kwargs "path" EmptyString ;;
     remove_file path (arg_backup kwargs)).

(** [ToolsManager._fs_undo] *)
Definition _fs_undo (kwargs : gmap string pyval) : M State pyval :=
  bind_call [] [] kwargs ;;
  handler_guard undo_last_operation.

(** [ToolsManager._fs_search] *)
Definition _fs_search (re : re_module) (kwargs : gmap string pyval) : M State pyval :=
  bind_call ["directory"] ["pattern"; "extension"; "content"] kwargs ;;
  handler_guard
    (directory <- arg_str kwargs "directory" EmptyString ;;
     pattern <- arg_str kwargs "pattern" EmptyString ;;
     extension <- arg_str kwargs "extension" EmptyString ;;
     content <- arg_str kwargs "content" EmptyString ;;
     search_files re directory pattern extension content).

(** The file-operation entries of [_register_tools] whose handlers are
    embedded above. *)
Definition file_tools (re : re_module) : gmap string (Tool State) :=
  <["fs_write" := mkTool "fs_write" "Write content to a file with automatic backup"
      "File Operations"
      [("path", mkParam "string" true "Path to the file to write");
       ("content", mkParam "string" true "Content to write to the file");
       ("backup", mkParam "boolean" false "Create backup (default: true)")]
      _fs_write]>
  (<["fs_search" := mkTool "fs_search" "Search for files and content with advanced filtering"
      "File Operations"
      [("directory", mkParam "string" true "Directory to search in");
       ("pattern", mkParam "string" false "Filename pattern (regex)");
       ("extension", mkParam "string" false "File extension filter");
       ("content", mkParam "string" false "Content pattern to search for")]
      (_fs_search re)]>
  (<["fs_remove" := mkTool "fs_remove" "Remove a file with optional backup"
      "File Operations"
      [("path", mkParam "string" true "Path to the file to remove");
       ("backup", mkParam "boolean" false "Create backup (default: true)")]
      _fs_remove]>
  (<["fs_undo" := mkTool "fs_undo" "Undo the last file operation"
      "File Operations" [] _fs_undo]> ∅))).

(** ** Sequences of mutating operations *)

Inductive mutation : Type :=
| MWrite (path content : string) (create_backup : option bool)
| MRemove (path : string) (create_backup : option bool)
| MUndo
| MClear.

Definition run_mutation (m : mutation) : M State pyval :=
  match m with
  | MWrite path content b => write_file path content b
  | MRemove path b => remove_file path b
  | MUndo => undo_last_operation
  | MClear => clear_operation_history
  end.

(** The state after a caller has issued the operations one after the
    other, whatever each of them returned or raised. *)
Fixpoint run_mutations (ms : list mutation) (s : State) : State :=
  match ms with
  | [] => s
  | m :: ms' => run_mutations ms' (fst (run_mutation m s))
  end.

(** ** The data-model invariant, in the words of the specification *)

(** A backup reference resolves when it is non-empty and names a file. *)
Definition resolves (w : World) (backup_path : string) : bool :=
  truthy backup_path && bool_decide (is_Some (files w !! backup_path)).

(** Exactly one of the two ways to restore for Modify and Remove, none for
    Create. *)
Definition spec_record_invariant (w : World) (r : OpRecord) : bool :=
  if String.eqb (op_operation r) "create"
  then negb (truthy (op_backup_path r)) && negb (truthy (op_original_content r))
  else if String.eqb (op_operation r) "modify" || String.eqb (op_operation r) "remove"
  then xorb (resolves w (op_backup_path r)) (truthy (op_original_content r))
  else true.

(** The result shape of the specification: an operation returns, it does
    not raise. *)
Definition returns_result {St A} (r : St * outcome A) : Prop :=
  exists v, snd r = Returned v.

(** What the agent's methods do instead: return, or raise
    [FileOperationError]. *)
Definition returns_or_file_error {St} (r : St * outcome pyval) : Prop :=
  match snd r with
  | Returned v => pyval_get "success" v = Some (PBool true)
  | Raised e => exn_cls e = FileOperationError
  end.

(** ** Example worlds *)

Definition world0 : World :=
  mkWorld ∅ no_fault "20240101_120000" "2024-01-01T12:00:00" no_times.

Definition state0 : State := mkState world0 default_config "/backups" [].

Definition state_with (fs : gmap string string) (cfg : Config) : State :=
  mkState (mkWorld fs no_fault "20240101_120000" "2024-01-01T12:00:00" no_times)
    cfg "/backups" [].

(** A world in which the system calls listed in [denied] fail with
    [PermissionError]. *)
Definition syscall_eqb (a b : syscall) : bool :=
  match a, b with
  | SysCopy s d, SysCopy s' d' => String.eqb s s' && String.eqb d d'
  | SysReadText p, SysReadText p' => String.eqb p p'
  | SysWriteText p, SysWriteText p' => String.eqb p p'
  | SysUnlink p, SysUnlink p' => String.eqb p p'
  | SysMkdirParents p, SysMkdirParents p' => String.eqb p p'
  | SysStat p, SysStat p' => String.eqb p p'
  | _, _ => false
  end.

Definition deny (denied : list syscall) : syscall -> option exn :=
  fun c =>
    if existsb (syscall_eqb c) denied
    then Some (Exn PermissionError "[Errno 13] Permission denied")
    else None.

Definition state_denying (fs : gmap string string) (denied : list syscall) : State :=
  mkState (mkWorld fs (deny denied) "20240101_120000" "2024-01-01T12:00:00" no_times)
    default_config "/backups" [].

(** A tool over a call counter: its handler counts its invocations. *)
Definition counting_tool : Tool nat :=
  mkTool "probe" "Counts its calls" "Test"
    [("path", mkParam "string" true "Path")]
    (fun _ => modify S ;; ret (PDict [("success", PBool true)])).

Definition counting_tools : gmap string (Tool nat) := {[ "probe" := counting_tool ]}.

(** A tool whose handler raises. *)
Definition raising_tool : Tool nat :=
  mkTool "boom" "Always raises" "Test" []
    (fun _ => modify S ;; raise (Exn RuntimeError "boom")).

(** ** Predicates and abbreviations used in the statements *)

(** The agent's own fields are the same in both states. *)
Definition same_agent (s s' : State) : Prop :=
  config s' = config s /\ backup_dir s' = backup_dir s
  /\ operation_history s' = operation_history s.

(** A computation that touches nothing but the world. *)
Definition world_only {A} (m : M State A) : Prop :=
  forall s, same_agent s (fst (m s)).

(** A computation that leaves the history alone or appends one record and
    trims. *)
Definition appends_at_most_one {A} (m : M State A) : Prop :=
  forall s,
    let s' := fst (m s) in
    config s' = config s /\ backup_dir s' = backup_dir s /\
    (operation_history s' = operation_history s \/
     exists r, operation_history s' =
               limit_history (max_history (config s)) (operation_history s ++ [r])).

(** The payloads that the agent returns on success. *)
Definition undo_payload (last_op : OpRecord) : pyval :=
  PDict [("success", PBool true);
         ("undone_operation", PStr (op_operation last_op));
         ("file_path", PStr (op_file_path last_op));
         ("timestamp", PStr (op_timestamp last_op))].

(** The bound of the history. *)
Definition history_bounded (s : State) : Prop :=
  (Z.of_nat (List.length (operation_history s)) <= max_history (config s))%Z.

(** The name under which [_backup_file] stores the snapshot. *)
Definition backup_path_of (s : State) (file_path : string) : string :=
  path_join (backup_dir s) (basename file_path +:+ ".backup_" +:+ now_stamp (world s)).

Definition write_payload (path content : string) (backup_path : option string) : pyval :=
  PDict [("success", PBool true);
         ("file_path", PStr path);
         ("operation", PStr "modify");
         ("backup_path", opt_str backup_path);
         ("bytes_written", PInt (Z.of_nat (String.length content)))].

Definition remove_payload (path : string) (backup_path : option string) : pyval :=
  PDict [("success", PBool true);
         ("file_path", PStr path);
         ("operation", PStr "remove");
         ("backup_path", opt_str backup_path)].

(** The path and the backup flag of a write or a removal, and the
    operation under which the agent records it for a file that existed. *)
Definition mutation_target (m : mutation) : option (string * option bool) :=
  match m with
  | MWrite path _ b => Some (path, b)
  | MRemove path b => Some (path, b)
  | _ => None
  end.

Definition mutation_kind (m : mutation) : string :=
  match m with
  | MWrite _ _ _ => "modify"
  | MRemove _ _ => "remove"
  | MUndo => "undo"
  | MClear => "clear"
  end.

(** What the appended record holds for a file with the bytes [bytes],
    judged in the world [w'] after the operation. *)
Definition appended_record_ok (bytes : string) (backups_on : bool) (w' : World)
  (rec : OpRecord) : Prop :=
  if backups_on
  then op_original_content rec = universal_newlines bytes /\
       (op_backup_path rec = EmptyString \/
        files w' !! op_backup_path rec = Some bytes)
  else op_backup_path rec = EmptyString /\ op_original_content rec = EmptyString.

(** The part of [write_file] and [remove_file] that saves the prior
    state. *)
Definition save_prior (do_backup : bool) (path : string)
  : M State (option string * option string) :=
  if do_backup
  then bp <- _backup_file path ;; oc <- read_text path ;; ret (Some bp, Some oc)
  else ret (None, None).

(** Whether a text holds a carriage return. *)
Fixpoint has_cr (s : string) : bool :=
  match s with
  | EmptyString => false
  | String c rest => Ascii.eqb c CR || has_cr rest
  end.

(** The three ways in which [undo_last_operation] reverses a record, by
    what the record saved. *)
Definition restored_as_saved (path bp bytes : string) (s1 s2 : State) : Prop :=
  if resolves (world s1) bp
  then files (world s2) !! path = Some bytes
  else if truthy (universal_newlines bytes)
       then files (world s2) !! path = Some (universal_newlines bytes)
       else files (world s2) = files (world s1).

(** The tool [tool] with another handler. *)
Definition with_handler {St} (tool : Tool St) (h : gmap string pyval -> M St pyval)
  : Tool St :=
  mkTool (t_name tool) (t_description tool) (t_category tool) (t_parameters tool) h.

(** The failure of [execute_tool] for the absent required parameter [q]. *)
Definition missing_parameter (q : string) : pyval :=
  error_dict ("Required parameter " +:+ DQUOTE +:+ q +:+ DQUOTE +:+ " missing").

(** Whatever the computation returns is tagged [success: True]. *)
Definition success_only (m : M State pyval) : Prop :=
  forall s s' v, m s = (s', Returned v) -> pyval_get "success" v = Some (PBool true).

(** The element of [match_lines] for the match with the span [m] of
    [content]: the number of the line in which the match begins, which is
    one more than the number of line feeds before it and is a line of the
    content; the text of that line without the white space around it; and
    the matched text. *)
Definition match_location (content : string) (m : nat * nat) (d : pyval) : Prop :=
  let line_number := (count_lf (str_take (fst m) content) + 1)%nat in
  (line_number <= List.length (split_lines content))%nat /\
  d = PDict [("line_number", PInt (Z.of_nat line_number));
             ("line_content",
              PStr (strip (nth (line_number - 1) (split_lines content) EmptyString)));
             ("match_text", PStr (str_slice (fst m) (snd m) content))].

(** A computation that reads the state and leaves it as it is. *)
Definition read_only {A} (m : M State A) : Prop := forall s, fst (m s) = s.

(** What the entry of the results for the file at [path] says about the
    content of the file: the number of all matches, and the locations of
    the first five of them at most, in their order. *)
Definition entry_reports (re : re_module) (cpat : string) (s : State) (path : string)
  (entry : pyval) : Prop :=
  exists bytes matches mls,
    pyval_get "file_path" entry = Some (PStr path) /\
    files (world s) !! path = Some bytes /\
    utf8_valid bytes = true /\
    re_finditer re cpat (universal_newlines bytes) = Returned matches /\
    matches <> [] /\
    pyval_get "content_matches" entry = Some (PInt (Z.of_nat (List.length matches))) /\
    pyval_get "match_lines" entry = Some (PList mls) /\
    List.length mls = Nat.min 5 (List.length matches) /\
    Forall2 (match_location (universal_newlines bytes)) (take 5 matches) mls.

(** A file that a content search has to report: it decodes as UTF-8 and
    can be read, it passes the filters on the extension and on the name,
    and the content pattern has the matches [matches] in it, at least
    one. *)
Definition matching_file (re : re_module) (pattern ext cpat : string) (s : State)
  (path : string) (matches : list (nat * nat)) : Prop :=
  exists bytes,
    files (world s) !! path = Some bytes /\
    utf8_valid bytes = true /\
    os_fault (world s) (SysReadText path) = None /\
    (truthy ext = true -> lower (suffix path) = ext) /\
    (truthy pattern = true -> re_search re pattern (basename path) = Returned true) /\
    re_finditer re cpat (universal_newlines bytes) = Returned matches /\
    matches <> [].

(** A tree with a source file in which [class] occurs eight times and a
    file that is not valid UTF-8. *)
Definition search_tree : gmap string string :=
  {[ "d/a.py" := "class A" +:+ String LF "  class b; CLASS c; class class"
                 +:+ String LF "class class class z";
     "d/b.bin" := String "255"%char "class" ]}.

(** ** Frames of the operations *)

(** The environment of the agent: everything in the state except the files
    and the history. *)
Definition same_env (s s' : State) : Prop :=
  os_fault (world s') = os_fault (world s) /\
  now_stamp (world s') = now_stamp (world s) /\
  now_iso (world s') = now_iso (world s) /\
  config s' = config s /\
  backup_dir s' = backup_dir s.

(** The file at [q] is the same in both states, unless [q] is [path] or,
    when [with_snapshot] is set, the snapshot name of [path]. *)
Definition unchanged_at (with_snapshot : bool) (path q : string) (s s' : State) : Prop :=
  same_env s s' /\
  (q <> path -> (with_snapshot = true -> q <> backup_path_of s path) ->
   files (world s') !! q = files (world s) !! q).

(** The file at [q] and the history are the same in both states. *)
Definition untouched_at (q : string) (s s' : State) : Prop :=
  same_env s s' /\
  files (world s') !! q = files (world s) !! q /\
  operation_history s' = operation_history s.

(** Every run of the computation relates its initial and final state by
    [R]. *)
Definition preserves {A} (R : State -> State -> Prop) (m : M State A) : Prop :=
  forall s, R s (fst (m s)).

(** The files that an operation may change: the target and its snapshot
    for a write or a removal, the file of the last record for an undo. *)
Definition mutation_footprint (m : mutation) (s : State) : list string :=
  match m with
  | MWrite path _ _ => [path; backup_path_of s path]
  | MRemove path _ => [path; backup_path_of s path]
  | MUndo =>
      match list_pop (operation_history s) with
      | Some (_, last_op) => [op_file_path last_op]
      | None => []
      end
  | MClear => []
  end.

(** ** Entries of a search *)

(** The entry that [search_files] builds for a file before it looks at the
    content. *)
Definition plain_entry (s : State) (file_path : string) : pyval :=
  PDict [("file_path", PStr file_path);
         ("filename", PStr (basename file_path));
         ("extension", PStr (lower (suffix file_path)));
         ("size", PInt (Z.of_nat (String.length (default EmptyString
                                                    (files (world s) !! file_path)))))].

(** The files that [rglob] lists for a directory. *)
Definition walk_of (s : State) (directory : string) : list string :=
  List.filter (String.prefix (directory +:+ "/")) (map fst (map_to_list (files (world s)))).

(** An entry names a file below the directory that passes the filters. *)
Definition passes_filters (re : re_module) (directory pattern ext : string) (s : State)
  (entry : pyval) : Prop :=
  exists path bytes,
    pyval_get "file_path" entry = Some (PStr path) /\
    files (world s) !! path = Some bytes /\
    String.prefix (directory +:+ "/") path = true /\
    pyval_get "size" entry = Some (PInt (Z.of_nat (String.length bytes))) /\
    pyval_get "extension" entry = Some (PStr (lower (suffix path))) /\
    (truthy ext = true -> lower (suffix path) = ext) /\
    (truthy pattern = true -> re_search re pattern (basename path) = Returned true).

(** ** The shell tool *)

(** [needle in hay] for two strings. *)
Fixpoint substring_in (needle hay : string) : bool :=
  String.prefix needle hay ||
  match hay with
  | EmptyString => false
  | String _ rest => substring_in needle rest
  end.

Definition dangerous_commands : list string :=
  ["rm -rf"; "del /f"; "format"; "fdisk"; "mkfs"].

(** The security check of [_shell_exec]:
    [any(dangerous in command.lower() for dangerous in dangerous_commands)].
    [lower] maps the ASCII letters only; the commands of the list are
    ASCII, so a command that is blocked here is blocked under Python's
    [str.lower] as well. *)
Definition is_dangerous (command : string) : bool :=
  existsb (fun dangerous => substring_in dangerous (lower command)) dangerous_commands.

(** What [subprocess.run(..., capture_output=True, text=True, timeout=...)]
    comes to: the process completed, the timeout expired, or another
    exception was raised. *)
Inductive run_result : Type :=
| Completed (returncode : Z) (stdout stderr : string)
| TimeoutExpired
| RunFailed (e : exn).

(** The platform below [_shell_exec]: [subprocess.run] with the shell, on
    a state of its own, and [os.getcwd]. *)
Record subprocess_module (St : Type) : Type := mkSubprocess {
  subprocess_run : string -> option string -> Z -> St -> St * run_result;
  getcwd : St -> string
}.
Arguments mkSubprocess {St}.
Arguments subprocess_run {St}.
Arguments getcwd {St}.

(** [ToolsManager._shell_exec] *)
Definition _shell_exec {St} (sp : subprocess_module St)
  (command : string) (cwd : option string) (timeout : Z) : M St pyval :=
  if is_dangerous command
  then ret (error_dict "Dangerous command detected and blocked")
  else
    fun s =>
      match subprocess_run sp command cwd timeout s with
      | (s', Completed returncode stdout stderr) =>
          (s', Returned
                 (PDict [("success", PBool true);
                         ("command", PStr command);
                         ("return_code", PInt returncode);
                         ("stdout", PStr stdout);
                         ("stderr", PStr stderr);
                         ("cwd", PStr (match cwd with
                                       | Some d => if truthy d then d else getcwd sp s'
                                       | None => getcwd sp s'
                                       end))]))
      | (s', TimeoutExpired) =>
          (s', Returned (error_dict ("Command timed out after " +:+ pretty timeout
                                     +:+ " seconds")))
      | (s', RunFailed e) => (s', Returned (error_dict (exn_msg e)))
      end.

(** A shell that counts the commands it is given and runs them with
    success. *)
Definition counting_shell : subprocess_module nat :=
  mkSubprocess (fun _ _ _ n => (S n, Completed 0 EmptyString EmptyString))
               (fun _ => "/").

(** ** The configuration manager ([openrouter_cli/config.py]) *)

(** [s.split(sep)] for a one-character separator, with the piece being
    read in [cur]. *)
Fixpoint split_on (sep : ascii) (cur : string) (s : string) : list string :=
  match s with
  | EmptyString => [cur]
  | String c rest =>
      if Ascii.eqb c sep then cur :: split_on sep EmptyString rest
      else split_on sep (cur +:+ String c EmptyString) rest
  end.

(** [key.split('.')] *)
Definition split_dots (key : string) : list string := split_on DOT EmptyString key.

(** [d[k] = v] on a dict kept in insertion order: an existing key keeps
    its place, a new one goes to the end. *)
Fixpoint dict_set (k : string) (v : pyval) (d : list (string * pyval))
  : list (string * pyval) :=
  match d with
  | [] => [(k, v)]
  | (k', v') :: d' =>
      if String.eqb k k' then (k, v) :: d' else (k', v') :: dict_set k v d'
  end.

(** The loop of [ConfigManager.get]: [None] is [return default]. *)
Fixpoint config_lookup (keys : list string) (value : pyval) : option pyval :=
  match keys with
  | [] => Some value
  | k :: keys' =>
      match value with
      | PDict d =>
          match dict_get k d with
          | Some v => config_lookup keys' v
          | None => None
          end
      | _ => None
      end
  end.

(** [ConfigManager.get], on the configuration [cfg] held in memory. *)
Definition config_get (cfg : pyval) (key : string) (default : pyval) : pyval :=
  from_option id default (config_lookup (split_dots key) cfg).

(** The navigation of [ConfigManager.set] inside the dict [d] and the
    assignment at the last key: a key on the way that is absent or holds
    something else than a dict is given a fresh dict. *)
Fixpoint set_in (keys : list string) (value : pyval) (d : list (string * pyval))
  : list (string * pyval) :=
  match keys with
  | [] => d
  | [k] => dict_set k value d
  | k :: keys' =>
      let child := match dict_get k d with
                   | Some (PDict c) => c
                   | _ => []
                   end in
      dict_set k (PDict (set_in keys' value child)) d
  end.

(** [ConfigManager.set], on the configuration held in memory; the write of
    the YAML file that follows is not modelled.  A configuration that is
    not a dict is left as it is: the dict that the method then builds is
    bound to a local name only. *)
Definition config_set (cfg : pyval) (key : string) (value : pyval) : pyval :=
  match cfg with
  | PDict d => PDict (set_in (split_dots key) value d)
  | other => other
  end.

(** [ConfigManager._merge_configs(default, user)] for a dict [user], with
    the copy of [default] in [result]. *)
Fixpoint merge_into (result : list (string * pyval)) (user : pyval) {struct user}
  : list (string * pyval) :=
  match user with
  | PDict items =>
      (fix loop (items : list (string * pyval)) (result : list (string * pyval))
         {struct items} : list (string * pyval) :=
         match items with
         | [] => result
         | (key, value) :: rest =>
             loop rest
               (dict_set key
                  (match dict_get key result, value with
                   | Some (PDict rd), PDict _ => PDict (merge_into rd value)
                   | _, _ => value
                   end)
                  result)
         end) items result
  | _ => result
  end.

Definition _merge_configs (default user : list (string * pyval)) : list (string * pyval) :=
  merge_into default (PDict user).

(** The loop of [_merge_configs] over the items of the user's dict. *)
Definition merge_loop (items result : list (string * pyval)) : list (string * pyval) :=
  merge_into result (PDict items).

(** [ConfigManager._get_default_config], for a backup directory. *)
Definition _get_default_config (backup_directory : string) : list (string * pyval) :=
  [("api", PDict [("key", PStr EmptyString);
                  ("base_url", PStr "https://openrouter.ai/api/v1");
                  ("default_model", PStr "qwen/qwen3-coder:free")]);
   ("preferences", PDict [("backup_enabled", PBool true);
                          ("backup_directory", PStr backup_directory);
                          ("log_level", PStr "info");
                          ("max_history", PInt 100);
                          ("verbose", PBool false)]);
   ("models", PDict [("coding", PStr "qwen/qwen3-coder:free");
                     ("general", PStr "z-ai/glm-4.5-air:free");
                     ("reasoning", PStr "deepseek/deepseek-r1-0528:free");
                     ("experimental", PStr "openrouter/horizon-beta:free")])].

(** [ConfigManager.get_model], on the configuration held in memory. *)
Definition get_model (cfg : pyval) (model_type : string) : pyval :=
  if String.eqb model_type "default"
  then config_get cfg "api.default_model" (PStr "qwen/qwen3-coder:free")
  else config_get cfg ("models." +:+ model_type)
         (config_get cfg "api.default_model" (PStr "qwen/qwen3-coder:free")).

(** Two dotted keys part ways: after a common beginning they go on with
    different names. *)
Definition keys_diverge (keys1 keys2 : list string) : Prop :=
  exists common k1 k2 rest1 rest2,
    k1 <> k2 /\
    keys1 = (common ++ k1 :: rest1)%list /\
    keys2 = (common ++ k2 :: rest2)%list.

Definition is_dict (v : pyval) : bool :=
  match v with
  | PDict _ => true
  | _ => false
  end.

(** ** Records of the history *)

(** The two operations under which the agent ever records a mutation. *)
Definition recorded_operation (r : OpRecord) : Prop :=
  op_operation r = "modify" \/ op_operation r = "remove".

(** * Properties *)

(** ** Running the monad *)

Lemma bind_returned {St A B} (m : M St A) (k : A -> M St B) s s' a :
  m s = (s', Returned a) -> bind m k s = k a s'.
Proof. intros H. unfold bind. now rewrite H. Qed.

Lemma bind_raised {St A B} (m : M St A) (k : A -> M St B) s s' e :
  m s = (s', Raised e) -> bind m k s = (s', Raised e).
Proof. intros H. unfold bind. now rewrite H. Qed.

Lemma try_except_returned {St A} (m : M St A) h s s' a :
  m s = (s', Returned a) -> try_except m h s = (s', Returned a).
Proof. intros H. unfold try_except. now rewrite H. Qed.

Lemma try_except_raised {St A} (m : M St A) h s s' e :
  m s = (s', Raised e) -> try_except m h s = h e s'.
Proof. intros H. unfold try_except. now rewrite H. Qed.

(** ** Frame: what only touches the world *)

Lemma same_agent_refl s : same_agent s s.
Proof. now repeat split. Qed.

Lemma same_agent_trans s1 s2 s3 :
  same_agent s1 s2 -> same_agent s2 s3 -> same_agent s1 s3.
Proof.
  intros (H1 & H2 & H3) (K1 & K2 & K3).
  repeat split; congruence.
Qed.

Lemma world_only_ret {A} (a : A) : world_only (ret a).
Proof. intros s. apply same_agent_refl. Qed.

Lemma world_only_raise {A} e : world_only (@raise State A e).
Proof. intros s. apply same_agent_refl. Qed.

Lemma world_only_gets {A} (f : State -> A) : world_only (gets f).
Proof. intros s. apply same_agent_refl. Qed.

Lemma world_only_lift {A} (o : outcome A) : world_only (lift_outcome o).
Proof. intros s. apply same_agent_refl. Qed.

Lemma world_only_set_world f : world_only (modify (set_world f)).
Proof. intros s. now repeat split. Qed.

Lemma world_only_bind {A B} (m : M State A) (k : A -> M State B) :
  world_only m -> (forall a, world_only (k a)) -> world_only (bind m k).
Proof.
  intros Hm Hk s. unfold bind. specialize (Hm s).
  destruct (m s) as [s1 [a | e]]; simpl in *; [|assumption].
  eapply same_agent_trans; [eassumption | apply Hk].
Qed.

Lemma world_only_try {A} (m : M State A) h :
  world_only m -> (forall e, world_only (h e)) -> world_only (try_except m h).
Proof.
  intros Hm Hh s. unfold try_except. specialize (Hm s).
  destruct (m s) as [s1 [a | e]]; simpl in *; [assumption|].
  eapply same_agent_trans; [eassumption | apply Hh].
Qed.

Lemma world_only_try_only {A} cls (m : M State A) h :
  world_only m -> (forall e, world_only (h e)) -> world_only (try_except_only cls m h).
Proof.
  intros Hm Hh s. unfold try_except_only. specialize (Hm s).
  destruct (m s) as [s1 [a | e]]; simpl in *; [assumption|].
  destruct (existsb _ cls); simpl; [|assumption].
  eapply same_agent_trans; [eassumption | apply Hh].
Qed.

Lemma world_only_if {A} (b : bool) (m1 m2 : M State A) :
  world_only m1 -> world_only m2 -> world_only (if b then m1 else m2).
Proof. now destruct b. Qed.

Lemma world_only_guard c : world_only (syscall_guard c).
Proof.
  intros s. unfold syscall_guard.
  destruct (os_fault (world s) c); apply same_agent_refl.
Qed.

Lemma world_only_read_bytes p : world_only (read_bytes p).
Proof.
  intros s. unfold read_bytes.
  destruct (files (world s) !! p); apply same_agent_refl.
Qed.

Create HintDb frame.
#[local] Hint Resolve world_only_ret world_only_raise world_only_gets world_only_lift
  world_only_set_world world_only_guard world_only_read_bytes : frame.

Ltac frame :=
  repeat first
    [ progress intros
    | apply world_only_bind
    | apply world_only_try
    | apply world_only_try_only
    | apply world_only_if
    | solve [auto with frame] ].

Lemma world_only_path_exists p : world_only (path_exists p).
Proof. unfold path_exists. frame. Qed.

Lemma world_only_read_text p : world_only (read_text p).
Proof. unfold read_text. frame. Qed.

Lemma world_only_write_text p c : world_only (write_text p c).
Proof. unfold write_text. frame. Qed.

Lemma world_only_unlink p : world_only (unlink p).
Proof. unfold unlink. frame. Qed.

Lemma world_only_copy2 src dst : world_only (copy2 src dst).
Proof. unfold copy2. frame. Qed.

Lemma world_only_mkdir p : world_only (mkdir_parents p).
Proof. unfold mkdir_parents. frame. Qed.

#[local] Hint Resolve world_only_path_exists world_only_read_text world_only_write_text
  world_only_unlink world_only_copy2 world_only_mkdir : frame.

Lemma world_only_backup p : world_only (_backup_file p).
Proof. unfold _backup_file. frame. Qed.

Lemma world_only_restore p b c : world_only (restore_saved p b c).
Proof. unfold restore_saved. frame. Qed.

#[local] Hint Resolve world_only_backup world_only_restore : frame.

Lemma world_only_reverse r : world_only (reverse_op r).
Proof. unfold reverse_op. frame. Qed.

(** ** The operation history *)

Lemma add_to_history_run operation file_path backup_path original_content s :
  _add_to_history operation file_path backup_path original_content s =
  (set_history (fun h =>
     limit_history (max_history (config s))
       (h ++ [mkOp operation file_path backup_path original_content
                (now_iso (world s))])%list) s,
   Returned tt).
Proof. reflexivity. Qed.

Lemma py_slice_from_zero {A} (l : list A) : py_slice_from 0 l = l.
Proof. unfold py_slice_from. simpl. destruct (List.length l); reflexivity. Qed.

(** With a maximum of zero the trimming keeps everything: [h[-0:]] is
    [h[0:]]. *)
Lemma limit_history_zero h : limit_history 0 h = h.
Proof.
  unfold limit_history. destruct (0 <? Z.of_nat (List.length h))%Z; [|reflexivity].
  apply py_slice_from_zero.
Qed.

(** For a positive maximum the trimming keeps the last [max_hist] records,
    in their order. *)
Lemma limit_history_most_recent max_hist h :
  (1 <= max_hist)%Z ->
  limit_history max_hist h = drop (List.length h - Z.to_nat max_hist) h.
Proof.
  intros Hm. unfold limit_history.
  destruct (Z.ltb_spec max_hist (Z.of_nat (List.length h))) as [Hlt | Hge].
  - unfold py_slice_from.
    destruct (Z.ltb_spec (- max_hist) 0) as [_ | ?]; [|lia].
    f_equal. lia.
  - replace (List.length h - Z.to_nat max_hist)%nat with 0%nat by lia.
    reflexivity.
Qed.

Lemma limit_history_length max_hist h :
  (1 <= max_hist)%Z ->
  (Z.of_nat (List.length (limit_history max_hist h)) <= max_hist)%Z.
Proof.
  intros Hm. rewrite limit_history_most_recent by assumption.
  rewrite length_drop. lia.
Qed.

Lemma appends_world_only {A} (m : M State A) : world_only m -> appends_at_most_one m.
Proof. intros H s. destruct (H s) as (? & ? & ?). auto. Qed.

Lemma appends_bind_l {A B} (m : M State A) (k : A -> M State B) :
  world_only m -> (forall a, appends_at_most_one (k a)) -> appends_at_most_one (bind m k).
Proof.
  intros Hm Hk s. unfold bind. specialize (Hm s).
  destruct (m s) as [s1 [a | e]]; simpl in *.
  - destruct Hm as (Hc & Hb & Hh). specialize (Hk a s1). simpl in Hk.
    rewrite Hc, Hb, Hh in Hk. exact Hk.
  - destruct Hm as (? & ? & ?). auto.
Qed.

Lemma appends_bind_r {A B} (m : M State A) (k : A -> M State B) :
  appends_at_most_one m -> (forall a, world_only (k a)) -> appends_at_most_one (bind m k).
Proof.
  intros Hm Hk s. unfold bind. specialize (Hm s).
  destruct (m s) as [s1 [a | e]]; simpl in *; [|exact Hm].
  destruct (Hk a s1) as (Hc & Hb & Hh). rewrite Hc, Hb, Hh. exact Hm.
Qed.

Lemma appends_try {A} (m : M State A) h :
  appends_at_most_one m -> (forall e, world_only (h e)) ->
  appends_at_most_one (try_except m h).
Proof.
  intros Hm Hh s. unfold try_except. specialize (Hm s).
  destruct (m s) as [s1 [a | e]]; simpl in *; [exact Hm|].
  destruct (Hh e s1) as (Hc & Hb & Hx). rewrite Hc, Hb, Hx. exact Hm.
Qed.

Lemma appends_if {A} (b : bool) (m1 m2 : M State A) :
  appends_at_most_one m1 -> appends_at_most_one m2 ->
  appends_at_most_one (if b then m1 else m2).
Proof. now destruct b. Qed.

Lemma appends_add_to_history operation file_path backup_path original_content :
  appends_at_most_one (_add_to_history operation file_path backup_path original_content).
Proof.
  intros s. rewrite add_to_history_run. simpl. repeat split. right. eauto.
Qed.

Ltac appends :=
  repeat first
    [ progress intros
    | apply appends_try
    | apply appends_add_to_history
    | apply appends_bind_l; [solve [frame] |]
    | apply appends_bind_r; [| solve [frame]]
    | apply appends_if
    | solve [apply appends_world_only; frame]
    | solve [frame] ].

Lemma write_file_appends path content b : appends_at_most_one (write_file path content b).
Proof. unfold write_file. appends. Qed.

Lemma remove_file_appends path b : appends_at_most_one (remove_file path b).
Proof. unfold remove_file. appends. Qed.

Lemma list_pop_app {A} (l : list A) front x :
  list_pop l = Some (front, x) <-> l = (front ++ [x])%list.
Proof.
  revert front. induction l as [| y l IH]; intros front; simpl.
  - split; [discriminate | intros H; now destruct front].
  - destruct (list_pop l) as [[f z] |] eqn:E.
    + split.
      * intros [= <- <-]. simpl. f_equal. now apply IH.
      * intros H. destruct front as [| y' front']; simpl in H.
        -- injection H as -> ->. discriminate.
        -- injection H as -> H. apply IH in H. now injection H as -> ->.
    + assert (l = []) as -> by (destruct l as [| ? l']; [reflexivity|];
        simpl in E; destruct (list_pop l') as [[? ?]|]; discriminate).
      split.
      * now intros [= <- <-].
      * intros H. destruct front as [| y' front']; simpl in H.
        -- now injection H as ->.
        -- injection H as -> H. now destruct front'.
Qed.

Lemma list_pop_snoc {A} (front : list A) x : list_pop (front ++ [x]) = Some (front, x).
Proof. now apply list_pop_app. Qed.

Lemma list_pop_None {A} (l : list A) : list_pop l = None <-> l = [].
Proof.
  destruct l as [| y l]; simpl; [easy|].
  destruct (list_pop l) as [[? ?]|]; easy.
Qed.

Lemma undo_run_empty s :
  list_pop (operation_history s) = None ->
  undo_last_operation s =
  (s, Raised (Exn FileOperationError "Error undoing operation: No operations to undo")).
Proof.
  intros E. unfold undo_last_operation, try_except, bind, gets. now rewrite E.
Qed.

Lemma undo_run_pop s front last_op :
  list_pop (operation_history s) = Some (front, last_op) ->
  undo_last_operation s =
  match reverse_op last_op (set_history (fun _ => front) s) with
  | (s1, Returned _) => (s1, Returned (undo_payload last_op))
  | (s1, Raised e) =>
      (s1, Raised (Exn FileOperationError ("Error undoing operation: " +:+ exn_msg e)))
  end.
Proof.
  intros E. unfold undo_last_operation, try_except, bind, gets, modify. rewrite E.
  now destruct (reverse_op last_op (set_history (fun _ => front) s)) as [s1 [[] | e]].
Qed.

(** What [undo_last_operation] does to the history: nothing when it is
    empty, otherwise the last record is gone, whether or not the reversal
    went through. *)
Lemma undo_history s :
  config (fst (undo_last_operation s)) = config s /\
  backup_dir (fst (undo_last_operation s)) = backup_dir s /\
  match list_pop (operation_history s) with
  | None => operation_history (fst (undo_last_operation s)) = operation_history s
  | Some (front, _) => operation_history (fst (undo_last_operation s)) = front
  end.
Proof.
  destruct (list_pop (operation_history s)) as [[front r] |] eqn:E.
  - rewrite (undo_run_pop _ _ _ E).
    pose proof (world_only_reverse r (set_history (fun _ => front) s)) as (Hc & Hb & Hh).
    destruct (reverse_op r (set_history (fun _ => front) s)) as [s1 [[] | e]]; simpl in *;
      auto.
  - rewrite (undo_run_empty _ E). auto.
Qed.

Lemma run_mutation_config m s : config (fst (run_mutation m s)) = config s.
Proof.
  destruct m; simpl.
  - apply write_file_appends.
  - apply remove_file_appends.
  - apply undo_history.
  - reflexivity.
Qed.

Lemma run_mutation_bounded m s :
  (1 <= max_history (config s))%Z ->
  history_bounded s -> history_bounded (fst (run_mutation m s)).
Proof.
  intros Hm Hb. unfold history_bounded. rewrite run_mutation_config.
  unfold history_bounded in Hb.
  assert (forall A (c : M State A), appends_at_most_one c ->
    (Z.of_nat (List.length (operation_history (fst (c s)))) <= max_history (config s))%Z) as Happ.
  { intros A c Hc. destruct (Hc s) as (_ & _ & [-> | [r ->]]); [assumption|].
    now apply limit_history_length. }
  destruct m; simpl.
  - apply Happ, write_file_appends.
  - apply Happ, remove_file_appends.
  - pose proof (undo_history s) as (_ & _ & Hh).
    destruct (list_pop (operation_history s)) as [[front r] |] eqn:E.
    + rewrite Hh. apply list_pop_app in E. rewrite E, length_app in Hb. simpl in Hb. lia.
    + now rewrite Hh.
  - lia.
Qed.

(** X20.  For a positive [max_history], the history never grows beyond
    it, whatever sequence of writes, removals, undos and resets is issued. *)
Lemma run_mutations_bounded ms s :
  (1 <= max_history (config s))%Z ->
  history_bounded s -> history_bounded (run_mutations ms s).
Proof.
  revert s. induction ms as [| m ms IH]; intros s Hm Hb; simpl; [assumption|].
  apply IH.
  - now rewrite run_mutation_config.
  - now apply run_mutation_bounded.
Qed.

(** Five writes to distinct paths under a maximum of three: the history
    holds the last three, in the order they were made. *)
Example history_of_five_writes :
  map op_file_path
    (operation_history
       (run_mutations
          [MWrite "f1" "1" None; MWrite "f2" "2" None; MWrite "f3" "3" None;
           MWrite "f4" "4" None; MWrite "f5" "5" None]
          (state_with ∅ (mkConfig true 3))))
  = ["f3"; "f4"; "f5"].
Proof. vm_compute. reflexivity. Qed.

(** C6 (the code at the input where it departs from the claim): with
    [max_history] set to [0] the history is never trimmed, since
    [history[-0:]] is the whole list.  After a single write to an empty
    tree the history holds one record, which exceeds the configured
    maximum of zero; after three writes it holds three. *)
Theorem history_exceeds_zero_maximum :
  let s1 := run_mutations [MWrite "a.txt" "hello" None] (state_with ∅ (mkConfig true 0)) in
  let s3 := run_mutations [MWrite "a.txt" "1" None; MWrite "b.txt" "2" None;
                           MWrite "c.txt" "3" None] (state_with ∅ (mkConfig true 0)) in
  max_history (config s1) = 0%Z /\
  List.length (operation_history s1) = 1%nat /\
  List.length (operation_history s3) = 3%nat /\
  ~ history_bounded s1.
Proof.
  vm_compute. repeat split; try reflexivity. intros H. now apply H.
Qed.

(** ** Inverting a run that returned *)

Lemma bind_inv_returned {St A B} (m : M St A) (k : A -> M St B) s s' b :
  bind m k s = (s', Returned b) ->
  exists s1 a, m s = (s1, Returned a) /\ k a s1 = (s', Returned b).
Proof.
  unfold bind. destruct (m s) as [s1 [a | e]]; intros H; [eauto | discriminate].
Qed.

Lemma try_except_reraise_inv {St A} (m : M St A) (f : exn -> exn) s s' a :
  try_except m (fun e => raise (f e)) s = (s', Returned a) -> m s = (s', Returned a).
Proof.
  unfold try_except, raise. destruct (m s) as [s1 [a1 | e]]; intros H;
    [assumption | discriminate].
Qed.

Lemma gets_inv {St A} (f : St -> A) s s' a :
  gets f s = (s', Returned a) -> s' = s /\ a = f s.
Proof. unfold gets. now intros [= <- <-]. Qed.

Lemma ret_inv {St A} (x : A) (s s' : St) a :
  ret x s = (s', Returned a) -> s' = s /\ a = x.
Proof. unfold ret. now intros [= <- <-]. Qed.

Lemma guard_inv c s s' u :
  syscall_guard c s = (s', Returned u) -> s' = s /\ os_fault (world s) c = None.
Proof.
  unfold syscall_guard. destruct (os_fault (world s) c); [discriminate|].
  now intros [= <- <-].
Qed.

Lemma write_text_inv p content s s' u :
  write_text p content s = (s', Returned u) ->
  s' = set_world (set_files (insert p content)) s /\
  os_fault (world s) (SysWriteText p) = None.
Proof.
  unfold write_text. intros H.
  apply bind_inv_returned in H as (s1 & [] & Hg & H).
  apply guard_inv in Hg as [-> Hf]. unfold modify in H.
  now injection H as <- _.
Qed.

Lemma path_exists_run p s :
  path_exists p s = (s, Returned (bool_decide (is_Some (files (world s) !! p)))).
Proof. reflexivity. Qed.

Lemma exists_after_write p content s :
  bool_decide (is_Some (files (world (set_world (set_files (insert p content)) s)) !! p))
  = true.
Proof.
  apply bool_decide_eq_true. simpl. rewrite lookup_insert_eq. eauto.
Qed.

(** The record that a successful [write_file] appends and the payload it
    returns: the operation is computed after the file has been written,
    when the path exists in every case. *)
Lemma write_file_returned path content b s s' r :
  write_file path content b s = (s', Returned r) ->
  exists (backup_path original_content : option string) s4,
    r = PDict [("success", PBool true);
               ("file_path", PStr path);
               ("operation", PStr "modify");
               ("backup_path", opt_str backup_path);
               ("bytes_written", PInt (Z.of_nat (String.length content)))] /\
    files (world s4) !! path = Some content /\
    same_agent s s4 /\
    s' = set_history (fun h =>
           limit_history (max_history (config s4))
             (h ++ [mkOp "modify" path (or_empty backup_path)
                      (or_empty original_content) (now_iso (world s4))])%list) s4.
Proof.
  unfold write_file. intros H. apply try_except_reraise_inv in H.
  apply bind_inv_returned in H as (s0 & cfg & H0 & H). apply gets_inv in H0 as [-> ->].
  apply bind_inv_returned in H as (s1 & ex & H1 & H). rewrite path_exists_run in H1.
  injection H1 as <- <-.
  apply bind_inv_returned in H as (s2 & saved & H2 & H).
  apply bind_inv_returned in H as (s3 & [] & H3 & H).
  apply bind_inv_returned in H as (s4 & [] & H4 & H).
  apply bind_inv_returned in H as (s5 & ex' & H5 & H).
  rewrite path_exists_run in H5. injection H5 as <- <-.
  apply write_text_inv in H4 as [-> Hw].
  rewrite exists_after_write in H.
  apply bind_inv_returned in H as (s6 & [] & H6 & H).
  rewrite add_to_history_run in H6. injection H6 as <-.
  apply ret_inv in H as [-> ->].
  assert (same_agent s s3) as Hagent.
  { assert (world_only (if bool_decide (is_Some (files (world s) !! path)) &&
                           default (backup_enabled (config s)) b
                        then bp <- _backup_file path ;; oc <- read_text path ;;
                             ret (Some bp, Some oc)
                        else ret (None, None))) as Hwo by frame.
    specialize (Hwo s). rewrite H2 in Hwo.
    pose proof (world_only_mkdir path s2) as Hm. rewrite H3 in Hm.
    eapply same_agent_trans; eassumption. }
  exists (fst saved), (snd saved), (set_world (set_files (insert path content)) s3).
  split; [reflexivity|]. split; [apply lookup_insert_eq|]. split; [exact Hagent|].
  reflexivity.
Qed.

(** C2 (the code where it departs from the claim).  Whatever the state,
    the path, the content and the backup flag, a [write_file] that
    succeeds reports the operation [modify] in its payload and appends a
    record whose operation is [modify]: the classification is made after
    the file has been written, when [path.exists()] is true, so a write to
    a path that did not exist is never recorded as [create]. *)
Theorem write_file_operation_is_always_modify path content b s s' r :
  write_file path content b s = (s', Returned r) ->
  pyval_get "operation" r = Some (PStr "modify") /\
  exists rec,
    operation_history s' =
      limit_history (max_history (config s)) (operation_history s ++ [rec]) /\
    op_operation rec = "modify" /\ op_file_path rec = path.
Proof.
  intros H. apply write_file_returned in H as (bp & oc & s4 & -> & _ & (Hc & _ & Hh) & ->).
  split; [reflexivity|].
  eexists. simpl. rewrite Hc, Hh. split; [reflexivity|]. split; reflexivity.
Qed.

Lemma write_file_operation_is_always_modify_witness :
  files (world state0) !! "a.txt" = None /\
  exists s' r,
    write_file "a.txt" "hello" None state0 = (s', Returned r) /\
    pyval_get "operation" r = Some (PStr "modify") /\
    map op_operation (operation_history s') = ["modify"].
Proof.
  split; [reflexivity|].
  eexists _, _. split; [vm_compute; reflexivity|].
  split.
  - eapply (write_file_operation_is_always_modify "a.txt" "hello" None state0).
    vm_compute. reflexivity.
  - reflexivity.
Defined.

(** ** Running the primitives forward *)

Lemma guard_ok c s : os_fault (world s) c = None -> syscall_guard c s = (s, Returned tt).
Proof. intros H. unfold syscall_guard. now rewrite H. Qed.

Lemma guard_fault c s e : os_fault (world s) c = Some e -> syscall_guard c s = (s, Raised e).
Proof. intros H. unfold syscall_guard. now rewrite H. Qed.

Lemma read_bytes_ok p s b : files (world s) !! p = Some b -> read_bytes p s = (s, Returned b).
Proof. intros H. unfold read_bytes. now rewrite H. Qed.

Lemma exists_true p s b :
  files (world s) !! p = Some b -> bool_decide (is_Some (files (world s) !! p)) = true.
Proof. intros H. apply bool_decide_eq_true. eauto. Qed.

Lemma exists_false p s :
  files (world s) !! p = None -> bool_decide (is_Some (files (world s) !! p)) = false.
Proof. intros H. apply bool_decide_eq_false. rewrite H. now intros [? ?]. Qed.

Lemma write_text_ok p content s :
  os_fault (world s) (SysWriteText p) = None ->
  write_text p content s = (set_world (set_files (insert p content)) s, Returned tt).
Proof. intros H. unfold write_text. now rewrite (bind_returned _ _ _ _ _ (guard_ok _ _ H)). Qed.

Lemma write_text_fault p content s e :
  os_fault (world s) (SysWriteText p) = Some e ->
  write_text p content s = (s, Raised e).
Proof. intros H. unfold write_text. now rewrite (bind_raised _ _ _ _ _ (guard_fault _ _ _ H)). Qed.

Lemma mkdir_ok p s :
  os_fault (world s) (SysMkdirParents p) = None -> mkdir_parents p s = (s, Returned tt).
Proof. apply guard_ok. Qed.

Lemma read_text_ok p s b :
  os_fault (world s) (SysReadText p) = None ->
  files (world s) !! p = Some b -> utf8_valid b = true ->
  read_text p s = (s, Returned (universal_newlines b)).
Proof.
  intros Hf Hb Hv. unfold read_text.
  rewrite (bind_returned _ _ _ _ _ (guard_ok _ _ Hf)).
  rewrite (bind_returned _ _ _ _ _ (read_bytes_ok _ _ _ Hb)).
  now rewrite Hv.
Qed.

Lemma unlink_ok p s b :
  os_fault (world s) (SysUnlink p) = None ->
  files (world s) !! p = Some b ->
  unlink p s = (set_world (set_files (delete p)) s, Returned tt).
Proof.
  intros Hf Hb. unfold unlink.
  rewrite (bind_returned _ _ _ _ _ (guard_ok _ _ Hf)).
  now rewrite (bind_returned _ _ _ _ _ (read_bytes_ok _ _ _ Hb)).
Qed.

Lemma copy2_ok src dst s b :
  os_fault (world s) (SysCopy src dst) = None ->
  files (world s) !! src = Some b -> src <> dst ->
  copy2 src dst s = (set_world (set_files (insert dst b)) s, Returned tt).
Proof.
  intros Hf Hb Hne. unfold copy2.
  rewrite (bind_returned _ _ _ _ _ (guard_ok _ _ Hf)).
  rewrite (bind_returned _ _ _ _ _ (read_bytes_ok _ _ _ Hb)).
  destruct (String.eqb_spec src dst); [contradiction | reflexivity].
Qed.

Lemma copy2_fault src dst s e :
  os_fault (world s) (SysCopy src dst) = Some e -> copy2 src dst s = (s, Raised e).
Proof. intros H. unfold copy2. now rewrite (bind_raised _ _ _ _ _ (guard_fault _ _ _ H)). Qed.

Lemma backup_file_missing p s :
  files (world s) !! p = None -> _backup_file p s = (s, Returned EmptyString).
Proof.
  intros H. unfold _backup_file. rewrite (bind_returned _ _ _ _ _ (path_exists_run _ _)).
  now rewrite (exists_false _ _ H).
Qed.

Lemma backup_file_run p s b :
  files (world s) !! p = Some b ->
  _backup_file p s =
  match copy2 p (backup_path_of s p) s with
  | (s1, Returned _) => (s1, Returned (backup_path_of s p))
  | (s1, Raised _) => (s1, Returned EmptyString)
  end.
Proof.
  intros H. unfold _backup_file. rewrite (bind_returned _ _ _ _ _ (path_exists_run _ _)).
  rewrite (exists_true _ _ _ H). simpl. unfold bind at 1, gets. unfold bind at 1.
  unfold try_except, bind, ret, backup_path_of.
  now destruct (copy2 _ _ s) as [s1 [[] | e]].
Qed.

Lemma backup_file_copy_fails p s b e :
  files (world s) !! p = Some b ->
  os_fault (world s) (SysCopy p (backup_path_of s p)) = Some e ->
  _backup_file p s = (s, Returned EmptyString).
Proof.
  intros Hb Hf. rewrite (backup_file_run _ _ _ Hb). now rewrite (copy2_fault _ _ _ _ Hf).
Qed.

Lemma backup_file_ok p s b :
  files (world s) !! p = Some b ->
  os_fault (world s) (SysCopy p (backup_path_of s p)) = None ->
  p <> backup_path_of s p ->
  _backup_file p s =
  (set_world (set_files (insert (backup_path_of s p) b)) s, Returned (backup_path_of s p)).
Proof.
  intros Hb Hf Hne. rewrite (backup_file_run _ _ _ Hb).
  now rewrite (copy2_ok _ _ _ _ Hf Hb Hne).
Qed.

(** Trimming never loses the record that was just appended, as long as the
    maximum is not negative. *)
Lemma limit_history_snoc max_hist h x :
  (0 <= max_hist)%Z ->
  exists front, limit_history max_hist (h ++ [x]) = (front ++ [x])%list.
Proof.
  intros Hm. destruct (decide (max_hist = 0%Z)) as [-> | Hnz].
  - exists h. apply limit_history_zero.
  - rewrite limit_history_most_recent by lia.
    exists (drop (List.length (h ++ [x]) - Z.to_nat max_hist) h).
    apply drop_app_le. rewrite length_app. simpl. lia.
Qed.

(** A write to a path that holds no file. *)
Lemma write_file_fresh path content b s :
  files (world s) !! path = None ->
  os_fault (world s) (SysMkdirParents path) = None ->
  os_fault (world s) (SysWriteText path) = None ->
  write_file path content b s =
  (set_history (fun h =>
     limit_history (max_history (config s))
       (h ++ [mkOp "modify" path EmptyString EmptyString (now_iso (world s))])%list)
     (set_world (set_files (insert path content)) s),
   Returned (write_payload path content None)).
Proof.
  intros Hnone Hmk Hwr. unfold write_file. apply try_except_returned.
  unfold bind at 1, gets. rewrite (bind_returned _ _ _ _ _ (path_exists_run _ _)).
  rewrite (exists_false _ _ Hnone). simpl. unfold bind at 1, ret.
  rewrite (bind_returned _ _ _ _ _ (mkdir_ok _ _ Hmk)).
  rewrite (bind_returned _ _ _ _ _ (write_text_ok _ _ _ Hwr)).
  rewrite (bind_returned _ _ _ _ _ (path_exists_run _ _)).
  rewrite exists_after_write.
  rewrite (bind_returned _ _ _ _ _ (add_to_history_run _ _ _ _ _)).
  reflexivity.
Qed.

Lemma reverse_nothing_saved path ts s :
  reverse_op (mkOp "modify" path EmptyString EmptyString ts) s = (s, Returned tt).
Proof. reflexivity. Qed.

(** C1 (the code where it departs from the claim).  A write to a path
    that holds no file, followed by an undo, does not bring the path back
    to its state before the write: the write is recorded as [modify] with
    nothing saved, so the undo succeeds without touching the file, and the
    path still holds the written content. *)
Theorem write_to_new_path_then_undo_keeps_file path content b s :
  files (world s) !! path = None ->
  os_fault (world s) (SysMkdirParents path) = None ->
  os_fault (world s) (SysWriteText path) = None ->
  (0 <= max_history (config s))%Z ->
  exists s1 r1 s2 r2,
    write_file path content b s = (s1, Returned r1) /\
    undo_last_operation s1 = (s2, Returned r2) /\
    pyval_get "undone_operation" r2 = Some (PStr "modify") /\
    files (world s2) !! path = Some content.
Proof.
  intros Hnone Hmk Hwr Hm.
  destruct (limit_history_snoc (max_history (config s)) (operation_history s)
              (mkOp "modify" path EmptyString EmptyString (now_iso (world s))) Hm)
    as [front Hfront].
  eexists _, _, _, _. split; [apply (write_file_fresh _ _ _ _ Hnone Hmk Hwr)|].
  split.
  - erewrite undo_run_pop.
    + rewrite reverse_nothing_saved. reflexivity.
    + simpl. rewrite Hfront. apply list_pop_snoc.
  - split; [reflexivity|]. simpl. apply lookup_insert_eq.
Qed.

Lemma write_to_new_path_then_undo_keeps_file_witness :
  files (world state0) !! "a.txt" = None /\
  exists s1 r1 s2 r2,
    write_file "a.txt" "hello" None state0 = (s1, Returned r1) /\
    undo_last_operation s1 = (s2, Returned r2) /\
    pyval_get "undone_operation" r2 = Some (PStr "modify") /\
    files (world s2) !! "a.txt" = Some "hello".
Proof.
  split; [reflexivity|].
  apply (write_to_new_path_then_undo_keeps_file "a.txt" "hello" None state0);
    [reflexivity | reflexivity | reflexivity | vm_compute; discriminate].
Defined.

(** A write over a file, backups on: the run after [_backup_file] has
    returned [bp] in state [s1]. *)
Lemma write_file_existing path content b s bytes s1 bp :
  files (world s) !! path = Some bytes ->
  default (backup_enabled (config s)) b = true ->
  _backup_file path s = (s1, Returned bp) ->
  files (world s1) !! path = Some bytes ->
  utf8_valid bytes = true ->
  os_fault (world s1) (SysReadText path) = None ->
  os_fault (world s1) (SysMkdirParents path) = None ->
  os_fault (world s1) (SysWriteText path) = None ->
  write_file path content b s =
  (set_history (fun h =>
     limit_history (max_history (config s1))
       (h ++ [mkOp "modify" path bp (universal_newlines bytes) (now_iso (world s1))])%list)
     (set_world (set_files (insert path content)) s1),
   Returned (write_payload path content (Some bp))).
Proof.
  intros Hb Hen Hbk Hb1 Hv Hrd Hmk Hwr. unfold write_file. apply try_except_returned.
  unfold bind at 1, gets. rewrite (bind_returned _ _ _ _ _ (path_exists_run _ _)).
  rewrite (exists_true _ _ _ Hb), Hen. simpl.
  erewrite bind_returned; cycle 1.
  { rewrite (bind_returned _ _ _ _ _ Hbk).
    rewrite (bind_returned _ _ _ _ _ (read_text_ok _ _ _ Hrd Hb1 Hv)). reflexivity. }
  simpl.
  rewrite (bind_returned _ _ _ _ _ (mkdir_ok _ _ Hmk)).
  rewrite (bind_returned _ _ _ _ _ (write_text_ok _ _ _ Hwr)).
  rewrite (bind_returned _ _ _ _ _ (path_exists_run _ _)).
  rewrite exists_after_write.
  rewrite (bind_returned _ _ _ _ _ (add_to_history_run _ _ _ _ _)).
  reflexivity.
Qed.

(** A removal, backups on: the run after [_backup_file] has returned [bp]
    in state [s1]. *)
Lemma remove_file_existing path b s bytes s1 bp :
  files (world s) !! path = Some bytes ->
  default (backup_enabled (config s)) b = true ->
  _backup_file path s = (s1, Returned bp) ->
  files (world s1) !! path = Some bytes ->
  utf8_valid bytes = true ->
  os_fault (world s1) (SysReadText path) = None ->
  os_fault (world s1) (SysUnlink path) = None ->
  remove_file path b s =
  (set_history (fun h =>
     limit_history (max_history (config s1))
       (h ++ [mkOp "remove" path bp (universal_newlines bytes) (now_iso (world s1))])%list)
     (set_world (set_files (delete path)) s1),
   Returned (remove_payload path (Some bp))).
Proof.
  intros Hb Hen Hbk Hb1 Hv Hrd Hul. unfold remove_file. apply try_except_returned.
  rewrite (bind_returned _ _ _ _ _ (path_exists_run _ _)).
  rewrite (exists_true _ _ _ Hb). simpl.
  unfold bind at 1, gets. rewrite Hen.
  erewrite bind_returned; cycle 1.
  { rewrite (bind_returned _ _ _ _ _ Hbk).
    rewrite (bind_returned _ _ _ _ _ (read_text_ok _ _ _ Hrd Hb1 Hv)). reflexivity. }
  simpl.
  rewrite (bind_returned _ _ _ _ _ (unlink_ok _ _ _ Hul Hb1)).
  rewrite (bind_returned _ _ _ _ _ (add_to_history_run _ _ _ _ _)).
  reflexivity.
Qed.

(** C4.  A backup that cannot be made never blocks the mutation.
    [_backup_file] returns the empty reference, without raising, when the
    source does not exist and when the copy fails.  With backups on and
    the copy failing, [write_file] still writes the new content and
    [remove_file] still removes the file; both succeed, report the empty
    reference, and append a record whose backup reference is empty and
    whose [original_content] is the text the file held. *)
Theorem backup_failure_never_blocks_mutation path content b s bytes e :
  files (world s) !! path = Some bytes ->
  utf8_valid bytes = true ->
  default (backup_enabled (config s)) b = true ->
  os_fault (world s) (SysCopy path (backup_path_of s path)) = Some e ->
  os_fault (world s) (SysReadText path) = None ->
  os_fault (world s) (SysMkdirParents path) = None ->
  os_fault (world s) (SysWriteText path) = None ->
  os_fault (world s) (SysUnlink path) = None ->
  (forall q, files (world s) !! q = None -> _backup_file q s = (s, Returned EmptyString)) /\
  _backup_file path s = (s, Returned EmptyString) /\
  (exists s',
     write_file path content b s = (s', Returned (write_payload path content (Some EmptyString))) /\
     files (world s') !! path = Some content /\
     operation_history s' =
       limit_history (max_history (config s))
         (operation_history s ++
            [mkOp "modify" path EmptyString (universal_newlines bytes) (now_iso (world s))])) /\
  (exists s',
     remove_file path b s = (s', Returned (remove_payload path (Some EmptyString))) /\
     files (world s') !! path = None /\
     operation_history s' =
       limit_history (max_history (config s))
         (operation_history s ++
            [mkOp "remove" path EmptyString (universal_newlines bytes) (now_iso (world s))])).
Proof.
  intros Hb Hv Hen Hcp Hrd Hmk Hwr Hul.
  pose proof (backup_file_copy_fails _ _ _ _ Hb Hcp) as Hbk.
  split; [intros q Hq; now apply backup_file_missing|].
  split; [exact Hbk|]. split.
  - eexists. split; [apply (write_file_existing _ _ _ _ _ _ _ Hb Hen Hbk Hb Hv Hrd Hmk Hwr)|].
    split; [apply lookup_insert_eq | reflexivity].
  - eexists. split; [apply (remove_file_existing _ _ _ _ _ _ Hb Hen Hbk Hb Hv Hrd Hul)|].
    split; [apply lookup_delete_eq | reflexivity].
Qed.

Lemma backup_failure_never_blocks_mutation_witness :
  let s := state_denying {[ "a.txt" := "v1" ]}
             [SysCopy "a.txt" "/backups/a.txt.backup_20240101_120000"] in
  _backup_file "a.txt" s = (s, Returned EmptyString) /\
  (exists s', write_file "a.txt" "v2" None s =
                (s', Returned (write_payload "a.txt" "v2" (Some EmptyString))) /\
              files (world s') !! "a.txt" = Some "v2" /\
              map op_original_content (operation_history s') = ["v1"]) /\
  (exists s', remove_file "a.txt" None s =
                (s', Returned (remove_payload "a.txt" (Some EmptyString))) /\
              files (world s') !! "a.txt" = None /\
              map op_original_content (operation_history s') = ["v1"]).
Proof.
  intros s.
  destruct (backup_failure_never_blocks_mutation "a.txt" "v2" None s "v1"
              (Exn PermissionError "[Errno 13] Permission denied"))
    as (_ & Hbk & (s1 & Hw & Hf1 & Hh1) & (s2 & Hr & Hf2 & Hh2));
    try reflexivity.
  split; [exact Hbk|]. split.
  - exists s1. split; [exact Hw|]. split; [exact Hf1|]. rewrite Hh1. reflexivity.
  - exists s2. split; [exact Hr|]. split; [exact Hf2|]. rewrite Hh2. reflexivity.
Defined.

(** ** The record appended for a file that existed *)

Lemma read_text_inv p s s' t :
  read_text p s = (s', Returned t) ->
  s' = s /\ exists b, files (world s) !! p = Some b /\ utf8_valid b = true
                      /\ t = universal_newlines b.
Proof.
  unfold read_text. intros H.
  apply bind_inv_returned in H as (s1 & [] & Hg & H). apply guard_inv in Hg as [-> _].
  apply bind_inv_returned in H as (s2 & b & Hb & H).
  unfold read_bytes in Hb. destruct (files (world s) !! p) as [b' |] eqn:E; [|discriminate].
  injection Hb as <- <-.
  destruct (utf8_valid b') eqn:Hv; [|discriminate].
  apply ret_inv in H as [-> ->]. eauto.
Qed.

Lemma copy2_inv src dst s s' u :
  copy2 src dst s = (s', Returned u) ->
  src <> dst /\ exists b, files (world s) !! src = Some b /\
                          s' = set_world (set_files (insert dst b)) s.
Proof.
  unfold copy2. intros H.
  apply bind_inv_returned in H as (s1 & [] & Hg & H). apply guard_inv in Hg as [-> _].
  apply bind_inv_returned in H as (s2 & b & Hb & H).
  unfold read_bytes in Hb. destruct (files (world s) !! src) as [b' |] eqn:E; [|discriminate].
  injection Hb as <- <-.
  destruct (String.eqb_spec src dst) as [-> | Hne]; [discriminate|].
  unfold modify in H. injection H as <-. eauto.
Qed.

Lemma copy2_raised_state src dst s s' e :
  copy2 src dst s = (s', Raised e) -> s' = s.
Proof.
  unfold copy2. intros H.
  destruct (os_fault (world s) (SysCopy src dst)) as [e' |] eqn:Hf.
  - rewrite (bind_raised _ _ _ _ _ (guard_fault _ _ _ Hf)) in H. now injection H.
  - rewrite (bind_returned _ _ _ _ _ (guard_ok _ _ Hf)) in H.
    destruct (files (world s) !! src) as [b |] eqn:E.
    + rewrite (bind_returned _ _ _ _ _ (read_bytes_ok _ _ _ E)) in H.
      destruct (String.eqb src dst); [now injection H | discriminate].
    + unfold bind, read_bytes in H. rewrite E in H. now injection H.
Qed.

(** [_backup_file] never raises.  It returns the empty reference and
    leaves the state alone, or it returns the name of a snapshot that now
    holds the bytes of the file. *)
Lemma backup_file_cases p s :
  _backup_file p s = (s, Returned EmptyString) \/
  exists b, files (world s) !! p = Some b /\ p <> backup_path_of s p /\
            _backup_file p s =
            (set_world (set_files (insert (backup_path_of s p) b)) s,
             Returned (backup_path_of s p)).
Proof.
  destruct (files (world s) !! p) as [b |] eqn:E.
  - rewrite (backup_file_run _ _ _ E).
    destruct (copy2 p (backup_path_of s p) s) as [s1 [[] | e]] eqn:Hc.
    + apply copy2_inv in Hc as (Hne & b' & Hb' & ->). right.
      rewrite E in Hb'. injection Hb' as <-. eauto.
    + left. apply copy2_raised_state in Hc. now subst.
  - left. now apply backup_file_missing.
Qed.

Lemma save_prior_inv do_backup path s s2 saved bytes :
  files (world s) !! path = Some bytes ->
  save_prior do_backup path s = (s2, Returned saved) ->
  os_fault (world s2) = os_fault (world s) /\
  now_iso (world s2) = now_iso (world s) /\
  same_agent s s2 /\
  files (world s2) !! path = Some bytes /\
  (do_backup = true -> or_empty (snd saved) = universal_newlines bytes) /\
  (do_backup = true ->
     or_empty (fst saved) = EmptyString \/
     (or_empty (fst saved) <> path /\
      files (world s2) !! or_empty (fst saved) = Some bytes)) /\
  (do_backup = false -> saved = (None, None)).
Proof.
  intros Hb H. unfold save_prior in H. destruct do_backup.
  - apply bind_inv_returned in H as (s1 & bp & Hbk & H).
    apply bind_inv_returned in H as (s1' & oc & Hrd & H).
    apply read_text_inv in Hrd as (-> & b' & Hb' & Hv & ->).
    apply ret_inv in H as [-> ->]. simpl.
    destruct (backup_file_cases path s) as [Hc | (b & Hb2 & Hne & Hc)];
      rewrite Hc in Hbk; injection Hbk as <- <-.
    + rewrite Hb in Hb'. injection Hb' as <-.
      repeat split; auto. discriminate.
    + rewrite Hb in Hb2. injection Hb2 as <-.
      simpl in Hb'. rewrite lookup_insert_ne in Hb' by congruence.
      rewrite Hb in Hb'. injection Hb' as <-.
      repeat split; auto.
      * simpl. rewrite lookup_insert_ne by congruence. exact Hb.
      * intros _. right. split; [congruence|]. simpl. apply lookup_insert_eq.
      * discriminate.
  - apply ret_inv in H as [-> ->]. simpl. repeat split; auto; discriminate.
Qed.

(** C3, as the code has it.  When [write_file] or [remove_file] succeeds
    on a path that held a file, it appends one record, of operation
    [modify] resp. [remove], for that path.  With backups on, the record's
    [original_content] is the text of the file as it was, and its backup
    reference is empty or names a snapshot holding the bytes of the file
    as it was: the two ways to restore are saved together.  With backups
    off, both are empty. *)
Theorem appended_record_for_existing_file m path b bytes s s' r :
  mutation_target m = Some (path, b) ->
  files (world s) !! path = Some bytes ->
  run_mutation m s = (s', Returned r) ->
  exists rec,
    operation_history s' =
      limit_history (max_history (config s)) (operation_history s ++ [rec]) /\
    op_operation rec = mutation_kind m /\
    op_file_path rec = path /\
    appended_record_ok bytes (default (backup_enabled (config s)) b) (world s') rec.
Proof.
  intros Ht Hb H. destruct m as [p content b' | p b' | |]; simpl in Ht; try discriminate;
    injection Ht as -> ->; simpl in H.
  - unfold write_file in H. apply try_except_reraise_inv in H.
    apply bind_inv_returned in H as (s0 & cfg & H0 & H). apply gets_inv in H0 as [-> ->].
    apply bind_inv_returned in H as (s1 & ex & H1 & H). rewrite path_exists_run in H1.
    injection H1 as <- <-. rewrite (exists_true _ _ _ Hb) in H.
    apply bind_inv_returned in H as (s2 & saved & H2 & H).
    change (save_prior (default (backup_enabled (config s)) b) path s = (s2, Returned saved))
      in H2.
    apply (save_prior_inv _ _ _ _ _ _ Hb) in H2
      as (Hflt & Hiso & (Hc & Hd & Hh) & Hb2 & Hoc & Hbp & Hoff).
    apply bind_inv_returned in H as (s3 & [] & H3 & H).
    apply guard_inv in H3 as [-> _].
    apply bind_inv_returned in H as (s4 & [] & H4 & H).
    apply bind_inv_returned in H as (s5 & ex' & H5 & H).
    rewrite path_exists_run in H5. injection H5 as <- <-.
    apply write_text_inv in H4 as [-> _].
    rewrite exists_after_write in H.
    apply bind_inv_returned in H as (s6 & [] & H6 & H).
    rewrite add_to_history_run in H6. injection H6 as <-.
    apply ret_inv in H as [-> _].
    eexists. simpl. rewrite Hc, Hh. split; [reflexivity|].
    split; [reflexivity|]. split; [reflexivity|].
    unfold appended_record_ok. simpl.
    destruct (default (backup_enabled (config s)) b).
    + split; [now apply Hoc|].
      destruct (Hbp eq_refl) as [He | [Hne Hf]]; [now left | right].
      now rewrite lookup_insert_ne by congruence.
    + now rewrite (Hoff eq_refl).
  - unfold remove_file in H. apply try_except_reraise_inv in H.
    apply bind_inv_returned in H as (s1 & ex & H1 & H). rewrite path_exists_run in H1.
    injection H1 as <- <-. rewrite (exists_true _ _ _ Hb) in H. simpl in H.
    apply bind_inv_returned in H as (s0 & cfg & H0 & H). apply gets_inv in H0 as [-> ->].
    apply bind_inv_returned in H as (s2 & saved & H2 & H).
    change (save_prior (default (backup_enabled (config s)) b) path s = (s2, Returned saved))
      in H2.
    apply (save_prior_inv _ _ _ _ _ _ Hb) in H2
      as (Hflt & Hiso & (Hc & Hd & Hh) & Hb2 & Hoc & Hbp & Hoff).
    apply bind_inv_returned in H as (s3 & [] & H3 & H).
    unfold unlink in H3.
    apply bind_inv_returned in H3 as (s3' & [] & Hg & H3). apply guard_inv in Hg as [-> _].
    rewrite (bind_returned _ _ _ _ _ (read_bytes_ok _ _ _ Hb2)) in H3.
    unfold modify in H3. injection H3 as <-.
    apply bind_inv_returned in H as (s6 & [] & H6 & H).
    rewrite add_to_history_run in H6. injection H6 as <-.
    apply ret_inv in H as [-> _].
    eexists. simpl. rewrite Hc, Hh. split; [reflexivity|].
    split; [reflexivity|]. split; [reflexivity|].
    unfold appended_record_ok. simpl.
    destruct (default (backup_enabled (config s)) b).
    + split; [now apply Hoc|].
      destruct (Hbp eq_refl) as [He | [Hne Hf]]; [now left | right].
      now rewrite lookup_delete_ne by congruence.
    + now rewrite (Hoff eq_refl).
Qed.

Lemma appended_record_for_existing_file_witness :
  let s := state_with {[ "a.txt" := "v1" ]} default_config in
  exists s' r rec,
    write_file "a.txt" "v2" None s = (s', Returned r) /\
    operation_history s' = [rec] /\
    op_operation rec = "modify" /\
    appended_record_ok "v1" true (world s') rec.
Proof.
  intros s.
  assert (exists s' r, write_file "a.txt" "v2" None s = (s', Returned r)) as (s' & r & Hrun).
  { eexists _, _. vm_compute. reflexivity. }
  destruct (appended_record_for_existing_file (MWrite "a.txt" "v2" None) "a.txt" None "v1"
              s s' r eq_refl eq_refl Hrun) as (rec & Hh & Hk & _ & Hok).
  exists s', r, rec. split; [exact Hrun|]. split; [exact Hh|]. split; [exact Hk|].
  exact Hok.
Defined.

(** C3, as the specification words it, fails on a plain overwrite: the
    file [a.txt] holds [v1], backups are on, and [v2] is written.  The
    record then has a backup reference that resolves and a non-empty
    [original_content], both at once. *)
Lemma exactly_one_restore_source_fails :
  let s' := fst (write_file "a.txt" "v2" None
                   (state_with {[ "a.txt" := "v1" ]} default_config)) in
  exists rec,
    operation_history s' = [rec] /\
    op_operation rec = "modify" /\
    resolves (world s') (op_backup_path rec) = true /\
    truthy (op_original_content rec) = true /\
    spec_record_invariant (world s') rec = false /\
    ~ Forall (fun r => spec_record_invariant (world s') r = true) (operation_history s').
Proof.
  eexists. split; [vm_compute; reflexivity|].
  split; [reflexivity|]. split; [vm_compute; reflexivity|].
  split; [reflexivity|]. split; [vm_compute; reflexivity|].
  intros HF. apply Forall_inv in HF. vm_compute in HF. discriminate.
Qed.

(** ** Undoing a removal *)

Lemma restore_saved_backup path bp oc s b :
  resolves (world s) bp = true ->
  files (world s) !! bp = Some b ->
  bp <> path ->
  os_fault (world s) (SysCopy bp path) = None ->
  restore_saved path bp oc s = (set_world (set_files (insert path b)) s, Returned tt).
Proof.
  intros Hres Hb Hne Hf. unfold restore_saved.
  rewrite (bind_returned _ _ _ _ _ (path_exists_run _ _)).
  unfold resolves in Hres. rewrite Hres. now apply copy2_ok.
Qed.

Lemma restore_saved_content path bp oc s :
  resolves (world s) bp = false ->
  truthy oc = true ->
  os_fault (world s) (SysWriteText path) = None ->
  restore_saved path bp oc s = (set_world (set_files (insert path oc)) s, Returned tt).
Proof.
  intros Hres Ht Hf. unfold restore_saved.
  rewrite (bind_returned _ _ _ _ _ (path_exists_run _ _)).
  unfold resolves in Hres. rewrite Hres, Ht. now apply write_text_ok.
Qed.

Lemma restore_saved_nothing path bp oc s :
  resolves (world s) bp = false ->
  truthy oc = false ->
  restore_saved path bp oc s = (s, Returned tt).
Proof.
  intros Hres Ht. unfold restore_saved.
  rewrite (bind_returned _ _ _ _ _ (path_exists_run _ _)).
  unfold resolves in Hres. now rewrite Hres, Ht.
Qed.

Lemma reverse_op_remove path bp oc ts :
  reverse_op (mkOp "remove" path bp oc ts) = restore_saved path bp oc.
Proof. reflexivity. Qed.

Lemma reverse_op_modify path bp oc ts :
  reverse_op (mkOp "modify" path bp oc ts) = restore_saved path bp oc.
Proof. reflexivity. Qed.

Lemma truthy_path_join d name : truthy (path_join d name) = true.
Proof. unfold path_join. now destruct d. Qed.

(** Text without carriage returns is read as it is. *)
Lemma universal_newlines_id s : has_cr s = false -> universal_newlines s = s.
Proof.
  induction s as [| c rest IH]; simpl; [reflexivity|].
  intros H. apply orb_false_iff in H as [Hc Hr]. rewrite Hc. now rewrite IH.
Qed.

(** C7.  Removing an existing file with backups on and then undoing.  The
    removal deletes the file; the undo succeeds and restores it: from the
    snapshot when the backup reference resolves, with the exact bytes the
    file held; otherwise by writing the saved text back as it is, when
    that text is not empty; otherwise it changes nothing and still
    succeeds.  The backup reference resolves whenever the snapshot copy
    was not refused. *)
Theorem remove_then_undo_restores path b s bytes :
  files (world s) !! path = Some bytes ->
  utf8_valid bytes = true ->
  default (backup_enabled (config s)) b = true ->
  (0 <= max_history (config s))%Z ->
  os_fault (world s) (SysReadText path) = None ->
  os_fault (world s) (SysUnlink path) = None ->
  os_fault (world s) (SysCopy (backup_path_of s path) path) = None ->
  os_fault (world s) (SysWriteText path) = None ->
  exists s1 r1 bp s2 r2,
    remove_file path b s = (s1, Returned r1) /\
    pyval_get "backup_path" r1 = Some (PStr bp) /\
    files (world s1) !! path = None /\
    undo_last_operation s1 = (s2, Returned r2) /\
    pyval_get "undone_operation" r2 = Some (PStr "remove") /\
    restored_as_saved path bp bytes s1 s2 /\
    (os_fault (world s) (SysCopy path (backup_path_of s path)) = None ->
     path <> backup_path_of s path ->
     resolves (world s1) bp = true).
Proof.
  intros Hb Hv Hen Hm Hrd Hul Hcp Hwr.
  destruct (backup_file_cases path s) as [Hbk | (b0 & Hb0 & Hne & Hbk)].
  - pose proof (remove_file_existing _ _ _ _ _ _ Hb Hen Hbk Hb Hv Hrd Hul) as Hrm.
    destruct (limit_history_snoc (max_history (config s)) (operation_history s)
                (mkOp "remove" path EmptyString (universal_newlines bytes)
                   (now_iso (world s))) Hm) as [front Hfront].
    assert (os_fault (world s) (SysCopy path (backup_path_of s path)) = None ->
            path <> backup_path_of s path -> False) as Hcontra.
    { intros Hok Hne. rewrite (backup_file_ok _ _ _ Hb Hok Hne) in Hbk.
      injection Hbk as _ Hbad. pose proof (truthy_path_join (backup_dir s)
        (basename path +:+ ".backup_" +:+ now_stamp (world s))) as Ht.
      unfold backup_path_of in Hbad. rewrite Hbad in Ht. discriminate. }
    eexists _, _, EmptyString. 
    destruct (truthy (universal_newlines bytes)) eqn:Ht.
    + eexists _, _. split; [exact Hrm|]. split; [reflexivity|].
      split; [apply lookup_delete_eq|]. split.
      { erewrite undo_run_pop; [| simpl; rewrite Hfront; apply list_pop_snoc].
        rewrite reverse_op_remove.
        erewrite restore_saved_content; [reflexivity | reflexivity | exact Ht | exact Hwr]. }
      split; [reflexivity|]. split.
      * unfold restored_as_saved. simpl. rewrite Ht. apply lookup_insert_eq.
      * intros Hok Hne. destruct (Hcontra Hok Hne).
    + eexists _, _. split; [exact Hrm|]. split; [reflexivity|].
      split; [apply lookup_delete_eq|]. split.
      { erewrite undo_run_pop; [| simpl; rewrite Hfront; apply list_pop_snoc].
        rewrite reverse_op_remove.
        erewrite restore_saved_nothing; [reflexivity | reflexivity | exact Ht]. }
      split; [reflexivity|]. split.
      * unfold restored_as_saved. simpl. rewrite Ht. reflexivity.
      * intros Hok Hne. destruct (Hcontra Hok Hne).
  - rewrite Hb in Hb0. injection Hb0 as <-.
    assert (files (world (set_world (set_files (insert (backup_path_of s path) bytes)) s))
              !! path = Some bytes) as Hb1.
    { simpl. rewrite lookup_insert_ne by congruence. exact Hb. }
    pose proof (remove_file_existing _ _ _ _ _ _ Hb Hen Hbk Hb1 Hv Hrd Hul) as Hrm.
    destruct (limit_history_snoc (max_history (config s)) (operation_history s)
                (mkOp "remove" path (backup_path_of s path) (universal_newlines bytes)
                   (now_iso (world s))) Hm) as [front Hfront].
    assert (delete path (<[backup_path_of s path := bytes]> (files (world s)))
              !! backup_path_of s path = Some bytes) as Hbp.
    { rewrite lookup_delete_ne by congruence. apply lookup_insert_eq. }
    assert (forall h, resolves
              (world (set_history h
                 (set_world (set_files (delete path))
                    (set_world (set_files (insert (backup_path_of s path) bytes)) s))))
              (backup_path_of s path) = true) as Hres.
    { intros h. unfold resolves. unfold backup_path_of at 1. rewrite truthy_path_join.
      simpl. apply bool_decide_eq_true. rewrite Hbp. eauto. }
    eexists _, _, (backup_path_of s path), _, _.
    split; [exact Hrm|]. split; [reflexivity|].
    split; [apply lookup_delete_eq|]. split.
    { erewrite undo_run_pop; [| simpl; rewrite Hfront; apply list_pop_snoc].
      rewrite reverse_op_remove.
      erewrite restore_saved_backup;
        [reflexivity | apply Hres | exact Hbp | congruence | exact Hcp]. }
    split; [reflexivity|]. split.
    + unfold restored_as_saved. rewrite Hres. apply lookup_insert_eq.
    + intros _ _. apply Hres.
Qed.

Lemma remove_then_undo_restores_witness :
  let s := state_with {[ "a.txt" := "data" ]} default_config in
  exists s1 r1 s2 r2,
    remove_file "a.txt" None s = (s1, Returned r1) /\
    files (world s1) !! "a.txt" = None /\
    undo_last_operation s1 = (s2, Returned r2) /\
    files (world s2) !! "a.txt" = Some "data".
Proof.
  intros s.
  destruct (remove_then_undo_restores "a.txt" None s "data")
    as (s1 & r1 & bp & s2 & r2 & Hrm & Hbp & Hgone & Hu & _ & Hrest & Hres);
    try reflexivity; [vm_compute; discriminate|].
  exists s1, r1, s2, r2. split; [exact Hrm|]. split; [exact Hgone|]. split; [exact Hu|].
  unfold restored_as_saved in Hrest. rewrite Hres in Hrest; [exact Hrest | reflexivity |].
  vm_compute. discriminate.
Defined.

(** X22.  The round trip that does hold: overwriting an existing file
    with backups on and undoing restores what the record saved, in the
    same three ways as for a removal. *)
Lemma overwrite_then_undo_restores path content b s bytes :
  files (world s) !! path = Some bytes ->
  utf8_valid bytes = true ->
  default (backup_enabled (config s)) b = true ->
  (0 <= max_history (config s))%Z ->
  os_fault (world s) (SysReadText path) = None ->
  os_fault (world s) (SysMkdirParents path) = None ->
  os_fault (world s) (SysWriteText path) = None ->
  os_fault (world s) (SysCopy (backup_path_of s path) path) = None ->
  exists s1 r1 bp s2 r2,
    write_file path content b s = (s1, Returned r1) /\
    pyval_get "backup_path" r1 = Some (PStr bp) /\
    files (world s1) !! path = Some content /\
    undo_last_operation s1 = (s2, Returned r2) /\
    restored_as_saved path bp bytes s1 s2 /\
    (os_fault (world s) (SysCopy path (backup_path_of s path)) = None ->
     path <> backup_path_of s path ->
     resolves (world s1) bp = true).
Proof.
  intros Hb Hv Hen Hm Hrd Hmk Hwr Hcp.
  destruct (backup_file_cases path s) as [Hbk | (b0 & Hb0 & Hne & Hbk)].
  - pose proof (write_file_existing _ content _ _ _ _ _ Hb Hen Hbk Hb Hv Hrd Hmk Hwr) as Hw.
    destruct (limit_history_snoc (max_history (config s)) (operation_history s)
                (mkOp "modify" path EmptyString (universal_newlines bytes)
                   (now_iso (world s))) Hm) as [front Hfront].
    assert (os_fault (world s) (SysCopy path (backup_path_of s path)) = None ->
            path <> backup_path_of s path -> False) as Hcontra.
    { intros Hok Hne. rewrite (backup_file_ok _ _ _ Hb Hok Hne) in Hbk.
      injection Hbk as _ Hbad. pose proof (truthy_path_join (backup_dir s)
        (basename path +:+ ".backup_" +:+ now_stamp (world s))) as Ht.
      unfold backup_path_of in Hbad. rewrite Hbad in Ht. discriminate. }
    eexists _, _, EmptyString.
    destruct (truthy (universal_newlines bytes)) eqn:Ht.
    + eexists _, _. split; [exact Hw|]. split; [reflexivity|].
      split; [apply lookup_insert_eq|]. split.
      { erewrite undo_run_pop; [| simpl; rewrite Hfront; apply list_pop_snoc].
        rewrite reverse_op_modify.
        erewrite restore_saved_content; [reflexivity | reflexivity | exact Ht | exact Hwr]. }
      split.
      * unfold restored_as_saved. simpl. rewrite Ht. apply lookup_insert_eq.
      * intros Hok Hne. destruct (Hcontra Hok Hne).
    + eexists _, _. split; [exact Hw|]. split; [reflexivity|].
      split; [apply lookup_insert_eq|]. split.
      { erewrite undo_run_pop; [| simpl; rewrite Hfront; apply list_pop_snoc].
        rewrite reverse_op_modify.
        erewrite restore_saved_nothing; [reflexivity | reflexivity | exact Ht]. }
      split.
      * unfold restored_as_saved. simpl. rewrite Ht. reflexivity.
      * intros Hok Hne. destruct (Hcontra Hok Hne).
  - rewrite Hb in Hb0. injection Hb0 as <-.
    assert (files (world (set_world (set_files (insert (backup_path_of s path) bytes)) s))
              !! path = Some bytes) as Hb1.
    { simpl. rewrite lookup_insert_ne by congruence. exact Hb. }
    pose proof (write_file_existing _ content _ _ _ _ _ Hb Hen Hbk Hb1 Hv Hrd Hmk Hwr) as Hw.
    destruct (limit_history_snoc (max_history (config s)) (operation_history s)
                (mkOp "modify" path (backup_path_of s path) (universal_newlines bytes)
                   (now_iso (world s))) Hm) as [front Hfront].
    assert (<[path := content]> (<[backup_path_of s path := bytes]> (files (world s)))
              !! backup_path_of s path = Some bytes) as Hbp.
    { rewrite lookup_insert_ne by congruence. apply lookup_insert_eq. }
    assert (forall h, resolves
              (world (set_history h
                 (set_world (set_files (insert path content))
                    (set_world (set_files (insert (backup_path_of s path) bytes)) s))))
              (backup_path_of s path) = true) as Hres.
    { intros h. unfold resolves. unfold backup_path_of at 1. rewrite truthy_path_join.
      simpl. apply bool_decide_eq_true. rewrite Hbp. eauto. }
    eexists _, _, (backup_path_of s path), _, _.
    split; [exact Hw|]. split; [reflexivity|].
    split; [apply lookup_insert_eq|]. split.
    { erewrite undo_run_pop; [| simpl; rewrite Hfront; apply list_pop_snoc].
      rewrite reverse_op_modify.
      erewrite restore_saved_backup;
        [reflexivity | apply Hres | exact Hbp | congruence | exact Hcp]. }
    split.
    + unfold restored_as_saved. rewrite Hres. apply lookup_insert_eq.
    + intros _ _. apply Hres.
Qed.

(** Overwriting and undoing brings the overwritten content back; with the
    backup switched off for the write, the undo has nothing to restore and
    leaves the new content, without an error. *)
Example modify_then_undo :
  let s := state_with {[ "a.txt" := "v1" ]} default_config in
  let s2 := fst (undo_last_operation (fst (write_file "a.txt" "v2" None s))) in
  let s2' := fst (undo_last_operation (fst (write_file "a.txt" "v2" (Some false) s))) in
  files (world s2) !! "a.txt" = Some "v1" /\
  files (world s2') !! "a.txt" = Some "v2" /\
  snd (undo_last_operation (fst (write_file "a.txt" "v2" (Some false) s)))
  = Returned (undo_payload (mkOp "modify" "a.txt" "" "" "2024-01-01T12:00:00")).
Proof. vm_compute. repeat split; reflexivity. Qed.

(** ** A failed undo *)

Lemma bind_call_nothing {St} (s : St) : bind_call [] [] ∅ s = (s, Returned tt).
Proof. unfold bind_call. now rewrite map_to_list_empty. Qed.

(** C10.  The undo is not atomic with respect to the history.  The last
    record is taken off the history before the file system is touched:
    the reversal runs in a state whose history is already [front].  When
    the reversal raises, [undo_last_operation] fails with
    [FileOperationError], the [fs_undo] handler returns the error
    result, and the history that is left is [front]: the record is gone
    although nothing was reversed. *)
Theorem failed_undo_consumes_record s front last_op s1 e :
  operation_history s = (front ++ [last_op])%list ->
  reverse_op last_op (set_history (fun _ => front) s) = (s1, Raised e) ->
  undo_last_operation s =
    (s1, Raised (Exn FileOperationError ("Error undoing operation: " +:+ exn_msg e))) /\
  _fs_undo ∅ s = (s1, Returned (error_dict ("Error undoing operation: " +:+ exn_msg e))) /\
  operation_history s1 = front.
Proof.
  intros Hh Hrev.
  assert (undo_last_operation s =
    (s1, Raised (Exn FileOperationError ("Error undoing operation: " +:+ exn_msg e))))
    as Hundo.
  { erewrite undo_run_pop; [| rewrite Hh; apply list_pop_snoc]. now rewrite Hrev. }
  split; [exact Hundo|]. split.
  - unfold _fs_undo. rewrite (bind_returned _ _ _ _ _ (bind_call_nothing s)).
    unfold handler_guard. erewrite try_except_raised; [| exact Hundo]. reflexivity.
  - pose proof (world_only_reverse last_op (set_history (fun _ => front) s)) as (_ & _ & H).
    now rewrite Hrev in H.
Qed.

Lemma failed_undo_consumes_record_witness :
  let s := fst (write_file "a.txt" "v2" None
             (state_denying {[ "a.txt" := "v1" ]}
                [SysCopy "/backups/a.txt.backup_20240101_120000" "a.txt"])) in
  List.length (operation_history s) = 1%nat /\
  exists s1 msg,
    undo_last_operation s = (s1, Raised (Exn FileOperationError msg)) /\
    _fs_undo ∅ s = (s1, Returned (error_dict msg)) /\
    operation_history s1 = [] /\
    files (world s1) !! "a.txt" = Some "v2".
Proof.
  intros s. split; [reflexivity|].
  assert (exists front last_op s1 e,
    operation_history s = (front ++ [last_op])%list /\ front = [] /\
    reverse_op last_op (set_history (fun _ => front) s) = (s1, Raised e) /\
    files (world s1) !! "a.txt" = Some "v2")
    as (front & last_op & s1 & e & Hh & Hf & Hrev & Hfile).
  { eexists [], _, _, _. split; [vm_compute; reflexivity|]. split; [reflexivity|].
    split; [vm_compute; reflexivity|]. reflexivity. }
  destruct (failed_undo_consumes_record s front last_op s1 e Hh Hrev) as (Hu & Ht & Hfront).
  exists s1, ("Error undoing operation: " +:+ exn_msg e).
  split; [exact Hu|]. split; [exact Ht|]. split; [now rewrite Hfront|]. exact Hfile.
Defined.

(** ** The dispatcher *)

Lemma first_missing_Some params kwargs q :
  first_missing params kwargs = Some q ->
  exists info, In (q, info) params /\ p_required info = true /\ kwargs !! q = None.
Proof.
  induction params as [| [p info] params IH]; simpl; [discriminate|].
  destruct (p_required info) eqn:Hr; simpl.
  - destruct (kwargs !! p) as [v |] eqn:Hk.
    + rewrite bool_decide_eq_true_2 by eauto. simpl.
      intros H. destruct (IH H) as (i & ? & ? & ?). eauto.
    + rewrite bool_decide_eq_false_2 by (intros [? ?]; discriminate). simpl.
      intros [= <-]. eauto.
  - intros H. destruct (IH H) as (i & ? & ? & ?). eauto.
Qed.

Lemma first_missing_None params kwargs p info :
  first_missing params kwargs = None ->
  In (p, info) params -> p_required info = true -> is_Some (kwargs !! p).
Proof.
  induction params as [| [p' info'] params IH]; simpl; [contradiction|].
  destruct (p_required info' && negb (bool_decide (is_Some (kwargs !! p')))) eqn:E;
    [discriminate|].
  intros Hnone [[= -> ->] | Hin] Hr.
  - rewrite Hr in E. simpl in E. apply negb_false_iff, bool_decide_eq_true in E. exact E.
  - now apply IH.
Qed.

Lemma first_missing_None_intro params kwargs :
  (forall p info, In (p, info) params -> p_required info = true -> is_Some (kwargs !! p)) ->
  first_missing params kwargs = None.
Proof.
  intros H. destruct (first_missing params kwargs) as [q |] eqn:E; [|reflexivity].
  apply first_missing_Some in E as (info & Hin & Hr & Hk).
  destruct (H q info Hin Hr) as [v Hv]. congruence.
Qed.

(** C5.  When some parameter that the schema of a registered tool marks
    as required is not among the arguments, [execute_tool] returns the
    missing-parameter failure naming such a parameter (the first one in
    the order of the schema), and the handler is not called: the state is
    the state before the call, and any other handler in its place gives
    the same result and state. *)
Theorem missing_required_parameter_rejected {St} (tools : gmap string (Tool St))
  name tool kwargs p info (s : St) :
  tools !! name = Some tool ->
  In (p, info) (t_parameters tool) ->
  p_required info = true ->
  kwargs !! p = None ->
  exists q info',
    first_missing (t_parameters tool) kwargs = Some q /\
    In (q, info') (t_parameters tool) /\ p_required info' = true /\ kwargs !! q = None /\
    execute_tool tools name kwargs s = (s, Returned (missing_parameter q)) /\
    forall h, execute_tool (<[name := with_handler tool h]> tools) name kwargs s
              = (s, Returned (missing_parameter q)).
Proof.
  intros Ht Hin Hr Hk.
  destruct (first_missing (t_parameters tool) kwargs) as [q |] eqn:E.
  - destruct (first_missing_Some _ _ _ E) as (info' & Hin' & Hr' & Hk').
    exists q, info'. repeat split; auto.
    + unfold execute_tool. rewrite Ht, E. reflexivity.
    + intros h. unfold execute_tool. rewrite lookup_insert_eq. simpl. rewrite E.
      reflexivity.
  - destruct (first_missing_None _ _ _ _ E Hin Hr) as [v Hv]. congruence.
Qed.

Lemma missing_required_parameter_rejected_witness :
  execute_tool counting_tools "probe" ∅ 0%nat = (0%nat, Returned (missing_parameter "path")) /\
  fst (execute_tool counting_tools "probe" {[ "path" := PStr "a.txt" ]} 0%nat) = 1%nat.
Proof.
  split; [|vm_compute; reflexivity].
  destruct (missing_required_parameter_rejected counting_tools "probe" counting_tool ∅
              "path" (mkParam "string" true "Path") 0%nat)
    as (q & info' & Hq & _ & _ & _ & Hrun & _);
    [reflexivity | left; reflexivity | reflexivity | reflexivity |].
  vm_compute in Hq. injection Hq as <-. exact Hrun.
Defined.

(** ** The shape of results *)

Lemma success_only_bind {A} (m : M State A) (k : A -> M State pyval) :
  (forall a, success_only (k a)) -> success_only (bind m k).
Proof.
  intros Hk s s' v H. apply bind_inv_returned in H as (s1 & a & _ & H). eapply Hk, H.
Qed.

Lemma success_only_raise e : success_only (raise e).
Proof. intros s s' v H. discriminate. Qed.

Lemma success_only_ret d : success_only (ret (PDict (("success", PBool true) :: d))).
Proof. intros s s' v H. apply ret_inv in H as [_ ->]. reflexivity. Qed.

Lemma success_only_if (b : bool) (m1 m2 : M State pyval) :
  success_only m1 -> success_only m2 -> success_only (if b then m1 else m2).
Proof. now destruct b. Qed.

Lemma success_only_pop {A} (o : option (list A * A)) m1 (m2 : list A -> A -> M State pyval) :
  success_only m1 -> (forall f x, success_only (m2 f x)) ->
  success_only (match o with None => m1 | Some (f, x) => m2 f x end).
Proof. destruct o as [[f x] |]; auto. Qed.

Ltac success_only :=
  repeat first
    [ progress intros
    | apply success_only_ret
    | apply success_only_raise
    | apply success_only_if
    | apply success_only_pop
    | apply success_only_bind ].

(** A method whose body is wrapped in
    [except Exception as e: raise FileOperationError(...)]. *)
Lemma wrapped_method_shape (body : M State pyval) (msg : exn -> string) s :
  success_only body ->
  returns_or_file_error
    (try_except body (fun e => raise (Exn FileOperationError (msg e))) s).
Proof.
  intros Hb. unfold returns_or_file_error, try_except.
  destruct (body s) as [s1 [v | e]] eqn:E; simpl; [eapply Hb, E | reflexivity].
Qed.

(** C9, as the specification words it, fails for the agent's methods:
    reading a path that holds no file does not return a failure result,
    the exception [FileOperationError] escapes to the caller. *)
Lemma read_file_raises_to_the_caller :
  read_file "missing.txt" state0 =
    (state0, Raised (Exn FileOperationError
                       "Error reading file missing.txt: File not found: missing.txt")) /\
  ~ returns_result (read_file "missing.txt" state0).
Proof.
  split; [reflexivity|]. intros [v Hv]. discriminate.
Qed.

(** C9, as the code has it.  A call of [execute_tool] whose keyword
    arguments do not take the name of one of the method's own parameters
    never raises.  It returns the not-found error for a tool that is not
    registered, the missing-parameter error naming an absent parameter
    when a required parameter is absent, and, when the handler raises,
    the error result that carries the message of the exception.  A
    keyword argument named [tool_name] or [self] makes the call itself
    raise [TypeError], before the body and its [try] are reached, and
    nothing has been done then.  The handlers of the file tools turn
    every exception of the agent into the error result.  The agent's
    methods either return a payload tagged [success: True] or raise
    [FileOperationError], into which every exception raised inside is
    converted. *)
Theorem failures_are_normalized :
  (forall St (tools : gmap string (Tool St)) name kwargs (s : St),
     kwargs !! "tool_name" = None ->
     kwargs !! "self" = None ->
     returns_result (call_execute_tool tools name kwargs s) /\
     (tools !! name = None ->
      call_execute_tool tools name kwargs s =
        (s, Returned (error_dict ("Tool " +:+ DQUOTE +:+ name +:+ DQUOTE +:+ " not found")))) /\
     (forall tool p info,
        tools !! name = Some tool ->
        In (p, info) (t_parameters tool) -> p_required info = true -> kwargs !! p = None ->
        exists q info',
          In (q, info') (t_parameters tool) /\ p_required info' = true /\
          kwargs !! q = None /\
          call_execute_tool tools name kwargs s = (s, Returned (missing_parameter q))) /\
     (forall tool s1 e,
        tools !! name = Some tool ->
        (forall p info, In (p, info) (t_parameters tool) -> p_required info = true ->
                        is_Some (kwargs !! p)) ->
        t_function tool kwargs s = (s1, Raised e) ->
        call_execute_tool tools name kwargs s =
          (s1, Returned (error_dict ("Tool execution failed: " +:+ exn_msg e))))) /\
  (forall St (tools : gmap string (Tool St)) name kwargs (s : St),
     is_Some (kwargs !! "tool_name") \/ is_Some (kwargs !! "self") ->
     exists e, call_execute_tool tools name kwargs s = (s, Raised e) /\
               exn_cls e = TypeError) /\
  (forall (body : M State pyval) s,
     returns_result (handler_guard body s) /\
     forall s1 e, body s = (s1, Raised e) ->
                  handler_guard body s = (s1, Returned (error_dict (exn_msg e)))) /\
  (forall re s path content b directory pattern ext cpat,
     returns_or_file_error (read_file path s) /\
     returns_or_file_error (write_file path content b s) /\
     returns_or_file_error (remove_file path b s) /\
     returns_or_file_error (search_files re directory pattern ext cpat s) /\
     returns_or_file_error (undo_last_operation s)).
Proof.
  split; [|split; [|split]].
  - intros St tools name kwargs s Hname Hself.
    assert (call_execute_tool tools name kwargs s = execute_tool tools name kwargs s) as ->.
    { unfold call_execute_tool. rewrite Hname, Hself.
      rewrite !bool_decide_eq_false_2 by (intros [? ?]; discriminate). reflexivity. }
    split; [|split; [|split]].
    + unfold returns_result, execute_tool.
      destruct (tools !! name) as [tool |]; [|eexists; reflexivity].
      destruct (first_missing (t_parameters tool) kwargs); [eexists; reflexivity|].
      unfold try_except. destruct (t_function tool kwargs s) as [s1 [v | e]];
        eexists; reflexivity.
    + intros Hnone. unfold execute_tool. now rewrite Hnone.
    + intros tool p info Ht Hin Hr Hk.
      destruct (first_missing (t_parameters tool) kwargs) as [q |] eqn:E.
      * destruct (first_missing_Some _ _ _ E) as (info' & Hin' & Hr' & Hk').
        exists q, info'. repeat split; auto.
        unfold execute_tool. now rewrite Ht, E.
      * destruct (first_missing_None _ _ _ _ E Hin Hr) as [v Hv]. congruence.
    + intros tool s1 e Ht Hall Hf.
      unfold execute_tool. rewrite Ht, (first_missing_None_intro _ _ Hall).
      now rewrite (try_except_raised _ _ _ _ _ Hf).
  - intros St tools name kwargs s Hkey. unfold call_execute_tool.
    destruct (bool_decide (is_Some (kwargs !! "tool_name"))) eqn:E1;
      [eexists; split; reflexivity|].
    destruct (bool_decide (is_Some (kwargs !! "self"))) eqn:E2;
      [eexists; split; reflexivity|].
    apply bool_decide_eq_false in E1. apply bool_decide_eq_false in E2.
    destruct Hkey; contradiction.
  - intros body s. split.
    + unfold returns_result, handler_guard, try_except.
      destruct (body s) as [s1 [v | e]]; eexists; reflexivity.
    + intros s1 e Hb. unfold handler_guard. now rewrite (try_except_raised _ _ _ _ _ Hb).
  - intros re s path content b directory pattern ext cpat.
    repeat split.
    + unfold read_file. apply wrapped_method_shape. success_only.
    + unfold write_file. apply wrapped_method_shape. success_only.
    + unfold remove_file. apply wrapped_method_shape. success_only.
    + unfold search_files. apply wrapped_method_shape. success_only.
    + unfold undo_last_operation. apply wrapped_method_shape. success_only.
Qed.

Lemma failures_are_normalized_witness :
  call_execute_tool {[ "boom" := raising_tool ]} "boom" ∅ 0%nat =
    (1%nat, Returned (error_dict "Tool execution failed: boom")) /\
  (exists e, call_execute_tool (file_tools literal_re) "fs_undo" {[ "tool_name" := PStr "x" ]}
               state0 = (state0, Raised e) /\ exn_cls e = TypeError) /\
  returns_or_file_error (read_file "missing.txt" state0) /\
  returns_result (_fs_remove {[ "path" := PStr "missing.txt" ]} state0).
Proof.
  destruct failures_are_normalized as (Hcall & Hbind & Hguard & Hengine).
  split; [|split; [|split]].
  - destruct (Hcall nat {[ "boom" := raising_tool ]} "boom" ∅ 0%nat
                (lookup_empty _) (lookup_empty _)) as (_ & _ & _ & Hraise).
    apply (Hraise raising_tool 1%nat (Exn RuntimeError "boom")); [reflexivity | | reflexivity].
    intros p info [].
  - apply Hbind. left. rewrite lookup_singleton_eq. eauto.
  - apply (Hengine literal_re state0 "missing.txt" "" None "" "" "" "").
  - unfold _fs_remove. erewrite bind_returned; [| vm_compute; reflexivity].
    apply Hguard.
Defined.

(** ** Searching *)

Lemma split_lines_from_length cur s :
  List.length (split_lines_from cur s) = (count_lf s + 1)%nat.
Proof.
  revert cur. induction s as [| c rest IH]; intros cur; simpl; [reflexivity|].
  destruct (Ascii.eqb c LF); simpl; rewrite IH; lia.
Qed.

Lemma count_lf_take n s : (count_lf (str_take n s) <= count_lf s)%nat.
Proof.
  revert n. induction s as [| c rest IH]; intros [| n]; simpl; try lia.
  specialize (IH n). lia.
Qed.

(** The test [line_num <= len(lines)] never fails: every match yields its
    location. *)
Lemma match_line_Some content m :
  exists d, match_line content (split_lines content) m = Some d /\ match_location content m d.
Proof.
  unfold match_line, match_location, split_lines. rewrite split_lines_from_length.
  pose proof (count_lf_take (fst m) content) as Hle.
  destruct (Nat.leb_spec (count_lf (str_take (fst m) content) + 1) (count_lf content + 1));
    [|lia].
  eexists. split; [reflexivity|]. split; [lia | reflexivity].
Qed.

Lemma omap_match_lines content ms :
  Forall2 (match_location content) ms (omap (match_line content (split_lines content)) ms).
Proof.
  induction ms as [| m ms IH]; simpl; [constructor|].
  destruct (match_line_Some content m) as (d & -> & Hd). now constructor.
Qed.

Lemma stat_ok p s b :
  os_fault (world s) (SysStat p) = None ->
  files (world s) !! p = Some b ->
  stat p s = (s, Returned (String.length b, file_times (world s) p)).
Proof.
  intros Hf Hb. unfold stat.
  rewrite (bind_returned _ _ _ _ _ (guard_ok _ _ Hf)).
  now rewrite (bind_returned _ _ _ _ _ (read_bytes_ok _ _ _ Hb)).
Qed.

Lemma read_text_undecodable p s b :
  os_fault (world s) (SysReadText p) = None ->
  files (world s) !! p = Some b -> utf8_valid b = false ->
  read_text p s = (s, Raised (Exn UnicodeDecodeError "'utf-8' codec can't decode bytes")).
Proof.
  intros Hf Hb Hv. unfold read_text.
  rewrite (bind_returned _ _ _ _ _ (guard_ok _ _ Hf)).
  rewrite (bind_returned _ _ _ _ _ (read_bytes_ok _ _ _ Hb)).
  now rewrite Hv.
Qed.

Lemma walk_of_spec s directory p :
  In p (walk_of s directory) <->
  is_Some (files (world s) !! p) /\ String.prefix (directory +:+ "/") p = true.
Proof.
  unfold walk_of. rewrite filter_In. split; intros [H1 H2]; (split; [|exact H2]).
  - apply list_elem_of_In, list_elem_of_fmap in H1 as ([k v] & -> & Hkv).
    apply elem_of_map_to_list in Hkv. simpl. eauto.
  - destruct H1 as [v Hv]. apply list_elem_of_In, list_elem_of_fmap.
    exists (p, v). split; [reflexivity|]. now apply elem_of_map_to_list.
Qed.

Lemma read_only_ret {A} (a : A) : read_only (ret a).
Proof. now intros s. Qed.

Lemma read_only_raise {A} e : read_only (@raise State A e).
Proof. now intros s. Qed.

Lemma read_only_gets {A} (f : State -> A) : read_only (gets f).
Proof. now intros s. Qed.

Lemma read_only_lift {A} (o : outcome A) : read_only (lift_outcome o).
Proof. now intros s. Qed.

Lemma read_only_guard c : read_only (syscall_guard c).
Proof. intros s. unfold syscall_guard. now destruct (os_fault (world s) c). Qed.

Lemma read_only_read_bytes p : read_only (read_bytes p).
Proof. intros s. unfold read_bytes. now destruct (files (world s) !! p). Qed.

Lemma read_only_bind {A B} (m : M State A) (k : A -> M State B) :
  read_only m -> (forall a, read_only (k a)) -> read_only (bind m k).
Proof.
  intros Hm Hk s. unfold bind. specialize (Hm s).
  destruct (m s) as [s1 [a | e]]; simpl in *; subst; [apply Hk | reflexivity].
Qed.

Lemma read_only_try_only {A} cls (m : M State A) h :
  read_only m -> (forall e, read_only (h e)) -> read_only (try_except_only cls m h).
Proof.
  intros Hm Hh s. unfold try_except_only. specialize (Hm s).
  destruct (m s) as [s1 [a | e]]; simpl in *; subst; [reflexivity|].
  destruct (existsb _ cls); [apply Hh | reflexivity].
Qed.

Lemma read_only_try {A} (m : M State A) h :
  read_only m -> (forall e, read_only (h e)) -> read_only (try_except m h).
Proof.
  intros Hm Hh s. unfold try_except. specialize (Hm s).
  destruct (m s) as [s1 [a | e]]; simpl in *; subst; [reflexivity | apply Hh].
Qed.

Lemma read_only_if {A} (b : bool) (m1 m2 : M State A) :
  read_only m1 -> read_only m2 -> read_only (if b then m1 else m2).
Proof. now destruct b. Qed.

Lemma read_only_list {A B} (l : list B) (m1 : M State A) (m2 : B -> list B -> M State A) :
  read_only m1 -> (forall x l', read_only (m2 x l')) ->
  read_only (match l with [] => m1 | x :: l' => m2 x l' end).
Proof. destruct l; auto. Qed.

Create HintDb readonly.
#[local] Hint Resolve read_only_ret read_only_raise read_only_gets read_only_lift
  read_only_guard read_only_read_bytes : readonly.

Ltac read_only :=
  repeat first
    [ progress intros
    | apply read_only_bind
    | apply read_only_try_only
    | apply read_only_try
    | apply read_only_if
    | apply read_only_list
    | solve [auto with readonly] ].

Lemma read_only_search_one re pattern ext cpat path :
  read_only (search_one re pattern ext cpat path).
Proof.
  unfold search_one, is_file, path_exists, stat, read_text. read_only.
Qed.

Lemma read_only_for_collect {A B} (body : A -> M State (option B)) l :
  (forall x, read_only (body x)) -> read_only (for_collect body l).
Proof.
  intros Hb. induction l as [| x l IH]; simpl; read_only.
Qed.

Lemma for_collect_inv {A B} (body : A -> M State (option B)) l s s' rs :
  (forall x, read_only (body x)) ->
  for_collect body l s = (s', Returned rs) ->
  Forall (fun r => exists x, In x l /\ body x s = (s, Returned (Some r))) rs.
Proof.
  intros Hb. revert s' rs. induction l as [| x l IH]; intros s' rs H; simpl in H.
  - apply ret_inv in H as [_ ->]. constructor.
  - apply bind_inv_returned in H as (s1 & r & Hx & H).
    pose proof (Hb x s) as Hs. rewrite Hx in Hs. simpl in Hs. subst s1.
    apply bind_inv_returned in H as (s2 & rest & Hrest & H).
    pose proof (read_only_for_collect body l Hb s) as Hs. rewrite Hrest in Hs.
    simpl in Hs. subst s2.
    apply ret_inv in H as [_ ->].
    apply IH in Hrest.
    assert (Forall (fun r0 => exists x0, In x0 (x :: l) /\ body x0 s = (s, Returned (Some r0)))
              rest) as Hrest'.
    { eapply Forall_impl; [exact Hrest|]. intros r0 (x0 & Hin & Hr0). simpl. eauto. }
    destruct r as [r |]; [|exact Hrest'].
    constructor; [|exact Hrest']. exists x. simpl. auto.
Qed.

Lemma stat_inv p s s' st :
  stat p s = (s', Returned st) -> s' = s.
Proof.
  intros H. assert (read_only (stat p)) as Hr by (unfold stat; read_only).
  specialize (Hr s). now rewrite H in Hr.
Qed.

Lemma search_one_entry re pattern ext cpat path s s' entry :
  truthy cpat = true ->
  search_one re pattern ext cpat path s = (s', Returned (Some entry)) ->
  s' = s /\ entry_reports re cpat s path entry.
Proof.
  intros Hc H.
  pose proof (read_only_search_one re pattern ext cpat path s) as Hs.
  rewrite H in Hs. simpl in Hs. subst s'. split; [reflexivity|].
  unfold search_one in H.
  apply bind_inv_returned in H as (s1 & isf & H1 & H).
  unfold is_file in H1. rewrite path_exists_run in H1. injection H1 as <- <-.
  destruct (negb _); [apply ret_inv in H as [_ [=]]|].
  destruct (truthy ext && _); [apply ret_inv in H as [_ [=]]|].
  apply bind_inv_returned in H as (s2 & name_ok & H2 & H).
  assert (s2 = s) as ->.
  { assert (read_only (if truthy pattern
                       then lift_outcome (re_search re pattern (basename path))
                       else ret true)) as Hr by read_only.
    specialize (Hr s). now rewrite H2 in Hr. }
  destruct (negb name_ok); [apply ret_inv in H as [_ [=]]|].
  apply bind_inv_returned in H as (s3 & st & H3 & H).
  apply stat_inv in H3 as ->. rewrite Hc in H.
  unfold try_except_only in H.
  match type of H with
  | context [bind (read_text path) ?k s] =>
      destruct (bind (read_text path) k s) as [s4 [res | e]] eqn:Hbody
  end.
  - injection H as -> ->.
    apply bind_inv_returned in Hbody as (s5 & content & Hrd & Hbody).
    apply read_text_inv in Hrd as (-> & bytes & Hb & Hv & ->).
    apply bind_inv_returned in Hbody as (s6 & matches & Hm & Hbody).
    unfold lift_outcome in Hm. injection Hm as <- Hm.
    destruct matches as [| m0 ms]; [apply ret_inv in Hbody as [_ [=]]|].
    apply ret_inv in Hbody as [_ [= ->]].
    pose proof (omap_match_lines (universal_newlines bytes) (take 5 (m0 :: ms))) as Hf.
    exists bytes, (m0 :: ms),
      (omap (match_line (universal_newlines bytes) (split_lines (universal_newlines bytes)))
         (take 5 (m0 :: ms))).
    split; [reflexivity|]. split; [exact Hb|]. split; [exact Hv|]. split; [exact Hm|].
    split; [discriminate|]. split; [reflexivity|]. split; [reflexivity|].
    split; [|exact Hf].
    rewrite <- (Forall2_length _ _ _ Hf), length_take. reflexivity.
  - destruct (existsb _ _); [apply ret_inv in H as [_ [=]] | discriminate].
Qed.

(** The loop body returns for a file that can be examined: a read that is
    refused for lack of permission, like bytes that do not decode, makes
    it pass the file over. *)
Lemma search_one_returns re pattern ext cpat path s bytes :
  files (world s) !! path = Some bytes ->
  os_fault (world s) (SysStat path) = None ->
  (forall e, os_fault (world s) (SysReadText path) = Some e -> exn_cls e = PermissionError) ->
  (truthy pattern = true ->
   forall name, exists found, re_search re pattern name = Returned found) ->
  (forall content, exists matches, re_finditer re cpat content = Returned matches) ->
  exists o, search_one re pattern ext cpat path s = (s, Returned o).
Proof.
  intros Hb Hst Hrd Hname Hcontent. unfold search_one.
  unfold is_file. rewrite (bind_returned _ _ _ _ _ (path_exists_run _ _)).
  rewrite (exists_true _ _ _ Hb). simpl.
  destruct (truthy ext && _); [eexists; reflexivity|].
  assert (exists name_ok,
            (if truthy pattern
             then lift_outcome (re_search re pattern (basename path))
             else ret true) s = (s, Returned name_ok)) as [name_ok Hn].
  { destruct (truthy pattern); [|eexists; reflexivity].
    destruct (Hname eq_refl (basename path)) as [found Hf].
    exists found. unfold lift_outcome. now rewrite Hf. }
  rewrite (bind_returned _ _ _ _ _ Hn).
  destruct (negb name_ok); [eexists; reflexivity|].
  rewrite (bind_returned _ _ _ _ _ (stat_ok _ _ _ Hst Hb)).
  destruct (truthy cpat); [|eexists; reflexivity].
  unfold try_except_only.
  destruct (os_fault (world s) (SysReadText path)) as [e |] eqn:Hf.
  - erewrite bind_raised; cycle 1.
    { unfold read_text. erewrite bind_raised; [reflexivity | exact (guard_fault _ _ _ Hf)]. }
    rewrite (Hrd e eq_refl). eexists. reflexivity.
  - destruct (utf8_valid bytes) eqn:Hv.
    + rewrite (bind_returned _ _ _ _ _ (read_text_ok _ _ _ Hf Hb Hv)).
      destruct (Hcontent (universal_newlines bytes)) as [matches Hm].
      unfold lift_outcome, bind at 1. rewrite Hm.
      destruct matches; eexists; reflexivity.
    + erewrite bind_raised; [| exact (read_text_undecodable _ _ _ Hf Hb Hv)].
      eexists. reflexivity.
Qed.

(** The loop body lists a matching file. *)
Lemma search_one_reports re pattern ext cpat path s matches :
  truthy cpat = true ->
  os_fault (world s) (SysStat path) = None ->
  matching_file re pattern ext cpat s path matches ->
  exists entry, search_one re pattern ext cpat path s = (s, Returned (Some entry)).
Proof.
  intros Hc Hst (bytes & Hb & Hv & Hrd & Hext & Hname & Hm & Hne). unfold search_one.
  unfold is_file. rewrite (bind_returned _ _ _ _ _ (path_exists_run _ _)).
  rewrite (exists_true _ _ _ Hb). simpl.
  assert (truthy ext && negb (String.eqb (lower (suffix path)) ext) = false) as ->.
  { destruct (truthy ext); [|reflexivity].
    rewrite (Hext eq_refl), String.eqb_refl. reflexivity. }
  assert ((if truthy pattern
           then lift_outcome (re_search re pattern (basename path))
           else ret true) s = (s, Returned true)) as Hn.
  { destruct (truthy pattern); [|reflexivity].
    unfold lift_outcome. now rewrite (Hname eq_refl). }
  rewrite (bind_returned _ _ _ _ _ Hn). simpl.
  rewrite (bind_returned _ _ _ _ _ (stat_ok _ _ _ Hst Hb)).
  rewrite Hc. unfold try_except_only.
  rewrite (bind_returned _ _ _ _ _ (read_text_ok _ _ _ Hrd Hb Hv)).
  unfold lift_outcome, bind at 1. rewrite Hm.
  destruct matches as [| m0 ms]; [contradiction|].
  eexists. reflexivity.
Qed.

(** A loop whose body returns on every element returns, and collects
    exactly what the body yields. *)
Lemma for_collect_run {A B} (body : A -> M State (option B)) l s :
  (forall x, In x l -> exists o, body x s = (s, Returned o)) ->
  exists rs,
    for_collect body l s = (s, Returned rs) /\
    forall r, In r rs <-> exists x, In x l /\ body x s = (s, Returned (Some r)).
Proof.
  induction l as [| x l IH]; intros H; simpl.
  - exists []. split; [reflexivity|]. intros r. split; [intros [] | intros (x & [] & _)].
  - destruct (H x (or_introl eq_refl)) as [o Ho].
    destruct (IH (fun y Hy => H y (or_intror Hy))) as (rest & Hrest & Hin).
    rewrite (bind_returned _ _ _ _ _ Ho), (bind_returned _ _ _ _ _ Hrest).
    eexists. split; [reflexivity|]. intros r. split.
    + intros Hr. destruct o as [b |].
      * destruct Hr as [<- | Hr]; [exists x; auto|].
        apply Hin in Hr as (y & Hy & Hb). exists y. auto.
      * apply Hin in Hr as (y & Hy & Hb). exists y. auto.
    + intros (y & [<- | Hy] & Hb).
      * rewrite Hb in Ho. injection Ho as <-. now left.
      * assert (In r rest) as Hr by (apply Hin; eauto).
        destruct o; [now right | exact Hr].
Qed.

(** C8.  A content search in a directory that exists, whose files can be
    examined and whose patterns the regular-expression engine accepts,
    returns, changes nothing, and reports exactly the matching files.
    Every entry is the entry of a file below the directory and gives, as
    [content_matches], the number of all matches in that file and, as
    [match_lines], the locations of the first five of them at most: as
    many as there are matches, capped at five, each with the number of the
    line in which the match begins, that line without the white space
    around it, and the matched text.  Every matching file has such an
    entry.  A file whose bytes do not decode as UTF-8 has none, and is not
    an error. *)
Theorem search_caps_examples_not_the_count re directory pattern ext cpat s :
  truthy cpat = true ->
  walk_of s directory <> [] ->
  (forall p, In p (walk_of s directory) -> os_fault (world s) (SysStat p) = None) ->
  (forall p e, In p (walk_of s directory) ->
               os_fault (world s) (SysReadText p) = Some e -> exn_cls e = PermissionError) ->
  (truthy pattern = true ->
   forall name, exists found, re_search re pattern name = Returned found) ->
  (forall content, exists matches, re_finditer re cpat content = Returned matches) ->
  exists results,
    search_files re directory pattern ext cpat s =
      (s, Returned (PDict [("success", PBool true);
                           ("results", PList results);
                           ("total_files", PInt (Z.of_nat (List.length results)))])) /\
    Forall (fun entry =>
              exists path, In path (walk_of s directory) /\
                           entry_reports re cpat s path entry) results /\
    (forall path matches,
       In path (walk_of s directory) ->
       matching_file re pattern ext cpat s path matches ->
       exists entry, In entry results /\ entry_reports re cpat s path entry) /\
    (forall path bytes,
       files (world s) !! path = Some bytes ->
       utf8_valid bytes = false ->
       Forall (fun entry => pyval_get "file_path" entry <> Some (PStr path)) results).
Proof.
  intros Hc Hne Hst Hrd Hname Hcontent.
  destruct (for_collect_run (search_one re pattern ext cpat) (walk_of s directory) s)
    as (results & Hrun & Hin).
  { intros p Hp. pose proof Hp as Hp'. apply walk_of_spec in Hp' as [[b Hb] _].
    apply (search_one_returns _ _ _ _ _ _ b); auto. intros e. now apply Hrd. }
  assert (Forall (fun entry =>
                    exists path, In path (walk_of s directory) /\
                                 entry_reports re cpat s path entry) results) as Hsound.
  { apply List.Forall_forall. intros entry Hentry.
    apply Hin in Hentry as (path & Hpath & Hbody).
    exists path. split; [exact Hpath|].
    now apply (search_one_entry _ _ _ _ _ _ _ _ Hc) in Hbody as [_ Hrep]. }
  exists results. split; [|split; [exact Hsound|split]].
  - unfold search_files. apply try_except_returned.
    erewrite bind_returned; cycle 1.
    { unfold dir_exists. rewrite (bind_returned _ _ _ _ _ (path_exists_run _ _)).
      unfold rglob. unfold bind, gets. reflexivity. }
    fold (walk_of s directory).
    rewrite (bool_decide_eq_false_2 (walk_of s directory = [])) by exact Hne.
    rewrite orb_true_r. simpl.
    unfold rglob. unfold bind at 1, gets. fold (walk_of s directory).
    rewrite (bind_returned _ _ _ _ _ Hrun). reflexivity.
  - intros path matches Hpath Hmatch.
    destruct (search_one_reports _ _ _ _ _ _ _ Hc (Hst path Hpath) Hmatch) as [entry Hbody].
    exists entry. split; [apply Hin; eauto|].
    now apply (search_one_entry _ _ _ _ _ _ _ _ Hc) in Hbody as [_ Hrep].
  - intros path bytes Hb Hv.
    eapply Forall_impl; [exact Hsound|].
    intros entry (path' & _ & bytes' & ms & mls & Hp & Hb' & Hv' & _) Heq.
    rewrite Hp in Heq. injection Heq as ->. congruence.
Qed.

Lemma search_caps_examples_not_the_count_witness :
  let s := state_with search_tree default_config in
  exists results,
    search_files literal_re "d" "" "" "class" s =
      (s, Returned (PDict [("success", PBool true);
                           ("results", PList results);
                           ("total_files", PInt 1)])) /\
    map (pyval_get "file_path") results = [Some (PStr "d/a.py")] /\
    map (pyval_get "content_matches") results = [Some (PInt 8)] /\
    map (pyval_get "match_lines") results =
      [Some (PList [PDict [("line_number", PInt 1); ("line_content", PStr "class A");
                           ("match_text", PStr "class")];
                    PDict [("line_number", PInt 2);
                           ("line_content", PStr "class b; CLASS c; class class");
                           ("match_text", PStr "class")];
                    PDict [("line_number", PInt 2);
                           ("line_content", PStr "class b; CLASS c; class class");
                           ("match_text", PStr "CLASS")];
                    PDict [("line_number", PInt 2);
                           ("line_content", PStr "class b; CLASS c; class class");
                           ("match_text", PStr "class")];
                    PDict [("line_number", PInt 2);
                           ("line_content", PStr "class b; CLASS c; class class");
                           ("match_text", PStr "class")]])].
Proof.
  intros s.
  assert (List.length (walk_of s "d") = 2%nat) as Hlen by (vm_compute; reflexivity).
  destruct (search_caps_examples_not_the_count literal_re "d" "" "" "class" s)
    as (results & Hrun & _).
  - reflexivity.
  - intros Hnil. rewrite Hnil in Hlen. discriminate Hlen.
  - intros p _. reflexivity.
  - intros p e _ Hf. discriminate Hf.
  - intros _ name. eexists. reflexivity.
  - intros content. eexists. reflexivity.
  - exists results.
    assert (search_files literal_re "d" "" "" "class" s =
              (s, Returned (PDict [("success", PBool true);
                                   ("results", PList results);
                                   ("total_files", PInt 1)])) /\
            map (pyval_get "file_path") results = [Some (PStr "d/a.py")] /\
            map (pyval_get "content_matches") results = [Some (PInt 8)] /\
            map (pyval_get "match_lines") results =
              [Some (PList [PDict [("line_number", PInt 1);
                                   ("line_content", PStr "class A");
                                   ("match_text", PStr "class")];
                            PDict [("line_number", PInt 2);
                                   ("line_content", PStr "class b; CLASS c; class class");
                                   ("match_text", PStr "class")];
                            PDict [("line_number", PInt 2);
                                   ("line_content", PStr "class b; CLASS c; class class");
                                   ("match_text", PStr "CLASS")];
                            PDict [("line_number", PInt 2);
                                   ("line_content", PStr "class b; CLASS c; class class");
                                   ("match_text", PStr "class")];
                            PDict [("line_number", PInt 2);
                                   ("line_content", PStr "class b; CLASS c; class class");
                                   ("match_text", PStr "class")]])]) as H.
    { vm_compute in Hrun. injection Hrun as <-. repeat split; vm_compute; reflexivity. }
    exact H.
Defined.

(** * Further properties of the agent *)

(** ** What an operation leaves alone *)

Lemma same_env_refl s : same_env s s.
Proof. now repeat split. Qed.

Lemma same_env_trans s1 s2 s3 : same_env s1 s2 -> same_env s2 s3 -> same_env s1 s3.
Proof.
  intros (A1 & A2 & A3 & A4 & A5) (B1 & B2 & B3 & B4 & B5).
  repeat split; congruence.
Qed.

Lemma same_env_backup_path s s' p : same_env s s' -> backup_path_of s' p = backup_path_of s p.
Proof. intros (_ & H2 & _ & _ & H5). unfold backup_path_of. now rewrite H2, H5. Qed.

Section Preserves.

Variable R : State -> State -> Prop.
Hypothesis R_refl : forall s, R s s.
Hypothesis R_trans : forall s1 s2 s3, R s1 s2 -> R s2 s3 -> R s1 s3.

Lemma preserves_ret {A} (a : A) : preserves R (ret a).
Proof. intros s. apply R_refl. Qed.

Lemma preserves_raise {A} e : preserves R (@raise State A e).
Proof. intros s. apply R_refl. Qed.

Lemma preserves_gets {A} (f : State -> A) : preserves R (gets f).
Proof. intros s. apply R_refl. Qed.

Lemma preserves_lift {A} (o : outcome A) : preserves R (lift_outcome o).
Proof. intros s. apply R_refl. Qed.

Lemma preserves_guard c : preserves R (syscall_guard c).
Proof. intros s. unfold syscall_guard. destruct (os_fault (world s) c); apply R_refl. Qed.

Lemma preserves_read_bytes p : preserves R (read_bytes p).
Proof. intros s. unfold read_bytes. destruct (files (world s) !! p); apply R_refl. Qed.

Lemma preserves_bind {A B} (m : M State A) (k : A -> M State B) :
  preserves R m -> (forall a, preserves R (k a)) -> preserves R (bind m k).
Proof.
  intros Hm Hk s. unfold bind. specialize (Hm s).
  destruct (m s) as [s1 [a | e]]; simpl in *; [|assumption].
  eapply R_trans; [eassumption | apply Hk].
Qed.

Lemma preserves_try {A} (m : M State A) h :
  preserves R m -> (forall e, preserves R (h e)) -> preserves R (try_except m h).
Proof.
  intros Hm Hh s. unfold try_except. specialize (Hm s).
  destruct (m s) as [s1 [a | e]]; simpl in *; [assumption|].
  eapply R_trans; [eassumption | apply Hh].
Qed.

Lemma preserves_try_only {A} cls (m : M State A) h :
  preserves R m -> (forall e, preserves R (h e)) -> preserves R (try_except_only cls m h).
Proof.
  intros Hm Hh s. unfold try_except_only. specialize (Hm s).
  destruct (m s) as [s1 [a | e]]; simpl in *; [assumption|].
  destruct (existsb _ cls); simpl; [|assumption].
  eapply R_trans; [eassumption | apply Hh].
Qed.

Lemma preserves_if {A} (b : bool) (m1 m2 : M State A) :
  preserves R m1 -> preserves R m2 -> preserves R (if b then m1 else m2).
Proof. now destruct b. Qed.

End Preserves.

Lemma unchanged_at_refl w path q s : unchanged_at w path q s s.
Proof. split; [apply same_env_refl | reflexivity]. Qed.

Lemma unchanged_at_trans w path q s1 s2 s3 :
  unchanged_at w path q s1 s2 -> unchanged_at w path q s2 s3 -> unchanged_at w path q s1 s3.
Proof.
  intros [E1 F1] [E2 F2]. split; [eapply same_env_trans; eassumption|].
  intros Hp Hb. rewrite F2, F1; auto.
  rewrite (same_env_backup_path _ _ _ E1). exact Hb.
Qed.

Lemma untouched_at_refl q s : untouched_at q s s.
Proof. split; [apply same_env_refl | split; reflexivity]. Qed.

Lemma untouched_at_trans q s1 s2 s3 :
  untouched_at q s1 s2 -> untouched_at q s2 s3 -> untouched_at q s1 s3.
Proof.
  intros (E1 & F1 & H1) (E2 & F2 & H2).
  split; [eapply same_env_trans; eassumption|]. split; congruence.
Qed.

Ltac preserves_with refl trans :=
  repeat first
    [ progress intros
    | apply (preserves_ret _ refl)
    | apply (preserves_raise _ refl)
    | apply (preserves_gets _ refl)
    | apply (preserves_lift _ refl)
    | apply (preserves_guard _ refl)
    | apply (preserves_read_bytes _ refl)
    | apply (preserves_bind _ trans)
    | apply (preserves_try _ trans)
    | apply (preserves_try_only _ trans)
    | apply preserves_if
    | assumption ].

(** The three calls that change a file change it at their target only. *)
Lemma unchanged_at_insert w path q p content s :
  (q <> path -> (w = true -> q <> backup_path_of s path) -> q <> p) ->
  unchanged_at w path q s (set_world (set_files (insert p content)) s).
Proof.
  intros H. split; [now repeat split|]. intros Hp Hb. simpl.
  apply lookup_insert_ne. intros ->. now apply H.
Qed.

Lemma unchanged_at_delete w path q p s :
  (q <> path -> (w = true -> q <> backup_path_of s path) -> q <> p) ->
  unchanged_at w path q s (set_world (set_files (delete p)) s).
Proof.
  intros H. split; [now repeat split|]. intros Hp Hb. simpl.
  apply lookup_delete_ne. intros ->. now apply H.
Qed.

Lemma unchanged_at_set_history w path q f s : unchanged_at w path q s (set_history f s).
Proof. split; [now repeat split | reflexivity]. Qed.

Lemma preserves_write_text w path q content :
  preserves (unchanged_at w path q) (write_text path content).
Proof.
  intros s. unfold write_text, bind, syscall_guard, modify.
  destruct (os_fault (world s) (SysWriteText path)); simpl;
    [apply unchanged_at_refl | apply unchanged_at_insert; auto].
Qed.

Lemma preserves_unlink w path q : preserves (unchanged_at w path q) (unlink path).
Proof.
  intros s. unfold unlink, bind, syscall_guard, read_bytes, modify.
  destruct (os_fault (world s) (SysUnlink path)); simpl; [apply unchanged_at_refl|].
  destruct (files (world s) !! path); simpl;
    [apply unchanged_at_delete; auto | apply unchanged_at_refl].
Qed.

Lemma preserves_backup_file path q : preserves (unchanged_at true path q) (_backup_file path).
Proof.
  intros s. destruct (backup_file_cases path s) as [-> | (b & _ & _ & ->)]; simpl.
  - apply unchanged_at_refl.
  - apply unchanged_at_insert. auto.
Qed.

Lemma preserves_add_to_history w path q o p b c :
  preserves (unchanged_at w path q) (_add_to_history o p b c).
Proof. intros s. rewrite add_to_history_run. apply unchanged_at_set_history. Qed.

Lemma preserves_read_text R p :
  (forall s, R s s) -> preserves R (read_text p).
Proof.
  intros Hr s. unfold read_text, bind, syscall_guard, read_bytes.
  destruct (os_fault (world s) (SysReadText p)); simpl; [apply Hr|].
  destruct (files (world s) !! p) as [b |]; simpl; [|apply Hr].
  destruct (utf8_valid b); apply Hr.
Qed.

Lemma preserves_path_exists R p :
  (forall s, R s s) -> preserves R (path_exists p).
Proof. intros Hr s. apply Hr. Qed.

Lemma preserves_copy2 w path q src :
  preserves (unchanged_at w path q) (copy2 src path).
Proof.
  intros s. unfold copy2, bind, syscall_guard, read_bytes, modify.
  destruct (os_fault (world s) (SysCopy src path)); simpl; [apply unchanged_at_refl|].
  destruct (files (world s) !! src); simpl; [|apply unchanged_at_refl].
  destruct (String.eqb src path); simpl;
    [apply unchanged_at_refl | apply unchanged_at_insert; auto].
Qed.

Ltac unchanged w path q :=
  repeat first
    [ progress intros
    | apply preserves_backup_file
    | apply preserves_write_text
    | apply preserves_unlink
    | apply preserves_copy2
    | apply preserves_add_to_history
    | apply preserves_read_text, unchanged_at_refl
    | apply preserves_path_exists, unchanged_at_refl
    | apply preserves_guard, unchanged_at_refl
    | apply preserves_gets, unchanged_at_refl
    | apply preserves_ret, unchanged_at_refl
    | apply preserves_raise, unchanged_at_refl
    | apply preserves_if
    | apply (preserves_try _ (unchanged_at_trans w path q))
    | apply (preserves_bind _ (unchanged_at_trans w path q)) ].

Lemma write_file_footprint path content b q :
  preserves (unchanged_at true path q) (write_file path content b).
Proof. unfold write_file, mkdir_parents. unchanged true path q. Qed.

Lemma remove_file_footprint path b q :
  preserves (unchanged_at true path q) (remove_file path b).
Proof. unfold remove_file. unchanged true path q. Qed.

Lemma reverse_op_footprint last_op q :
  preserves (unchanged_at false (op_file_path last_op) q) (reverse_op last_op).
Proof. unfold reverse_op, restore_saved. unchanged false (op_file_path last_op) q. Qed.

(** X1.  Every operation changes at most the files of its footprint: a
    write or a removal touches nothing but its target and the snapshot
    name of the target, an undo nothing but the file of the record it
    pops, a reset of the history no file at all.  This holds whether the
    operation returns or raises. *)
Theorem mutation_changes_only_its_footprint m s q :
  q ∉ mutation_footprint m s ->
  files (world (fst (run_mutation m s))) !! q = files (world s) !! q.
Proof.
  intros Hq. destruct m as [path content b | path b | |]; simpl in *.
  - apply write_file_footprint.
    + intros ->. apply Hq. set_solver.
    + intros _ ->. apply Hq. set_solver.
  - apply remove_file_footprint.
    + intros ->. apply Hq. set_solver.
    + intros _ ->. apply Hq. set_solver.
  - destruct (list_pop (operation_history s)) as [[front r] |] eqn:E.
    + rewrite (undo_run_pop _ _ _ E).
      pose proof (reverse_op_footprint r q (set_history (fun _ => front) s)) as [_ H].
      destruct (reverse_op r (set_history (fun _ => front) s)) as [s1 [[] | e]];
        simpl in *; apply H; try discriminate; intros ->; apply Hq; set_solver.
    + now rewrite (undo_run_empty _ E).
  - reflexivity.
Qed.

Lemma mutation_changes_only_its_footprint_witness :
  let s := state_with {[ "a.txt" := "v1"; "b.txt" := "keep" ]} default_config in
  files (world (fst (run_mutation (MWrite "a.txt" "v2" None) s))) !! "b.txt" = Some "keep" /\
  files (world (fst (run_mutation (MWrite "a.txt" "v2" None) s))) !! "a.txt" = Some "v2".
Proof.
  intros s. split; [|vm_compute; reflexivity].
  rewrite (mutation_changes_only_its_footprint (MWrite "a.txt" "v2" None) s "b.txt").
  - reflexivity.
  - vm_compute. intros H. repeat (apply elem_of_cons in H as [H | H]; [discriminate|]).
    now apply elem_of_nil in H.
Defined.

(** ** A write or a removal that fails *)

Lemma bind_inv_raised {St A B} (m : M St A) (k : A -> M St B) s s' e :
  bind m k s = (s', Raised e) ->
  m s = (s', Raised e) \/ exists s1 a, m s = (s1, Returned a) /\ k a s1 = (s', Raised e).
Proof.
  unfold bind. destruct (m s) as [s1 [a | e1]]; intros H; [right; eauto | left].
  now injection H as -> ->.
Qed.

Lemma guard_raised_state c s s' e : syscall_guard c s = (s', Raised e) -> s' = s.
Proof.
  unfold syscall_guard. destruct (os_fault (world s) c); [|discriminate].
  now intros [= <- _].
Qed.

Lemma read_bytes_state {s s'} p (o : outcome string) : read_bytes p s = (s', o) -> s' = s.
Proof.
  unfold read_bytes. destruct (files (world s) !! p); now intros [= <- _].
Qed.

Lemma write_text_raised_state p content s s' e :
  write_text p content s = (s', Raised e) -> s' = s.
Proof.
  unfold write_text. intros H. apply bind_inv_raised in H as [H | (s1 & [] & _ & H)].
  - now apply guard_raised_state in H.
  - discriminate.
Qed.

Lemma unlink_raised_state p s s' e : unlink p s = (s', Raised e) -> s' = s.
Proof.
  unfold unlink. intros H. apply bind_inv_raised in H as [H | (s1 & [] & Hg & H)].
  - now apply guard_raised_state in H.
  - apply guard_inv in Hg as [-> _].
    apply bind_inv_raised in H as [H | (s2 & b & _ & H)]; [|discriminate].
    now apply read_bytes_state in H.
Qed.

Lemma untouched_backup_file path : preserves (untouched_at path) (_backup_file path).
Proof.
  intros s. destruct (backup_file_cases path s) as [-> | (b & _ & Hne & ->)]; simpl.
  - apply untouched_at_refl.
  - split; [now repeat split|]. split; [|reflexivity]. simpl.
    now apply lookup_insert_ne.
Qed.

Lemma untouched_save_prior do_backup path :
  preserves (untouched_at path) (save_prior do_backup path).
Proof.
  unfold save_prior. apply preserves_if; [|apply preserves_ret, untouched_at_refl].
  apply (preserves_bind _ (untouched_at_trans path)); [apply untouched_backup_file|].
  intros bp.
  apply (preserves_bind _ (untouched_at_trans path));
    [apply preserves_read_text, untouched_at_refl|].
  intros oc. apply preserves_ret, untouched_at_refl.
Qed.

Lemma write_file_raised path content b s s' e :
  write_file path content b s = (s', Raised e) ->
  exn_cls e = FileOperationError /\ untouched_at path s s'.
Proof.
  unfold write_file, try_except.
  match goal with |- context [bind ?m ?k s] => destruct (bind m k s) as [s1 [v | e1]] eqn:Hbody end;
    [discriminate|].
  unfold raise. intros [= <- <-]. split; [reflexivity|].
  apply bind_inv_raised in Hbody as [H | (s0 & cfg & H0 & H)]; [discriminate|].
  apply gets_inv in H0 as [-> ->].
  apply bind_inv_raised in H as [H | (s0 & ex & H0 & H)]; [discriminate|].
  rewrite path_exists_run in H0. injection H0 as <- <-.
  pose proof (untouched_save_prior
                (bool_decide (is_Some (files (world s) !! path))
                 && default (backup_enabled (config s)) b) path s) as Hsave.
  apply bind_inv_raised in H as [H | (s2 & saved & H2 & H)].
  { change (save_prior (bool_decide (is_Some (files (world s) !! path))
                        && default (backup_enabled (config s)) b) path s
            = (s1, Raised e1)) in H.
    now rewrite H in Hsave. }
  change (save_prior (bool_decide (is_Some (files (world s) !! path))
                      && default (backup_enabled (config s)) b) path s
          = (s2, Returned saved)) in H2.
  rewrite H2 in Hsave. simpl in Hsave.
  apply bind_inv_raised in H as [H | (s3 & [] & H3 & H)].
  { apply guard_raised_state in H. now subst. }
  apply guard_inv in H3 as [-> _].
  apply bind_inv_raised in H as [H | (s4 & [] & H4 & H)].
  { apply write_text_raised_state in H. now subst. }
  rewrite (bind_returned _ _ _ _ _ (path_exists_run _ _)) in H.
  rewrite (bind_returned _ _ _ _ _ (add_to_history_run _ _ _ _ _)) in H.
  discriminate.
Qed.

Lemma remove_file_raised path b s s' e :
  remove_file path b s = (s', Raised e) ->
  exn_cls e = FileOperationError /\ untouched_at path s s'.
Proof.
  unfold remove_file, try_except.
  match goal with |- context [bind ?m ?k s] => destruct (bind m k s) as [s1 [v | e1]] eqn:Hbody end;
    [discriminate|].
  unfold raise. intros [= <- <-]. split; [reflexivity|].
  apply bind_inv_raised in Hbody as [H | (s0 & ex & H0 & H)]; [discriminate|].
  rewrite path_exists_run in H0. injection H0 as <- <-.
  destruct (negb _).
  { injection H as <- _. apply untouched_at_refl. }
  apply bind_inv_raised in H as [H | (s0 & cfg & H0 & H)]; [discriminate|].
  apply gets_inv in H0 as [-> ->].
  pose proof (untouched_save_prior (default (backup_enabled (config s)) b) path s) as Hsave.
  apply bind_inv_raised in H as [H | (s2 & saved & H2 & H)].
  { change (save_prior (default (backup_enabled (config s)) b) path s = (s1, Raised e1)) in H.
    now rewrite H in Hsave. }
  change (save_prior (default (backup_enabled (config s)) b) path s
          = (s2, Returned saved)) in H2.
  rewrite H2 in Hsave. simpl in Hsave.
  apply bind_inv_raised in H as [H | (s3 & [] & H3 & H)].
  { apply unlink_raised_state in H. now subst. }
  rewrite (bind_returned _ _ _ _ _ (add_to_history_run _ _ _ _ _)) in H.
  discriminate.
Qed.

Lemma save_prior_undecodable path s bytes s2 saved :
  files (world s) !! path = Some bytes ->
  utf8_valid bytes = false ->
  save_prior true path s <> (s2, Returned saved).
Proof.
  intros Hb Hv H. unfold save_prior in H.
  apply bind_inv_returned in H as (s1 & bp & Hbk & H).
  apply bind_inv_returned in H as (s1' & oc & Hrd & _).
  apply read_text_inv in Hrd as (_ & b' & Hb' & Hv' & _).
  destruct (backup_file_cases path s) as [Hc | (b & Hb2 & Hne & Hc)];
    rewrite Hc in Hbk; injection Hbk as <- <-.
  - congruence.
  - simpl in Hb'. rewrite lookup_insert_ne in Hb' by congruence. congruence.
Qed.

(** X2.  A file whose bytes are not valid UTF-8 cannot be overwritten or
    removed while the backup is on: [write_file] and [remove_file] read
    the prior content as UTF-8 text before they touch the file, the read
    fails, and the call raises [FileOperationError].  The file holds its
    bytes as before, no record is appended, and only the snapshot may
    have been made. *)
Theorem undecodable_file_blocks_backed_up_mutation m path b s bytes :
  mutation_target m = Some (path, b) ->
  files (world s) !! path = Some bytes ->
  utf8_valid bytes = false ->
  default (backup_enabled (config s)) b = true ->
  exists s' e,
    run_mutation m s = (s', Raised e) /\
    exn_cls e = FileOperationError /\
    files (world s') !! path = Some bytes /\
    operation_history s' = operation_history s /\
    forall q, q <> backup_path_of s path -> files (world s') !! q = files (world s) !! q.
Proof.
  intros Ht Hb Hv Hen.
  destruct (run_mutation m s) as [s' [r | e]] eqn:Hrun.
  - exfalso.
    destruct m as [p content b' | p b' | |]; simpl in Ht; try discriminate;
      injection Ht as -> ->; simpl in Hrun.
    + unfold write_file in Hrun. apply try_except_reraise_inv in Hrun.
      apply bind_inv_returned in Hrun as (s0 & cfg & H0 & H).
      apply gets_inv in H0 as [-> ->].
      apply bind_inv_returned in H as (s1 & ex & H1 & H).
      rewrite path_exists_run in H1. injection H1 as <- <-.
      apply bind_inv_returned in H as (s2 & saved & H2 & _).
      rewrite (exists_true _ _ _ Hb), Hen in H2. cbn [andb] in H2.
      exact (save_prior_undecodable _ _ _ _ _ Hb Hv H2).
    + unfold remove_file in Hrun. apply try_except_reraise_inv in Hrun.
      apply bind_inv_returned in Hrun as (s0 & ex & H0 & H).
      rewrite path_exists_run in H0. injection H0 as <- <-.
      rewrite (exists_true _ _ _ Hb) in H. cbn [negb] in H.
      apply bind_inv_returned in H as (s0 & cfg & H0 & H).
      apply gets_inv in H0 as [-> ->].
      apply bind_inv_returned in H as (s2 & saved & H2 & _).
      rewrite Hen in H2.
      exact (save_prior_undecodable _ _ _ _ _ Hb Hv H2).
  - exists s', e. split; [reflexivity|].
    assert (exn_cls e = FileOperationError /\ untouched_at path s s')
      as (Hcls & _ & Hf & Hh).
    { destruct m; simpl in Ht; try discriminate; injection Ht as -> ->;
        [eapply write_file_raised | eapply remove_file_raised]; exact Hrun. }
    split; [exact Hcls|]. split; [now rewrite Hf|]. split; [exact Hh|].
    intros q Hq. destruct (decide (q = path)) as [-> | Hne]; [exact Hf|].
    destruct m as [p content b' | p b' | |]; simpl in Ht; try discriminate;
      injection Ht as -> ->; simpl in Hrun.
    + pose proof (write_file_footprint path content b q s) as [_ Hfp].
      rewrite Hrun in Hfp. now apply Hfp.
    + pose proof (remove_file_footprint path b q s) as [_ Hfp].
      rewrite Hrun in Hfp. now apply Hfp.
Qed.

Lemma undecodable_file_blocks_backed_up_mutation_witness :
  let s := state_with {[ "logo.bin" := String "255"%char "PNG" ]} default_config in
  (exists s' e,
     remove_file "logo.bin" None s = (s', Raised e) /\
     exn_cls e = FileOperationError /\
     files (world s') !! "logo.bin" = Some (String "255"%char "PNG") /\
     operation_history s' = []) /\
  files (world (fst (remove_file "logo.bin" (Some false) s))) !! "logo.bin" = None.
Proof.
  intros s. split; [|vm_compute; reflexivity].
  destruct (undecodable_file_blocks_backed_up_mutation (MRemove "logo.bin" None) "logo.bin"
              None s (String "255"%char "PNG"))
    as (s' & e & Hrun & Hcls & Hf & Hh & _); try reflexivity.
  exists s', e. split; [exact Hrun|]. split; [exact Hcls|]. split; [exact Hf|]. exact Hh.
Defined.

(** ** Missing paths, switched-off backups, resets *)



Lemma write_file_unsaved path content b s :
  default (backup_enabled (config s)) b = false ->
  os_fault (world s) (SysMkdirParents path) = None ->
  os_fault (world s) (SysWriteText path) = None ->
  write_file path content b s =
  (set_history (fun h =>
     limit_history (max_history (config s))
       (h ++ [mkOp "modify" path EmptyString EmptyString (now_iso (world s))])%list)
     (set_world (set_files (insert path content)) s),
   Returned (write_payload path content None)).
Proof.
  intros Hoff Hmk Hwr. unfold write_file. apply try_except_returned.
  unfold bind at 1, gets. rewrite (bind_returned _ _ _ _ _ (path_exists_run _ _)).
  rewrite Hoff, andb_false_r. simpl. unfold bind at 1, ret.
  rewrite (bind_returned _ _ _ _ _ (mkdir_ok _ _ Hmk)).
  rewrite (bind_returned _ _ _ _ _ (write_text_ok _ _ _ Hwr)).
  rewrite (bind_returned _ _ _ _ _ (path_exists_run _ _)).
  rewrite exists_after_write.
  rewrite (bind_returned _ _ _ _ _ (add_to_history_run _ _ _ _ _)).
  reflexivity.
Qed.

(** X4.  With the backup switched off, by the argument or by the
    configured default, [write_file] makes no snapshot and saves no
    content: the only change to the files is the new content at the path.
    The undo that follows succeeds and restores nothing, so the old
    content is lost. *)
Theorem write_without_backup_then_undo path content b s :
  default (backup_enabled (config s)) b = false ->
  os_fault (world s) (SysMkdirParents path) = None ->
  os_fault (world s) (SysWriteText path) = None ->
  (0 <= max_history (config s))%Z ->
  exists s1 s2 r2,
    write_file path content b s = (s1, Returned (write_payload path content None)) /\
    files (world s1) = <[path := content]> (files (world s)) /\
    undo_last_operation s1 = (s2, Returned r2) /\
    files (world s2) = <[path := content]> (files (world s)).
Proof.
  intros Hoff Hmk Hwr Hm.
  destruct (limit_history_snoc (max_history (config s)) (operation_history s)
              (mkOp "modify" path EmptyString EmptyString (now_iso (world s))) Hm)
    as [front Hfront].
  eexists _, _, _. split; [apply (write_file_unsaved _ _ _ _ Hoff Hmk Hwr)|].
  split; [reflexivity|]. split.
  - erewrite undo_run_pop; [| simpl; rewrite Hfront; apply list_pop_snoc].
    rewrite reverse_nothing_saved. reflexivity.
  - reflexivity.
Qed.

Lemma write_without_backup_then_undo_witness :
  let s := state_with {[ "a.txt" := "v1" ]} (mkConfig false 100) in
  exists s1 s2 r2,
    write_file "a.txt" "v2" None s = (s1, Returned (write_payload "a.txt" "v2" None)) /\
    undo_last_operation s1 = (s2, Returned r2) /\
    files (world s2) = {[ "a.txt" := "v2" ]}.
Proof.
  intros s.
  destruct (write_without_backup_then_undo "a.txt" "v2" None s)
    as (s1 & s2 & r2 & Hw & _ & Hu & Hf); try reflexivity; [vm_compute; discriminate|].
  exists s1, s2, r2. split; [exact Hw|]. split; [exact Hu|].
  rewrite Hf. apply insert_singleton_eq.
Defined.

(** X5.  Resetting the history reports how many records it dropped,
    touches no file, and leaves nothing to undo: the undo that follows
    fails with the empty-history error and changes nothing, whatever had
    been recorded. *)
Theorem clear_history_then_undo s :
  clear_operation_history s =
    (set_history (fun _ => []) s,
     Returned (PDict [("success", PBool true);
                      ("cleared_operations",
                       PInt (Z.of_nat (List.length (operation_history s))))])) /\
  world (fst (clear_operation_history s)) = world s /\
  undo_last_operation (fst (clear_operation_history s)) =
    (fst (clear_operation_history s),
     Raised (Exn FileOperationError "Error undoing operation: No operations to undo")).
Proof.
  split; [reflexivity|]. split; [reflexivity|].
  now apply undo_run_empty.
Qed.

(** ** Undoing again and again *)

Lemma undo_history_take s :
  operation_history (fst (undo_last_operation s)) =
  take (List.length (operation_history s) - 1) (operation_history s).
Proof.
  pose proof (undo_history s) as (_ & _ & H).
  destruct (list_pop (operation_history s)) as [[front r] |] eqn:E.
  - rewrite H. apply list_pop_app in E. rewrite E, length_app. simpl.
    replace (List.length front + 1 - 1)%nat with (List.length front) by lia.
    now rewrite take_app_length.
  - rewrite H. apply list_pop_None in E. now rewrite E.
Qed.

(** X6.  Repeated undos walk back through the history one record at a
    time, whether or not each reversal succeeds: after [n] calls the
    history is the first [length - n] records it held, and after as many
    calls as there were records it is empty. *)
Theorem repeated_undo_walks_back n s :
  operation_history (run_mutations (replicate n MUndo) s) =
    take (List.length (operation_history s) - n) (operation_history s) /\
  (List.length (operation_history s) <= n ->
   operation_history (run_mutations (replicate n MUndo) s) = []).
Proof.
  assert (forall n s, operation_history (run_mutations (replicate n MUndo) s) =
            take (List.length (operation_history s) - n) (operation_history s)) as Hgen.
  { clear. induction n as [| n IH]; intros s; simpl.
    - rewrite Nat.sub_0_r. now rewrite take_ge by lia.
    - rewrite IH, undo_history_take, length_take, take_take. f_equal. lia. }
  split; [apply Hgen|]. intros Hle. rewrite Hgen.
  replace (List.length (operation_history s) - n)%nat with 0%nat by lia. reflexivity.
Qed.

Lemma repeated_undo_walks_back_witness :
  let s := run_mutations [MWrite "a" "1" None; MWrite "b" "2" None; MWrite "c" "3" None]
             state0 in
  map op_file_path (operation_history s) = ["a"; "b"; "c"] /\
  map op_file_path (operation_history (run_mutations (replicate 1 MUndo) s)) = ["a"; "b"] /\
  operation_history (run_mutations (replicate 3 MUndo) s) = [].
Proof.
  intros s. split; [vm_compute; reflexivity|]. split.
  - destruct (repeated_undo_walks_back 1 s) as [H _]. rewrite H. vm_compute. reflexivity.
  - destruct (repeated_undo_walks_back 3 s) as [_ H]. apply H. vm_compute. lia.
Defined.

(** ** Snapshots *)


(** X8.  The snapshot name depends on the base name of the file and the
    second of the clock only.  Two files with the same base name, backed
    up within the same second, get the same reference, and the second
    snapshot replaces the first: the reference that was handed out for the
    first file then holds the bytes of the second. *)
Theorem snapshots_of_equal_basenames_collide p q s bp bq :
  basename p = basename q ->
  p <> q ->
  files (world s) !! p = Some bp ->
  files (world s) !! q = Some bq ->
  os_fault (world s) (SysCopy p (backup_path_of s p)) = None ->
  os_fault (world s) (SysCopy q (backup_path_of s q)) = None ->
  p <> backup_path_of s p ->
  q <> backup_path_of s q ->
  exists s1 s2 r,
    _backup_file p s = (s1, Returned r) /\
    _backup_file q s1 = (s2, Returned r) /\
    files (world s1) !! r = Some bp /\
    files (world s2) !! r = Some bq.
Proof.
  intros Hbase Hpq Hp Hq Hfp Hfq Hnp Hnq.
  assert (backup_path_of s p = backup_path_of s q) as Heq
    by (unfold backup_path_of; now rewrite Hbase).
  eexists _, _, _. split; [apply (backup_file_ok _ _ _ Hp Hfp Hnp)|].
  split.
  - rewrite Heq. erewrite backup_file_ok; [reflexivity | | exact Hfq | exact Hnq].
    simpl. rewrite lookup_insert_ne by (rewrite <- Heq; congruence). exact Hq.
  - split; simpl.
    + apply lookup_insert_eq.
    + rewrite Heq. apply lookup_insert_eq.
Qed.

Lemma snapshots_of_equal_basenames_collide_witness :
  let s := state_with {[ "x/a.txt" := "from x"; "y/a.txt" := "from y" ]} default_config in
  (exists s1 s2 r,
     _backup_file "x/a.txt" s = (s1, Returned r) /\
     _backup_file "y/a.txt" s1 = (s2, Returned r) /\
     files (world s1) !! r = Some "from x" /\
     files (world s2) !! r = Some "from y") /\
  files (world (run_mutations [MWrite "x/a.txt" "new x" None; MWrite "y/a.txt" "new y" None;
                               MUndo; MUndo] s)) !! "x/a.txt" = Some "from y".
Proof.
  intros s. split; [|vm_compute; reflexivity].
  apply (snapshots_of_equal_basenames_collide "x/a.txt" "y/a.txt" s "from x" "from y");
    try reflexivity; vm_compute; discriminate.
Defined.

(** ** Reading *)

(** X9.  [read_file] does not fail on the encoding.  For a file that
    exists and can be read, it returns success and leaves the state alone;
    the content is the UTF-8 text of the file or, when the bytes are not
    valid UTF-8, their Latin-1 reading; the metadata give the size in
    bytes, one more line than the content has line feeds, and the language
    found for the lower-cased suffix. *)
Theorem read_file_falls_back_to_latin1 path s bytes :
  files (world s) !! path = Some bytes ->
  os_fault (world s) (SysStat path) = None ->
  os_fault (world s) (SysReadText path) = None ->
  exists content meta,
    read_file path s =
      (s, Returned (PDict [("success", PBool true); ("file_path", PStr path);
                           ("content", PStr content); ("metadata", PDict meta)])) /\
    content = (if utf8_valid bytes then universal_newlines bytes
               else universal_newlines (latin1_decode bytes)) /\
    dict_get "size" meta = Some (PInt (Z.of_nat (String.length bytes))) /\
    dict_get "lines" meta = Some (PInt (Z.of_nat (count_lf content + 1))) /\
    dict_get "language" meta =
      Some (PStr (language_of supported_extensions (lower (suffix path)))).
Proof.
  intros Hb Hst Hrd.
  assert (try_except_only [UnicodeDecodeError] (read_text path)
            (fun _ => read_text_latin1 path) s =
          (s, Returned (if utf8_valid bytes then universal_newlines bytes
                        else universal_newlines (latin1_decode bytes)))) as Hcontent.
  { unfold try_except_only. destruct (utf8_valid bytes) eqn:Hv.
    - now rewrite (read_text_ok _ _ _ Hrd Hb Hv).
    - rewrite (read_text_undecodable _ _ _ Hrd Hb Hv). simpl.
      unfold read_text_latin1.
      rewrite (bind_returned _ _ _ _ _ (guard_ok _ _ Hrd)).
      now rewrite (bind_returned _ _ _ _ _ (read_bytes_ok _ _ _ Hb)). }
  eexists _, _. split; [|split; [reflexivity|]].
  - unfold read_file. apply try_except_returned.
    rewrite (bind_returned _ _ _ _ _ (path_exists_run _ _)).
    rewrite (exists_true _ _ _ Hb). simpl.
    rewrite (bind_returned _ _ _ _ _ (stat_ok _ _ _ Hst Hb)).
    rewrite (bind_returned _ _ _ _ _ Hcontent).
    reflexivity.
  - split; [reflexivity|]. split; [|reflexivity].
    simpl. unfold split_lines. now rewrite split_lines_from_length.
Qed.

Lemma read_file_falls_back_to_latin1_witness :
  let s := state_with {[ "caf.txt" := String "233"%char (String LF "x") ]} default_config in
  exists content meta,
    read_file "caf.txt" s =
      (s, Returned (PDict [("success", PBool true); ("file_path", PStr "caf.txt");
                           ("content", PStr content); ("metadata", PDict meta)])) /\
    content = String "195"%char (String "169"%char (String LF "x")) /\
    dict_get "lines" meta = Some (PInt 2) /\
    dict_get "language" meta = Some (PStr "text").
Proof.
  intros s.
  destruct (read_file_falls_back_to_latin1 "caf.txt" s (String "233"%char (String LF "x")))
    as (content & meta & Hrun & -> & _ & Hl & Hlang); try reflexivity.
  eexists _, meta. split; [exact Hrun|]. split; [reflexivity|].
  split; [exact Hl | exact Hlang].
Defined.

(** ** Searching, continued *)

(** X10.  [search_files] changes nothing, whatever its arguments and
    whether it returns or raises: no file, no record, no setting. *)
Theorem search_files_changes_nothing re directory pattern ext cpat s :
  fst (search_files re directory pattern ext cpat s) = s.
Proof.
  assert (read_only (search_files re directory pattern ext cpat)) as H; [|apply H].
  unfold search_files. apply read_only_try; [|intros; apply read_only_raise].
  apply read_only_bind; [unfold dir_exists, path_exists, rglob; read_only|].
  intros ex. apply read_only_if; [apply read_only_raise|].
  apply read_only_bind; [unfold rglob; read_only|]. intros walk.
  apply read_only_bind; [|intros; apply read_only_ret].
  apply read_only_for_collect. apply read_only_search_one.
Qed.

Lemma lower_ascii_idem c : lower_ascii (lower_ascii c) = lower_ascii c.
Proof. destruct c as [[] [] [] [] [] [] [] []]; reflexivity. Qed.

Lemma lower_idem s : lower (lower s) = lower s.
Proof. induction s as [| c s IH]; simpl; [reflexivity|]. now rewrite lower_ascii_idem, IH. Qed.

Lemma search_one_filters re pattern ext cpat path s s' entry :
  search_one re pattern ext cpat path s = (s', Returned (Some entry)) ->
  exists bytes,
    pyval_get "file_path" entry = Some (PStr path) /\
    files (world s) !! path = Some bytes /\
    pyval_get "size" entry = Some (PInt (Z.of_nat (String.length bytes))) /\
    pyval_get "extension" entry = Some (PStr (lower (suffix path))) /\
    (truthy ext = true -> lower (suffix path) = ext) /\
    (truthy pattern = true -> re_search re pattern (basename path) = Returned true).
Proof.
  intros H.
  pose proof (read_only_search_one re pattern ext cpat path s) as Hs.
  rewrite H in Hs. simpl in Hs. subst s'.
  unfold search_one in H.
  apply bind_inv_returned in H as (s1 & isf & H1 & H).
  unfold is_file in H1. rewrite path_exists_run in H1. injection H1 as <- <-.
  destruct (files (world s) !! path) as [bytes |] eqn:Hb; cycle 1.
  { rewrite bool_decide_eq_false_2 in H by (intros [? ?]; discriminate).
    apply ret_inv in H as [_ [=]]. }
  rewrite bool_decide_eq_true_2 in H by eauto. simpl in H.
  assert (truthy ext = true -> lower (suffix path) = ext) as Hext.
  { intros Ht. rewrite Ht in H. simpl in H.
    destruct (String.eqb_spec (lower (suffix path)) ext) as [E | _]; [exact E|].
    simpl in H. apply ret_inv in H as [_ [=]]. }
  destruct (truthy ext && _); [apply ret_inv in H as [_ [=]]|].
  apply bind_inv_returned in H as (s2 & name_ok & H2 & H).
  assert (s2 = s) as ->.
  { assert (read_only (if truthy pattern
                       then lift_outcome (re_search re pattern (basename path))
                       else ret true)) as Hr by read_only.
    specialize (Hr s). now rewrite H2 in Hr. }
  destruct name_ok; simpl in H; [|apply ret_inv in H as [_ [=]]].
  assert (truthy pattern = true -> re_search re pattern (basename path) = Returned true)
    as Hpat.
  { intros Ht. rewrite Ht in H2. unfold lift_outcome in H2. now injection H2. }
  apply bind_inv_returned in H as (s3 & st & H3 & H).
  pose proof (stat_inv _ _ _ _ H3) as ->.
  assert (fst st = String.length bytes) as Hsize.
  { unfold stat in H3. apply bind_inv_returned in H3 as (s4 & [] & Hg & H3).
    apply guard_inv in Hg as [-> _].
    rewrite (bind_returned _ _ _ _ _ (read_bytes_ok _ _ _ Hb)) in H3.
    unfold bind, gets, ret in H3. now injection H3 as <-. }
  exists bytes.
  destruct (truthy cpat).
  - unfold try_except_only in H.
    match type of H with
    | context [bind (read_text path) ?k s] =>
        destruct (bind (read_text path) k s) as [s4 [res | e]] eqn:Hbody
    end.
    + injection H as _ ->.
      apply bind_inv_returned in Hbody as (s5 & content & _ & Hbody).
      apply bind_inv_returned in Hbody as (s6 & matches & _ & Hbody).
      destruct matches as [| m0 ms]; [apply ret_inv in Hbody as [_ [=]]|].
      apply ret_inv in Hbody as [_ [= ->]].
      simpl. rewrite Hsize. repeat split; auto.
    + destruct (existsb _ _); [apply ret_inv in H as [_ [=]] | discriminate].
  - apply ret_inv in H as [_ [= ->]]. simpl. rewrite Hsize. repeat split; auto.
Qed.

(** X11.  Every entry that a successful search returns names a file below
    the directory that passes the filters given: its lower-cased suffix
    equals the extension filter, and the name pattern was found in its
    base name.  Because the suffix is lower-cased and the filter is not,
    an extension filter that holds an upper-case letter matches no file at
    all. *)
Theorem search_results_pass_the_filters re directory pattern ext cpat s s' r :
  search_files re directory pattern ext cpat s = (s', Returned r) ->
  exists results,
    r = PDict [("success", PBool true);
               ("results", PList results);
               ("total_files", PInt (Z.of_nat (List.length results)))] /\
    Forall (passes_filters re directory pattern ext s) results /\
    (lower ext <> ext -> results = []).
Proof.
  intros H. unfold search_files in H. apply try_except_reraise_inv in H.
  apply bind_inv_returned in H as (s1 & ex & H1 & H).
  assert (s1 = s) as ->.
  { assert (read_only (dir_exists directory)) as Hr
      by (unfold dir_exists, path_exists, rglob; read_only).
    specialize (Hr s). now rewrite H1 in Hr. }
  destruct (negb ex); [discriminate|].
  apply bind_inv_returned in H as (s2 & walk & H2 & H).
  unfold rglob in H2. apply gets_inv in H2 as [-> ->].
  apply bind_inv_returned in H as (s3 & results & H3 & H).
  apply ret_inv in H as [_ ->].
  apply for_collect_inv in H3; [|apply read_only_search_one].
  assert (Forall (passes_filters re directory pattern ext s) results) as Hpass.
  { eapply Forall_impl; [exact H3|]. intros entry (x & Hin & Hx).
    apply filter_In in Hin as [_ Hpre].
    apply search_one_filters in Hx as (bytes & Hp & Hb & Hsz & Hex & Hext & Hpat).
    exists x, bytes. repeat split; assumption. }
  exists results. split; [reflexivity|]. split; [exact Hpass|].
  intros Hne. destruct results as [| entry rest]; [reflexivity|].
  apply Forall_inv in Hpass as (path & bytes & _ & _ & _ & _ & _ & Hext & _).
  exfalso. apply Hne.
  assert (truthy ext = true) as Ht.
  { destruct ext; [now simpl in Hne | reflexivity]. }
  rewrite <- (Hext Ht). apply lower_idem.
Qed.

Lemma search_results_pass_the_filters_witness :
  let s := state_with search_tree default_config in
  (exists results,
     search_files literal_re "d" "" ".py" "" s =
       (s, Returned (PDict [("success", PBool true); ("results", PList results);
                            ("total_files", PInt 1)])) /\
     Forall (passes_filters literal_re "d" "" ".py" s) results) /\
  search_files literal_re "d" "" ".PY" "" s =
    (s, Returned (PDict [("success", PBool true); ("results", PList []);
                         ("total_files", PInt 0)])).
Proof.
  intros s. split.
  - assert (exists s' r, search_files literal_re "d" "" ".py" "" s = (s', Returned r))
      as (s' & r & Hrun) by (eexists _, _; vm_compute; reflexivity).
    destruct (search_results_pass_the_filters literal_re "d" "" ".py" "" s s' r Hrun)
      as (results & -> & Hpass & _).
    exists results. split; [|exact Hpass].
    assert (s' = s /\ List.length results = 1%nat) as [-> Hlen].
    { vm_compute in Hrun. now injection Hrun as <- <-. }
    rewrite Hrun, Hlen. reflexivity.
  - assert (exists s' r, search_files literal_re "d" "" ".PY" "" s = (s', Returned r))
      as (s' & r & Hrun) by (eexists _, _; vm_compute; reflexivity).
    destruct (search_results_pass_the_filters literal_re "d" "" ".PY" "" s s' r Hrun)
      as (results & -> & _ & Hnone).
    rewrite (Hnone ltac:(vm_compute; discriminate)) in Hrun.
    assert (s' = s) as -> by (vm_compute in Hrun; now injection Hrun as <-).
    exact Hrun.
Defined.

Lemma for_collect_all {A B} (body : A -> M State (option B)) (f : A -> B) l s :
  (forall x, In x l -> body x s = (s, Returned (Some (f x)))) ->
  for_collect body l s = (s, Returned (map f l)).
Proof.
  induction l as [| x l IH]; intros H; simpl; [reflexivity|].
  rewrite (bind_returned _ _ _ _ _ (H x (or_introl eq_refl))).
  rewrite (bind_returned _ _ _ _ _ (IH (fun y Hy => H y (or_intror Hy)))).
  reflexivity.
Qed.

Lemma search_one_plain re path s b :
  files (world s) !! path = Some b ->
  os_fault (world s) (SysStat path) = None ->
  search_one re "" "" "" path s = (s, Returned (Some (plain_entry s path))).
Proof.
  intros Hb Hst. unfold search_one, is_file.
  rewrite (bind_returned _ _ _ _ _ (path_exists_run _ _)).
  rewrite (exists_true _ _ _ Hb).
  cbn [negb truthy String.eqb andb].
  rewrite (bind_returned _ _ _ _ _ (eq_refl : ret true s = (s, Returned true))).
  cbn [negb].
  rewrite (bind_returned _ _ _ _ _ (stat_ok _ _ _ Hst Hb)).
  unfold plain_entry. rewrite Hb. reflexivity.
Qed.

Lemma NoDup_bool_filter {A} (f : A -> bool) (l : list A) :
  NoDup l -> NoDup (List.filter f l).
Proof.
  induction 1 as [| x l Hx Hl IH]; simpl; [constructor|].
  destruct (f x); [|exact IH].
  constructor; [|exact IH].
  intros Hin. apply Hx. apply list_elem_of_In in Hin. apply filter_In in Hin as [Hin _].
  now apply list_elem_of_In.
Qed.

(** X12.  A search without filters lists every tracked file below the
    directory, each one once, with its name, lower-cased suffix and size
    in bytes, and [total_files] is their number. *)
Theorem plain_search_lists_every_file re directory s :
  walk_of s directory <> [] ->
  (forall p, In p (walk_of s directory) -> os_fault (world s) (SysStat p) = None) ->
  search_files re directory "" "" "" s =
    (s, Returned
          (PDict [("success", PBool true);
                  ("results", PList (map (plain_entry s) (walk_of s directory)));
                  ("total_files",
                   PInt (Z.of_nat (List.length
                                     (map (plain_entry s) (walk_of s directory)))))])) /\
  NoDup (walk_of s directory) /\
  (forall p, In p (walk_of s directory) <->
             is_Some (files (world s) !! p) /\
             String.prefix (directory +:+ "/") p = true).
Proof.
  intros Hne Hst. split; [|split].
  - unfold search_files. apply try_except_returned.
    erewrite bind_returned; cycle 1.
    { unfold dir_exists. rewrite (bind_returned _ _ _ _ _ (path_exists_run _ _)).
      unfold rglob. unfold bind, gets. reflexivity. }
    fold (walk_of s directory).
    rewrite (bool_decide_eq_false_2 (walk_of s directory = [])) by exact Hne.
    rewrite orb_true_r. simpl.
    unfold rglob. unfold bind at 1, gets. fold (walk_of s directory).
    erewrite bind_returned; cycle 1.
    { apply (for_collect_all _ (plain_entry s)). intros p Hp.
      pose proof Hp as Hp'. apply walk_of_spec in Hp' as [[b Hb] _].
      apply (search_one_plain _ _ _ _ Hb (Hst p Hp)). }
    reflexivity.
  - unfold walk_of. apply NoDup_bool_filter, NoDup_fst_map_to_list.
  - intros p. apply walk_of_spec.
Qed.

Lemma plain_search_lists_every_file_witness :
  let s := state_with search_tree default_config in
  exists l,
    walk_of s "d" = l /\ List.length l = 2%nat /\
    search_files literal_re "d" "" "" "" s =
      (s, Returned (PDict [("success", PBool true);
                           ("results", PList (map (plain_entry s) l));
                           ("total_files", PInt 2)])).
Proof.
  intros s. exists (walk_of s "d"). split; [reflexivity|].
  assert (List.length (walk_of s "d") = 2%nat) as Hlen by (vm_compute; reflexivity).
  split; [exact Hlen|].
  destruct (plain_search_lists_every_file literal_re "d" s) as (Hrun & _ & _).
  - intros H. rewrite H in Hlen. discriminate Hlen.
  - intros p _. reflexivity.
  - rewrite Hrun, length_map, Hlen. reflexivity.
Defined.

(** ** The dispatcher, continued *)

(** X13.  When every required parameter of a registered tool is among the
    arguments, [execute_tool] calls the handler and hands back what the
    handler returns, result and state, unchanged. *)
Theorem handler_result_passes_through {St} (tools : gmap string (Tool St))
  name tool kwargs (s s1 : St) v :
  tools !! name = Some tool ->
  (forall p info, In (p, info) (t_parameters tool) -> p_required info = true ->
                  is_Some (kwargs !! p)) ->
  t_function tool kwargs s = (s1, Returned v) ->
  execute_tool tools name kwargs s = (s1, Returned v).
Proof.
  intros Ht Hreq Hrun. unfold execute_tool.
  rewrite Ht, (first_missing_None_intro _ _ Hreq).
  now apply try_except_returned.
Qed.

Lemma handler_result_passes_through_witness :
  execute_tool counting_tools "probe" {[ "path" := PStr "a.txt" ]} 0%nat =
    (1%nat, Returned (PDict [("success", PBool true)])).
Proof.
  apply (handler_result_passes_through counting_tools "probe" counting_tool).
  - reflexivity.
  - intros p info [[= <- <-] | []] _. rewrite lookup_singleton_eq. eauto.
  - reflexivity.
Defined.

(** X14.  The validation looks at which arguments are present, not at
    their values: two argument mappings with the same keys are told the
    same missing parameter, or none.  A required parameter passed as
    [None] is therefore accepted and the handler is called. *)
Theorem validation_looks_at_presence_only params (kwargs kwargs' : gmap string pyval) :
  (forall k, is_Some (kwargs !! k) <-> is_Some (kwargs' !! k)) ->
  first_missing params kwargs = first_missing params kwargs'.
Proof.
  intros Hsame. induction params as [| [p info] params IH]; simpl; [reflexivity|].
  rewrite IH. now rewrite (bool_decide_ext _ _ (Hsame p)).
Qed.

Lemma validation_looks_at_presence_only_witness :
  first_missing (t_parameters counting_tool) {[ "path" := PNone ]} = None /\
  fst (execute_tool counting_tools "probe" {[ "path" := PNone ]} 0%nat) = 1%nat.
Proof.
  split; [|vm_compute; reflexivity].
  rewrite (validation_looks_at_presence_only _ {[ "path" := PNone ]}
             {[ "path" := PStr "a.txt" ]}); [reflexivity|].
  intros k. destruct (decide (k = "path")) as [-> | Hne].
  - rewrite !lookup_singleton_eq. split; eauto.
  - rewrite !lookup_singleton_ne by congruence. reflexivity.
Defined.

(** ** The file tools behind the dispatcher *)

Lemma bind_call_ok {St} required optional (kwargs : gmap string pyval) (s : St) :
  (forall k, is_Some (kwargs !! k) -> In k (required ++ optional)) ->
  (forall k, In k required -> is_Some (kwargs !! k)) ->
  bind_call required optional kwargs s = (s, Returned tt).
Proof.
  intros Hall Hreq. unfold bind_call.
  assert (forallb (fun k => str_in k (required ++ optional)) (map fst (map_to_list kwargs))
          = true) as ->.
  { apply forallb_forall. intros k Hk.
    apply list_elem_of_In, list_elem_of_fmap in Hk as ([k' v] & -> & Hkv).
    apply elem_of_map_to_list in Hkv. simpl.
    unfold str_in. apply existsb_exists. exists k'. split; [|apply String.eqb_refl].
    apply Hall. eauto. }
  assert (forallb (fun k => bool_decide (is_Some (kwargs !! k))) required = true) as ->.
  { apply forallb_forall. intros k Hk. apply bool_decide_eq_true. now apply Hreq. }
  reflexivity.
Qed.

Lemma handler_guard_never_raises {St} (body : M St pyval) h s :
  try_except (handler_guard body) h s = handler_guard body s.
Proof.
  unfold handler_guard, try_except. now destruct (body s) as [s1 [v | e]].
Qed.

(** X15.  Through the registry, [fs_write] backs up unless told otherwise:
    called with a path and a content and no [backup] argument, it runs
    [write_file] with [create_backup=True], so the configured default
    [preferences.backup_enabled] is never consulted; and whatever
    [write_file] raises comes back as an error result. *)
Theorem fs_write_backs_up_by_default re kwargs path content s :
  kwargs !! "path" = Some (PStr path) ->
  kwargs !! "content" = Some (PStr content) ->
  (forall k, is_Some (kwargs !! k) -> k = "path" \/ k = "content") ->
  execute_tool (file_tools re) "fs_write" kwargs s =
    handler_guard (write_file path content (Some true)) s /\
  returns_result (execute_tool (file_tools re) "fs_write" kwargs s).
Proof.
  intros Hp Hc Honly.
  assert (kwargs !! "backup" = None) as Hb.
  { destruct (kwargs !! "backup") eqn:E; [|reflexivity].
    destruct (Honly "backup") as [? | ?]; [eauto | discriminate | discriminate]. }
  assert (execute_tool (file_tools re) "fs_write" kwargs s =
          handler_guard (write_file path content (Some true)) s) as Hrun.
  { assert (_fs_write kwargs s = handler_guard (write_file path content (Some true)) s)
      as Hbody.
    { unfold _fs_write.
      rewrite (bind_returned _ _ _ _ _
                 (bind_call_ok ["path"; "content"] ["backup"] kwargs s
                    ltac:(intros k Hk; destruct (Honly k Hk) as [-> | ->]; simpl; auto)
                    ltac:(intros k [<- | [<- | []]]; eauto))).
      unfold handler_guard, try_except, arg_str, arg_backup, bind, ret.
      rewrite Hp, Hc, Hb. reflexivity. }
    unfold execute_tool, file_tools. rewrite lookup_insert_eq.
    cbn [t_parameters t_function].
    rewrite first_missing_None_intro.
    - change (try_except (_fs_write kwargs)
                (fun e => ret (error_dict ("Tool execution failed: " +:+ exn_msg e))) s
              = handler_guard (write_file path content (Some true)) s).
      unfold try_except at 1. rewrite Hbody.
      unfold handler_guard, try_except.
      now destruct (write_file path content (Some true) s) as [s1 [v | e]].
    - intros p info [[= <- <-] | [[= <- <-] | [[= <- <-] | []]]] Hr;
        [eauto | eauto | discriminate]. }
  split; [exact Hrun|]. rewrite Hrun.
  unfold returns_result, handler_guard, try_except.
  destruct (write_file path content (Some true) s) as [s1 [v | e]]; eexists; reflexivity.
Qed.

Lemma fs_write_backs_up_by_default_witness :
  let s := state_with {[ "a.txt" := "v1" ]} (mkConfig false 100) in
  let kwargs : gmap string pyval := {[ "path" := PStr "a.txt"; "content" := PStr "v2" ]} in
  execute_tool (file_tools literal_re) "fs_write" kwargs s =
    handler_guard (write_file "a.txt" "v2" (Some true)) s /\
  files (world (fst (execute_tool (file_tools literal_re) "fs_write" kwargs s)))
    !! "/backups/a.txt.backup_20240101_120000" = Some "v1" /\
  files (world (fst (write_file "a.txt" "v2" None s)))
    !! "/backups/a.txt.backup_20240101_120000" = None.
Proof.
  intros s kwargs.
  destruct (fs_write_backs_up_by_default literal_re kwargs "a.txt" "v2" s) as [Hrun _].
  - reflexivity.
  - reflexivity.
  - intros k [v Hk]. unfold kwargs in Hk.
    destruct (decide (k = "path")) as [-> | H1]; [now left|].
    destruct (decide (k = "content")) as [-> | H2]; [now right|].
    rewrite lookup_insert_ne in Hk by congruence.
    rewrite lookup_singleton_ne in Hk by congruence. discriminate.
  - split; [exact Hrun|]. split; [rewrite Hrun|]; vm_compute; reflexivity.
Defined.

(** ** The shell tool *)

Lemma lower_app a b : lower (a +:+ b) = lower a +:+ lower b.
Proof. induction a as [| c a IH]; simpl; [reflexivity|]. now rewrite IH. Qed.

Lemma prefix_app_r d y z : String.prefix d y = true -> String.prefix d (y +:+ z) = true.
Proof.
  revert d. induction y as [| c' y IH]; intros [| c d] H; simpl in *.
  - now destruct z.
  - discriminate.
  - reflexivity.
  - destruct (Ascii.ascii_dec c c'); [now apply IH | discriminate].
Qed.

Lemma substring_in_app_r d y z : substring_in d y = true -> substring_in d (y +:+ z) = true.
Proof.
  induction y as [| c y IH]; simpl; intros H.
  - rewrite orb_false_r in H. destruct d; [|discriminate].
    destruct z; reflexivity.
  - apply orb_true_iff in H as [H | H]; apply orb_true_iff.
    + left. apply (prefix_app_r d (String c y) z H).
    + right. now apply IH.
Qed.

Lemma substring_in_app_l d x y : substring_in d y = true -> substring_in d (x +:+ y) = true.
Proof.
  intros H. induction x as [| c x IH]; simpl; [exact H|].
  rewrite IH. apply orb_true_r.
Qed.

Lemma is_dangerous_embedded a c b :
  is_dangerous c = true -> is_dangerous (a +:+ c +:+ b) = true.
Proof.
  unfold is_dangerous. intros H.
  apply existsb_exists in H as (d & Hin & Hd).
  apply existsb_exists. exists d. split; [exact Hin|].
  rewrite !lower_app. now apply substring_in_app_l, substring_in_app_r.
Qed.

(** X16.  The security check of the shell tool is a test for substrings of
    the lower-cased command.  A command that is blocked stays blocked
    inside any longer command and in any mix of upper and lower case, and
    a blocked command never reaches the shell: the result is the error,
    and the state of the platform is untouched. *)
Theorem dangerous_command_never_runs {St} (sp : subprocess_module St)
  a c c' b cwd timeout (s : St) :
  is_dangerous c = true ->
  lower c' = lower c ->
  _shell_exec sp (a +:+ c' +:+ b) cwd timeout s =
    (s, Returned (error_dict "Dangerous command detected and blocked")).
Proof.
  intros Hd Hcase. unfold _shell_exec.
  assert (is_dangerous (a +:+ c' +:+ b) = true) as ->; [|reflexivity].
  apply is_dangerous_embedded. unfold is_dangerous in *. now rewrite Hcase.
Qed.

Lemma dangerous_command_never_runs_witness :
  _shell_exec counting_shell "sudo RM -RF / --no-preserve-root" None 30 0%nat =
    (0%nat, Returned (error_dict "Dangerous command detected and blocked")) /\
  _shell_exec counting_shell "git format-patch -1" None 30 0%nat =
    (0%nat, Returned (error_dict "Dangerous command detected and blocked")) /\
  fst (_shell_exec counting_shell "ls -la" None 30 0%nat) = 1%nat.
Proof.
  split; [|split].
  - apply (dangerous_command_never_runs counting_shell "sudo " "rm -rf" "RM -RF"
             " / --no-preserve-root" None 30 0%nat); reflexivity.
  - apply (dangerous_command_never_runs counting_shell "git " "format" "format"
             "-patch -1" None 30 0%nat); reflexivity.
  - reflexivity.
Defined.

(** * Properties of the configuration manager *)

Lemma dict_get_set_eq k v d : dict_get k (dict_set k v d) = Some v.
Proof.
  induction d as [| [k' v'] d IH]; simpl.
  - now rewrite String.eqb_refl.
  - destruct (String.eqb k k') eqn:E; simpl; [now rewrite String.eqb_refl|].
    now rewrite E.
Qed.

Lemma dict_get_set_ne k k' v d : k <> k' -> dict_get k' (dict_set k v d) = dict_get k' d.
Proof.
  intros Hne. induction d as [| [k0 v0] d IH]; simpl.
  - destruct (String.eqb_spec k' k); [congruence | reflexivity].
  - destruct (String.eqb_spec k k0) as [<- | Hk]; simpl.
    + destruct (String.eqb_spec k' k); [congruence | reflexivity].
    + destruct (String.eqb k' k0); [reflexivity | exact IH].
Qed.

Lemma split_on_nonempty sep cur s : split_on sep cur s <> [].
Proof.
  revert cur. induction s as [| c s IH]; intros cur; simpl; [discriminate|].
  destruct (Ascii.eqb c sep); [discriminate | apply IH].
Qed.

Lemma lookup_after_set keys value d :
  keys <> [] -> config_lookup keys (PDict (set_in keys value d)) = Some value.
Proof.
  revert d. induction keys as [| k keys IH]; intros d Hne; [contradiction|].
  destruct keys as [| k2 keys].
  - simpl. now rewrite dict_get_set_eq.
  - change (set_in (k :: k2 :: keys) value d) with
      (dict_set k (PDict (set_in (k2 :: keys) value
                            (match dict_get k d with Some (PDict c) => c | _ => [] end))) d).
    cbn [config_lookup]. rewrite dict_get_set_eq. apply IH. discriminate.
Qed.

(** X17.  What [set] stores, [get] returns: for every dotted key, every
    value and every configuration dict, reading the key after setting it
    gives the value, whatever the key held before and whatever default is
    passed. *)
Theorem config_get_after_set d key value default :
  config_get (config_set (PDict d) key value) key default = value.
Proof.
  unfold config_get, config_set.
  rewrite lookup_after_set by apply split_on_nonempty. reflexivity.
Qed.

Lemma lookup_nonempty_in_empty keys : keys <> [] -> config_lookup keys (PDict []) = None.
Proof. destruct keys; [contradiction | reflexivity]. Qed.

Lemma lookup_nonempty_in_scalar keys v :
  keys <> [] -> is_dict v = false -> config_lookup keys v = None.
Proof.
  destruct keys; [contradiction|]. intros _ Hv. now destruct v.
Qed.

Lemma set_in_frame keys1 keys2 value d :
  keys_diverge keys1 keys2 ->
  config_lookup keys2 (PDict (set_in keys1 value d)) = config_lookup keys2 (PDict d).
Proof.
  intros (common & k1 & k2 & rest1 & rest2 & Hne & -> & ->).
  revert d. induction common as [| a common IH]; intros d.
  - simpl app.
    assert (forall x, dict_get k2 (dict_set k1 x d) = dict_get k2 d) as Hget
      by (intros x; now apply dict_get_set_ne).
    destruct rest1 as [| r rest1]; cbn [set_in config_lookup]; now rewrite Hget.
  - assert (exists t ts, (common ++ k1 :: rest1)%list = t :: ts) as (t & ts & Ht)
      by (destruct common; simpl; eauto).
    change ((a :: common) ++ k1 :: rest1)%list with (a :: (common ++ k1 :: rest1))%list.
    change ((a :: common) ++ k2 :: rest2)%list with (a :: (common ++ k2 :: rest2))%list.
    rewrite Ht.
    change (set_in (a :: t :: ts) value d) with
      (dict_set a (PDict (set_in (t :: ts) value
                            (match dict_get a d with Some (PDict c) => c | _ => [] end))) d).
    rewrite <- Ht. cbn [config_lookup]. rewrite dict_get_set_eq, IH.
    assert ((common ++ k2 :: rest2)%list <> []) as Hk by now destruct common.
    destruct (dict_get a d) as [[| | | | | c] |]; try reflexivity;
      rewrite (lookup_nonempty_in_empty _ Hk); try reflexivity;
      symmetry; now apply lookup_nonempty_in_scalar.
Qed.

(** X18.  Setting one key leaves every key that parts ways with it as it
    was: when the two dotted keys go on with different names after a
    common beginning, [get] of the second gives the same answer before
    and after [set] of the first. *)
Theorem config_set_leaves_other_keys d key1 key2 value default :
  keys_diverge (split_dots key1) (split_dots key2) ->
  config_get (config_set (PDict d) key1 value) key2 default =
  config_get (PDict d) key2 default.
Proof.
  intros Hdiv. unfold config_get, config_set. now rewrite set_in_frame.
Qed.

Lemma config_set_leaves_other_keys_witness :
  let cfg := PDict (_get_default_config "/backups") in
  config_get (config_set cfg "preferences.max_history" (PInt 3))
    "preferences.backup_enabled" PNone = PBool true /\
  config_get (config_set cfg "preferences.max_history" (PInt 3))
    "preferences.max_history" PNone = PInt 3.
Proof.
  intros cfg. split.
  - unfold cfg.
    rewrite (config_set_leaves_other_keys (_get_default_config "/backups")
               "preferences.max_history" "preferences.backup_enabled").
    + reflexivity.
    + exists ["preferences"], "max_history", "backup_enabled", [], [].
      split; [discriminate|]. split; reflexivity.
  - reflexivity.
Defined.

(** X24.  The model of a type is read from [models.<type>], except for
    the type [default]: a model stored under [models.<type>] is the one
    that [get_model] returns for that type, while a model stored under
    [models.default] is never read, [get_model('default')] answers from
    [api.default_model] as before. *)
Theorem model_of_a_type_after_set d model_type value :
  model_type <> "default" ->
  get_model (config_set (PDict d) ("models." +:+ model_type) value) model_type = value /\
  get_model (config_set (PDict d) "models.default" value) "default" =
    get_model (PDict d) "default".
Proof.
  intros Hne. split.
  - unfold get_model. destruct (String.eqb_spec model_type "default"); [contradiction|].
    unfold config_get, config_set.
    rewrite lookup_after_set by apply split_on_nonempty. reflexivity.
  - unfold get_model, config_get, config_set. cbn [String.eqb Ascii.eqb Bool.eqb].
    rewrite set_in_frame; [reflexivity|].
    exists [], "models", "api", ["default"], ["default_model"].
    split; [discriminate|]. split; reflexivity.
Qed.

Lemma model_of_a_type_after_set_witness :
  let cfg := PDict (_get_default_config "/backups") in
  get_model (config_set cfg "models.coding" (PStr "m1")) "coding" = PStr "m1" /\
  get_model (config_set cfg "models.default" (PStr "m1")) "default" =
    PStr "qwen/qwen3-coder:free" /\
  get_model cfg "vision" = PStr "qwen/qwen3-coder:free".
Proof.
  intros cfg.
  destruct (model_of_a_type_after_set (_get_default_config "/backups") "coding" (PStr "m1"))
    as [Hset Hdef]; [discriminate|].
  split; [exact Hset|]. split; [exact (eq_trans Hdef eq_refl) | reflexivity].
Defined.

(** ** Merging the user's file into the defaults *)

Lemma merge_loop_nil result : merge_loop [] result = result.
Proof. reflexivity. Qed.

Lemma merge_loop_cons key value rest result :
  merge_loop ((key, value) :: rest) result =
  merge_loop rest
    (dict_set key
       (match dict_get key result, value with
        | Some (PDict rd), PDict _ => PDict (merge_into rd value)
        | _, _ => value
        end) result).
Proof. reflexivity. Qed.

Lemma dict_set_keeps_keys k v d k' :
  is_Some (dict_get k' d) -> is_Some (dict_get k' (dict_set k v d)).
Proof.
  intros H. destruct (String.eqb_spec k k') as [-> | Hne].
  - rewrite dict_get_set_eq. eauto.
  - now rewrite dict_get_set_ne.
Qed.

Lemma merge_loop_keeps_keys items result k :
  is_Some (dict_get k result) -> is_Some (dict_get k (merge_loop items result)).
Proof.
  revert result. induction items as [| [key value] rest IH]; intros result H.
  - exact H.
  - rewrite merge_loop_cons. apply IH. now apply dict_set_keeps_keys.
Qed.

Lemma merge_loop_untouched items result k :
  ~ In k (map fst items) -> dict_get k (merge_loop items result) = dict_get k result.
Proof.
  revert result. induction items as [| [key value] rest IH]; intros result Hk.
  - reflexivity.
  - rewrite merge_loop_cons. rewrite IH by (intros Hin; apply Hk; now right).
    apply dict_get_set_ne. intros ->. apply Hk. now left.
Qed.

(** X19.  Merging keeps every key of the defaults and takes over every
    key of the user's file.  A key that the user does not set keeps its
    default; a key that the user sets to something else than a dict, or
    that has no dict as its default, gets the user's value; and where both
    hold a dict the two are merged in the same way. *)
Theorem merge_configs_keeps_defaults_and_user default user k :
  List.NoDup (map fst user) ->
  (is_Some (dict_get k default) -> is_Some (dict_get k (_merge_configs default user))) /\
  (~ In k (map fst user) ->
   dict_get k (_merge_configs default user) = dict_get k default) /\
  (forall v, In (k, v) user ->
     dict_get k (_merge_configs default user) =
       Some (match dict_get k default, v with
             | Some (PDict dd), PDict uu => PDict (_merge_configs dd uu)
             | _, _ => v
             end)).
Proof.
  intros Hnodup. unfold _merge_configs. fold (merge_loop user default).
  split; [apply merge_loop_keeps_keys|]. split; [apply merge_loop_untouched|].
  intros v Hin. revert default.
  induction user as [| [key value] rest IH]; intros default; [destruct Hin|].
  inversion Hnodup as [| ? ? Hnot Hrest]; subst.
  rewrite merge_loop_cons. destruct Hin as [[= -> ->] | Hin].
  - rewrite merge_loop_untouched by exact Hnot.
    rewrite dict_get_set_eq. f_equal.
    destruct (dict_get k default) as [[| | | | | dd] |]; try reflexivity.
    destruct v; reflexivity.
  - rewrite (IH Hrest Hin).
    assert (key <> k) as Hne.
    { intros ->. apply Hnot. apply in_map_iff. exists (k, v). split; [reflexivity | exact Hin]. }
    now rewrite dict_get_set_ne.
Qed.

Lemma merge_configs_keeps_defaults_and_user_witness :
  let user := [("preferences", PDict [("max_history", PInt 3)]); ("extra", PStr "x")] in
  let merged := PDict (_merge_configs (_get_default_config "/backups") user) in
  is_Some (dict_get "models" (_merge_configs (_get_default_config "/backups") user)) /\
  config_get merged "preferences.max_history" PNone = PInt 3 /\
  config_get merged "preferences.backup_enabled" PNone = PBool true /\
  config_get merged "extra" PNone = PStr "x".
Proof.
  intros user merged.
  assert (List.NoDup (map fst user)) as Hnd.
  { repeat constructor; simpl; intuition discriminate. }
  destruct (merge_configs_keeps_defaults_and_user (_get_default_config "/backups") user
              "models" Hnd) as (Hkeep & _ & _).
  split; [apply Hkeep; simpl; eauto|].
  repeat split; reflexivity.
Defined.

(** * Properties of the history, continued *)

Lemma run_mutations_bounded_witness :
  let s := state_with ∅ (mkConfig true 3) in
  history_bounded
    (run_mutations [MWrite "f1" "1" None; MWrite "f2" "2" None; MWrite "f3" "3" None;
                    MWrite "f4" "4" None; MRemove "f1" None; MUndo; MWrite "f5" "5" None] s).
Proof.
  intros s. apply run_mutations_bounded.
  - vm_compute. discriminate.
  - vm_compute. discriminate.
Defined.

(** X21.  For a positive maximum, [_add_to_history] never raises, puts the
    new record last and keeps the most recent records in their order: the
    history becomes the old one with the new record appended, cut at the
    front down to [max_history] records. *)
Theorem add_to_history_keeps_most_recent operation file_path backup_path original_content s :
  (1 <= max_history (config s))%Z ->
  exists s',
    _add_to_history operation file_path backup_path original_content s = (s', Returned tt) /\
    world s' = world s /\
    let appended :=
      (operation_history s ++
         [mkOp operation file_path backup_path original_content (now_iso (world s))])%list in
    operation_history s' =
      drop (List.length appended - Z.to_nat (max_history (config s))) appended /\
    last (operation_history s') =
      Some (mkOp operation file_path backup_path original_content (now_iso (world s))) /\
    List.length (operation_history s') =
      Nat.min (List.length appended) (Z.to_nat (max_history (config s))).
Proof.
  intros Hm. eexists. split; [apply add_to_history_run|]. split; [reflexivity|].
  simpl. rewrite limit_history_most_recent by exact Hm.
  split; [reflexivity|]. split.
  - rewrite length_app. simpl.
    rewrite drop_app_le by lia. apply last_snoc.
  - rewrite length_drop. lia.
Qed.

Lemma add_to_history_keeps_most_recent_witness :
  let s := run_mutations [MWrite "f1" "1" None; MWrite "f2" "2" None]
             (state_with ∅ (mkConfig true 2)) in
  map op_file_path (operation_history s) = ["f1"; "f2"] /\
  map op_file_path
    (operation_history (fst (_add_to_history "modify" "f3" "" "" s))) = ["f2"; "f3"].
Proof.
  intros s. split; [vm_compute; reflexivity|].
  destruct (add_to_history_keeps_most_recent "modify" "f3" "" "" s) as (s' & Hrun & _ & Hh & _).
  - vm_compute. discriminate.
  - rewrite Hrun. simpl in Hh. simpl. rewrite Hh. vm_compute. reflexivity.
Defined.

Lemma overwrite_then_undo_restores_witness :
  let s := state_with {[ "a.txt" := "v1" ]} default_config in
  exists s1 r1 s2 r2,
    write_file "a.txt" "v2" None s = (s1, Returned r1) /\
    files (world s1) !! "a.txt" = Some "v2" /\
    undo_last_operation s1 = (s2, Returned r2) /\
    files (world s2) !! "a.txt" = Some "v1".
Proof.
  intros s.
  destruct (overwrite_then_undo_restores "a.txt" "v2" None s "v1")
    as (s1 & r1 & bp & s2 & r2 & Hw & _ & Hf & Hu & Hrest & Hres);
    try reflexivity; [vm_compute; discriminate|].
  exists s1, r1, s2, r2. split; [exact Hw|]. split; [exact Hf|]. split; [exact Hu|].
  unfold restored_as_saved in Hrest. rewrite Hres in Hrest; [exact Hrest | reflexivity |].
  vm_compute. discriminate.
Defined.

Lemma limit_history_Forall (P : OpRecord -> Prop) max_hist h :
  Forall P h -> Forall P (limit_history max_hist h).
Proof.
  intros H. unfold limit_history, py_slice_from.
  destruct (_ <? _)%Z; [|exact H]. now apply Forall_drop.
Qed.

Lemma remove_file_returned path b s s' r :
  remove_file path b s = (s', Returned r) ->
  exists rec,
    op_operation rec = "remove" /\
    operation_history s' =
      limit_history (max_history (config s)) (operation_history s ++ [rec]).
Proof.
  unfold remove_file. intros H. apply try_except_reraise_inv in H.
  apply bind_inv_returned in H as (s0 & ex & H0 & H). rewrite path_exists_run in H0.
  injection H0 as <- <-.
  destruct (negb _); [discriminate|].
  apply bind_inv_returned in H as (s0 & cfg & H0 & H). apply gets_inv in H0 as [-> ->].
  apply bind_inv_returned in H as (s2 & saved & H2 & H).
  apply bind_inv_returned in H as (s3 & [] & H3 & H).
  apply bind_inv_returned in H as (s4 & [] & H4 & H).
  rewrite add_to_history_run in H4. injection H4 as <-.
  apply ret_inv in H as [-> ->].
  assert (same_agent s s3) as (Hc & _ & Hh).
  { assert (world_only (if default (backup_enabled (config s)) b
                        then bp <- _backup_file path ;; oc <- read_text path ;;
                             ret (Some bp, Some oc)
                        else ret (None, None))) as Hwo by frame.
    specialize (Hwo s). rewrite H2 in Hwo.
    pose proof (world_only_unlink path s2) as Hu. rewrite H3 in Hu.
    eapply same_agent_trans; eassumption. }
  eexists. simpl. rewrite Hc, Hh. split; [|reflexivity]. reflexivity.
Qed.

Lemma run_mutation_recorded m s :
  Forall recorded_operation (operation_history s) ->
  Forall recorded_operation (operation_history (fst (run_mutation m s))).
Proof.
  intros HF. destruct m as [path content b | path b | |].
  - simpl. destruct (write_file path content b s) as [s' [r | e]] eqn:Hrun.
    + apply write_file_returned in Hrun as (bp & oc & s4 & _ & _ & (Hc & _ & Hh) & ->).
      simpl. apply limit_history_Forall. rewrite Hh.
      apply Forall_app. split; [exact HF|]. constructor; [|constructor]. now left.
    + apply write_file_raised in Hrun as (_ & _ & _ & Hh). simpl. now rewrite Hh.
  - simpl. destruct (remove_file path b s) as [s' [r | e]] eqn:Hrun.
    + apply remove_file_returned in Hrun as (rec & Hk & Hh). simpl. rewrite Hh.
      apply limit_history_Forall, Forall_app. split; [exact HF|].
      constructor; [|constructor]. now right.
    + apply remove_file_raised in Hrun as (_ & _ & _ & Hh). simpl. now rewrite Hh.
  - pose proof (undo_history s) as (_ & _ & H). simpl.
    destruct (list_pop (operation_history s)) as [[front last_op] |] eqn:E.
    + rewrite H. apply list_pop_app in E. rewrite E in HF.
      now apply Forall_app in HF as [HF _].
    + now rewrite H.
  - simpl. constructor.
Qed.

(** X23.  No record ever says [create].  Starting from a history that
    holds only [modify] and [remove] records, the empty one in particular,
    every sequence of writes, removals, undos and resets leaves a history
    of [modify] and [remove] records: the [create] branch of
    [undo_last_operation] is never taken for a record that the agent
    made. *)
Theorem history_never_records_create ms s :
  Forall recorded_operation (operation_history s) ->
  Forall recorded_operation (operation_history (run_mutations ms s)).
Proof.
  revert s. induction ms as [| m ms IH]; intros s HF; simpl; [exact HF|].
  apply IH. now apply run_mutation_recorded.
Qed.

Lemma history_never_records_create_witness :
  let s := run_mutations [MWrite "new.txt" "1" None; MWrite "new.txt" "2" None;
                          MRemove "new.txt" None; MWrite "other.txt" "3" (Some false)]
             state0 in
  Forall recorded_operation (operation_history s) /\
  map op_operation (operation_history s) = ["modify"; "modify"; "remove"; "modify"].
Proof.
  intros s. split; [|vm_compute; reflexivity].
  apply history_never_records_create. constructor.
Defined.
